(** * EDF to EDF+ converter: a shallow embedding of [edf2edfplus.py]

    The development follows the Python source function by function.
    Python [float] is IEEE binary64, modelled by Rocq's primitive floats;
    Python [int] is [Z]; [str] is [string]; a [bytes] object is a
    [list Byte.byte].  Exceptions are explicit:
    a fallible computation returns [result A = exn + A]. *)

From Stdlib Require Import ZArith List String Ascii Bool Lia PeanoNat Permutation Sorted.
From Stdlib Require Import Floats DecimalString.
Import ListNotations.

Set Warnings "-inexact-float".

Open Scope list_scope.
Open Scope string_scope.

(** ** Exceptions and the error monad *)

Inductive exn : Type :=
| ZeroDivisionError
| IndexError
| ValueError
| OverflowError
| UnboundLocalError
| UnicodeDecodeError
| StructError.

Definition result (A : Type) : Type := (exn + A)%type.

Definition ret {A} (a : A) : result A := inr a.
Definition raise {A} (e : exn) : result A := inl e.

Definition bind {A B} (m : result A) (k : A -> result B) : result B :=
  match m with
  | inl e => inl e
  | inr a => k a
  end.

Notation "'do' x <- m ; k" := (bind m (fun x => k))
  (at level 10, x name, m at level 100, k at level 200).

(** [option] plays the same part where the source maps every exception to
    [None]. *)
Definition obind {A B} (m : option A) (k : A -> option B) : option B :=
  match m with
  | None => None
  | Some a => k a
  end.

Notation "'opt' x <- m ; k" := (obind m (fun x => k))
  (at level 10, x name, m at level 100, k at level 200).

(** ** Python strings and bytes *)

(** Characters removed by [str.strip()] in the ASCII range. *)
Definition is_space (c : ascii) : bool :=
  let n := nat_of_ascii c in
  (((9 <=? n) && (n <=? 13)) || ((28 <=? n) && (n <=? 32)))%nat.

Definition is_digit (c : ascii) : bool :=
  let n := nat_of_ascii c in ((48 <=? n) && (n <=? 57))%nat.

Fixpoint lstrip (s : string) : string :=
  match s with
  | String c s' => if is_space c then lstrip s' else s
  | EmptyString => EmptyString
  end.

Fixpoint rstrip (s : string) : string :=
  match s with
  | String c s' =>
      match rstrip s' with
      | EmptyString => if is_space c then EmptyString else String c EmptyString
      | t => String c t
      end
  | EmptyString => EmptyString
  end.

Definition strip (s : string) : string := rstrip (lstrip s).

(** [sep in s] for a one-character [sep]. *)
Fixpoint contains_char (sep : ascii) (s : string) : bool :=
  match s with
  | String c s' => Ascii.eqb c sep || contains_char sep s'
  | EmptyString => false
  end.

(** [s.split(sep)] for a one-character [sep]: never the empty list. *)
Fixpoint split_on (sep : ascii) (s : string) : list string :=
  match s with
  | EmptyString => [EmptyString]
  | String c s' =>
      if Ascii.eqb c sep then EmptyString :: split_on sep s'
      else match split_on sep s' with
           | p :: ps => String c p :: ps
           | [] => [String c EmptyString]
           end
  end.

(** [s[i:j]] for [0 <= i <= j]. *)
Definition slice (i j : nat) (s : string) : string := substring i (j - i) s.

(** [bytes.decode('ascii', errors='ignore')]: bytes above 127 vanish. *)
Fixpoint decode_ascii_ignore (b : list Byte.byte) : string :=
  match b with
  | c :: b' =>
      if (Byte.to_nat c <? 128)%nat
      then String (ascii_of_byte c) (decode_ascii_ignore b')
      else decode_ascii_ignore b'
  | [] => EmptyString
  end.

(** [s.replace(pat, "")] for a non-empty [pat]: the leftmost occurrences,
    not overlapping, are removed.  [skip] counts the characters of an
    occurrence still to drop. *)
Fixpoint remove_all_from (pat : string) (skip : nat) (s : string) : string :=
  match s with
  | EmptyString => EmptyString
  | String c s' =>
      match skip with
      | S k => remove_all_from pat k s'
      | O => if prefix pat s then remove_all_from pat (String.length pat - 1) s'
             else String c (remove_all_from pat 0 s')
      end
  end.

Definition remove_all (pat s : string) : string := remove_all_from pat 0 s.

(** *** [int(str)] on ASCII text

    Surrounding whitespace is stripped, one sign is allowed, and single
    underscores may separate digits. *)
Definition digit_value (c : ascii) : Z := Z.of_nat (nat_of_ascii c - 48).

(** [after_digit] tells whether the previous character was a digit, which
    is where an underscore may stand. *)
Fixpoint parse_digits (acc : Z) (after_digit : bool) (s : string) : option Z :=
  match s with
  | EmptyString => if after_digit then Some acc else None
  | String c s' =>
      if is_digit c then parse_digits (10 * acc + digit_value c) true s'
      else if Ascii.eqb c "_" && after_digit then
             match s' with
             | String d _ => if is_digit d then parse_digits acc false s' else None
             | EmptyString => None
             end
           else None
  end.

Definition py_int (s : string) : option Z :=
  match strip s with
  | String "-" t => option_map Z.opp (parse_digits 0 false t)
  | String "+" t => parse_digits 0 false t
  | t => parse_digits 0 false t
  end.

(** *** Formatting: [f"{z:0{width}d}"] *)

Definition decimal (z : Z) : string := NilZero.string_of_uint (N.to_uint (Z.abs_N z)).

Fixpoint zeros (n : nat) : string :=
  match n with
  | O => EmptyString
  | S k => String "0" (zeros k)
  end.

Definition format_0d (width : nat) (z : Z) : string :=
  let digits := decimal z in
  if (z <? 0)%Z
  then String "-" (zeros (width - 1 - String.length digits) ++ digits)
  else zeros (width - String.length digits) ++ digits.

(** *** [re.search(r'(\d+)_', s)], group 1

    The leftmost digit whose maximal digit run is followed by an
    underscore starts the match; a shorter run never helps, since the
    character after it is a digit. *)
Fixpoint span_digits (s : string) : string * string :=
  match s with
  | String c s' =>
      if is_digit c then let (run, rest) := span_digits s' in (String c run, rest)
      else (EmptyString, s)
  | EmptyString => (EmptyString, EmptyString)
  end.

Fixpoint search_digits_underscore (s : string) : option string :=
  match s with
  | EmptyString => None
  | String c s' =>
      if is_digit c then
        let (run, rest) := span_digits s in
        match rest with
        | String "_" _ => Some run
        | _ => search_digits_underscore s'
        end
      else search_digits_underscore s'
  end.

(** ** Header metadata and the canonical file name *)

Record Metadata : Type := {
  md_version : string;
  md_patient_id : string;
  md_recording_id : string;
  md_start_date : string;   (* DD.MM.YY *)
  md_start_time : string;   (* HH.MM.SS *)
  md_header_bytes : string;
  md_reserved : string;
  md_records : string;
  md_duration : string;
  md_nsignals : string
}.

(** [extract_edf_metadata] on the bytes of the file; an unreadable file is
    [None] at the caller. *)
Definition extract_edf_metadata (file_bytes : list Byte.byte) : Metadata :=
  let header_str := decode_ascii_ignore (firstn 256 file_bytes) in
  {| md_version := strip (slice 0 8 header_str);
     md_patient_id := strip (slice 8 88 header_str);
     md_recording_id := strip (slice 88 168 header_str);
     md_start_date := strip (slice 168 176 header_str);
     md_start_time := strip (slice 176 184 header_str);
     md_header_bytes := strip (slice 184 192 header_str);
     md_reserved := strip (slice 192 236 header_str);
     md_records := strip (slice 236 244 header_str);
     md_duration := strip (slice 244 252 header_str);
     md_nsignals := strip (slice 252 256 header_str) |}.

Definition convert_edf_date_time (date_str time_str : string) : option string :=
  match split_on "." date_str with
  | [day; month; year] =>
      opt y <- py_int year;
      let full_year := if (y <? 50)%Z then (2000 + y)%Z else (1900 + y)%Z in
      opt m <- py_int month;
      opt d <- py_int day;
      let date_formatted := format_0d 4 full_year ++ format_0d 2 m ++ format_0d 2 d in
      match split_on "." time_str with
      | [hour; minute; second] =>
          opt h <- py_int hour;
          opt mi <- py_int minute;
          let time_formatted := format_0d 2 h ++ format_0d 2 mi in
          Some (date_formatted ++ "_" ++ time_formatted)
      | _ => None
      end
  | _ => None
  end.

(** The patient id of the header, or the digits before an underscore in
    the file's base name. *)
Definition resolve_patient_id (metadata : Metadata) (basename : string)
  : option string :=
  let patient_id := strip (md_patient_id metadata) in
  if String.eqb patient_id "" || String.eqb patient_id "No Database Record"
  then search_digits_underscore basename
  else Some patient_id.

(** [generate_correct_filename]; [metadata] is [None] when the file could
    not be read, [basename] is [os.path.basename(edf_file)]. *)
Definition generate_correct_filename (metadata : option Metadata)
  (basename : string) : option string :=
  opt md <- metadata;
  opt patient_id <- resolve_patient_id md basename;
  opt date_time_str <- convert_edf_date_time (md_start_date md) (md_start_time md);
  (* an empty string is falsy: [if not date_time_str: return None] *)
  if String.eqb date_time_str "" then None
  else Some (patient_id ++ "_" ++ date_time_str ++ ".edf").

(** ** Python numbers *)

(** The binary64 value nearest to an integer: the cast of numpy's
    [astype(np.float64)], exact on int16. *)
Definition Z_to_float (z : Z) : float :=
  SF2Prim (binary_normalize prec emax z 0 false).

(** The conversion of an [int] operand in mixed arithmetic: the nearest
    binary64 value, an error beyond the range of the format. *)
Definition float_of_Z (z : Z) : result float :=
  match binary_normalize prec emax z 0 false with
  | S754_infinity _ => raise OverflowError
  | sf => ret (SF2Prim sf)
  end.

(** [a != b] on floats: true as soon as one side is a NaN. *)
Definition float_ne (a b : float) : bool := negb (a =? b)%float.

(** [a / b] on Python scalars: a zero divisor raises. *)
Definition py_truediv (a b : float) : result float :=
  if (b =? 0)%float then raise ZeroDivisionError else ret (a / b)%float.

(** [int(x)] for a float: truncation toward zero. *)
Definition py_int_of_float (x : float) : result Z :=
  match Prim2SF x with
  | S754_nan => raise ValueError
  | S754_infinity _ => raise OverflowError
  | S754_zero _ => ret 0%Z
  | S754_finite s m e =>
      let magnitude :=
        match e with
        | Zneg k => Z.shiftr (Zpos m) (Zpos k)
        | _ => Z.shiftl (Zpos m) e
        end in
      ret (if s then (- magnitude)%Z else magnitude)
  end.

(** ** The decoded container *)

Record SignalInfo : Type := {
  label : string;
  transducer : string;
  units : string;
  physical_min : float;
  physical_max : float;
  digital_min : Z;
  digital_max : Z;
  prefilter : string;
  samples_per_record : Z;
  signal_reserved : string
}.

Record Header : Type := {
  version : float;
  patient_id : string;
  recording_id : string;
  start_date : string;
  start_time : string;
  header_bytes : Z;
  reserved : string;
  records : Z;
  duration : float;
  nsignals : Z;
  signals : list SignalInfo
}.

(** Messages of [log_print] that the decoder's data loop can emit. *)
Inductive Warning : Type :=
| SignalExceedsSpace (sig : nat)
| SampleCountMismatch (sig rec : nat).

(** *** Lists as arrays *)

Definition lookup {A} (l : list A) (i : nat) : result A :=
  match nth_error l i with
  | Some a => ret a
  | None => raise IndexError
  end.

Fixpoint set_nth {A} (i : nat) (a : A) (l : list A) : list A :=
  match l, i with
  | [], _ => []
  | _ :: l', O => a :: l'
  | b :: l', S k => b :: set_nth k a l'
  end.

(** [row[start:start+len(vals)] = vals], the slice lying inside the row. *)
Definition set_slice {A} (start : nat) (vals row : list A) : list A :=
  (firstn start row ++ vals ++ skipn (start + List.length vals) row)%list.

Fixpoint list_max (l : list Z) : Z :=
  match l with
  | [] => 0%Z
  | [z] => z
  | z :: l' => Z.max z (list_max l')
  end.

(** [range(n)] *)
Definition range (n : Z) : list nat := seq 0 (Z.to_nat n).

(** *** [struct.unpack('<' + 'h' * samples, buf)] *)

Definition int16_le (lo hi : Byte.byte) : Z :=
  let u := (Z.of_N (Byte.to_N lo) + 256 * Z.of_N (Byte.to_N hi))%Z in
  if (u <? 32768)%Z then u else (u - 65536)%Z.

Fixpoint unpack_pairs (buf : list Byte.byte) : list Z :=
  match buf with
  | lo :: hi :: buf' => int16_le lo hi :: unpack_pairs buf'
  | _ => []
  end.

(** The buffer must hold exactly [2 * samples] bytes. *)
Definition struct_unpack_h (samples : nat) (buf : list Byte.byte) : result (list Z) :=
  if (List.length buf =? 2 * samples)%nat then ret (unpack_pairs buf)
  else raise StructError.

(** *** The data loop of [read_edf_file_direct] *)

Record ReadState : Type := {
  stream : list Byte.byte;      (* what [f] has not yet delivered *)
  data : list (list Z);         (* the int16 grid *)
  warnings : list Warning
}.

(** One iteration of the inner loop, for record [rec] and signal [sig]. *)
Definition read_block (header : Header) (max_samples : Z) (rec sig : nat)
  (st : ReadState) : result ReadState :=
  do signal <- lookup (signals header) sig;
  let samples := samples_per_record signal in
  if (samples >? 0)%Z then
    let n := Z.to_nat samples in
    let buf := firstn (2 * n) (stream st) in
    let rest := skipn (2 * n) (stream st) in
    do signal_data <- struct_unpack_h n buf;
    if (List.length signal_data =? n)%nat then
      let start_idx := (rec * n)%nat in
      let end_idx := ((rec + 1) * n)%nat in
      if (Z.of_nat end_idx <=? max_samples)%Z then
        do row <- lookup (data st) sig;
        ret {| stream := rest;
               data := set_nth sig (set_slice start_idx signal_data row) (data st);
               warnings := warnings st |}
      else
        ret {| stream := rest; data := data st;
               warnings := (warnings st ++ [SignalExceedsSpace sig])%list |}
    else
      ret {| stream := rest; data := data st;
             warnings := (warnings st ++ [SampleCountMismatch sig rec])%list |}
  else ret st.

Fixpoint for_each {S} (body : nat -> S -> result S) (idx : list nat) (st : S)
  : result S :=
  match idx with
  | [] => ret st
  | i :: idx' => do st' <- body i st; for_each body idx' st'
  end.

Definition total_samples_per_signal (header : Header) : result (list Z) :=
  for_each
    (fun sig acc =>
       do signal <- lookup (signals header) sig;
       ret (acc ++ [(records header * samples_per_record signal)%Z])%list)
    (range (nsignals header)) [].

(** The second half of [read_edf_file_direct], from "Read data" on:
    [body] is what the file holds after the main header and the signal
    headers. *)
Definition read_data_records (header : Header) (body : list Byte.byte)
  : result (Header * list (list Z) * list Warning) :=
  do totals <- total_samples_per_signal header;
  let max_samples := match totals with [] => 0%Z | _ => list_max totals end in
  (* [np.zeros] refuses negative dimensions *)
  if ((nsignals header <? 0) || (max_samples <? 0))%Z then raise ValueError else
  let zeros_grid :=
    repeat (repeat 0%Z (Z.to_nat max_samples)) (Z.to_nat (nsignals header)) in
  do st <- for_each
             (fun rec st =>
                for_each (read_block header max_samples rec)
                         (range (nsignals header)) st)
             (range (records header))
             {| stream := body; data := zeros_grid; warnings := [] |};
  ret (header, data st, warnings st).

(** [f.read(size)]: what is read and what remains; a negative size reads
    to the end. *)
Definition file_read (size : Z) (contents : list Byte.byte)
  : list Byte.byte * list Byte.byte :=
  if (size <? 0)%Z then (contents, [])
  else (firstn (Z.to_nat size) contents, skipn (Z.to_nat size) contents).

Section Decoding.

(** Python's [float(str)]; [None] stands for its [ValueError]. *)
Variable py_float : string -> option float.

(** [float(field.strip() or '0')] and [int(field.strip() or '0')] inside
    [try ... except], the default standing for any failure. *)
Definition float_field (field : string) : float :=
  let text := strip field in
  match py_float (if String.eqb text "" then "0" else text) with
  | Some x => x
  | None => 0%float
  end.

Definition int_field (field : string) : Z :=
  let text := strip field in
  match py_int (if String.eqb text "" then "0" else text) with
  | Some z => z
  | None => 0%Z
  end.

Definition parse_signal_info (signal_str : string) : SignalInfo :=
  {| label := strip (slice 0 16 signal_str);
     transducer := strip (slice 16 32 signal_str);
     units := strip (slice 32 40 signal_str);
     physical_min := float_field (slice 40 48 signal_str);
     physical_max := float_field (slice 48 56 signal_str);
     digital_min := int_field (slice 56 64 signal_str);
     digital_max := int_field (slice 64 72 signal_str);
     prefilter := strip (slice 72 80 signal_str);
     samples_per_record := int_field (slice 80 88 signal_str);
     signal_reserved := strip (slice 88 256 signal_str) |}.

(** The first half of [read_edf_file_direct]: the header, and what is
    left of the file after the signal headers. *)
Definition parse_edf_header (file_bytes : list Byte.byte)
  : Header * list Byte.byte :=
  let (header_bytes_read, after_header) := file_read 256 file_bytes in
  let header_str := decode_ascii_ignore header_bytes_read in
  let n := int_field (slice 252 256 header_str) in
  let (signal_header_bytes, body) := file_read (n * 256) after_header in
  let signal_header_str := decode_ascii_ignore signal_header_bytes in
  ({| version := float_field (slice 0 8 header_str);
      patient_id := strip (slice 8 88 header_str);
      recording_id := strip (slice 88 168 header_str);
      start_date := strip (slice 168 176 header_str);
      start_time := strip (slice 176 184 header_str);
      header_bytes := int_field (slice 184 192 header_str);
      reserved := strip (slice 192 236 header_str);
      records := int_field (slice 236 244 header_str);
      duration := float_field (slice 244 252 header_str);
      nsignals := n;
      signals :=
        map (fun i =>
               parse_signal_info
                 (slice (i * 256) ((i + 1) * 256) signal_header_str))
            (range n) |},
   body).

Definition read_edf_file_direct (file_bytes : list Byte.byte)
  : result (Header * list (list Z) * list Warning) :=
  let (header, body) := parse_edf_header file_bytes in
  read_data_records header body.

End Decoding.

(** ** Physical scaling: [create_mne_raw_from_edf_data] *)

Record Annotation : Type := {
  onset : float;
  annotation_duration : float;
  description : string
}.

(** What the conversion uses of an [mne.io.Raw]: the sampling rate, the
    channel names, the channels-by-samples matrix and the annotations. *)
Record Raw : Type := {
  sfreq : float;
  ch_names : list string;
  raw_data : list (list float);
  annotations : list Annotation
}.

(** [mne.io.RawArray(data, info)] *)
Definition RawArray (matrix : list (list float)) (sf : float) (names : list string)
  : Raw :=
  {| sfreq := sf; ch_names := names; raw_data := matrix; annotations := [] |}.

(** The loop over [enumerate(edf_header['signals'])], from index [i]. *)
Fixpoint apply_physical_scaling (i : nat) (sigs : list SignalInfo)
  (data_float : list (list float)) : result (list (list float)) :=
  match sigs with
  | [] => ret data_float
  | signal :: sigs' =>
      if float_ne (physical_max signal) (physical_min signal) then
        do digital_range <- float_of_Z (digital_max signal - digital_min signal);
        do scale <- py_truediv (physical_max signal - physical_min signal)%float
                                digital_range;
        do dmin <- float_of_Z (digital_min signal);
        let offset := (physical_min signal - scale * dmin)%float in
        do row <- lookup data_float i;
        apply_physical_scaling (S i) sigs'
          (set_nth i (map (fun x => x * scale + offset)%float row) data_float)
      else apply_physical_scaling (S i) sigs' data_float
  end.

(** [mne.create_info] and [mne.io.RawArray] are taken to accept what
    they are given.  MNE itself refuses a rate that is not positive and a
    matrix whose rows are not one per name, and renames channels that
    share a label: what is proved of a returned [Raw] below is about its
    matrix, and where the rate or the names matter, a positive rate and
    distinct labels are assumed. *)
Definition create_mne_raw_from_edf_data (edf_header : Header)
  (edf_data : list (list Z)) : result Raw :=
  do first <- lookup (signals edf_header) 0;
  do spr <- float_of_Z (samples_per_record first);
  do sampling_rate <- py_truediv spr (duration edf_header);
  let names := map label (signals edf_header) in
  let data_float := map (map Z_to_float) edf_data in
  do scaled <- apply_physical_scaling 0 (signals edf_header) data_float;
  ret (RawArray scaled sampling_rate names).

(** ** Duration reconciliation (step 2 of [convert_edf_to_edfplus]) *)

(** [raw.get_data().shape[1]] *)
Definition n_times (raw : Raw) : nat :=
  match raw_data raw with
  | [] => O
  | row :: _ => List.length row
  end.

(** [raw.times[-1]]: MNE's time axis is [arange(n_times) / sfreq], so its
    last entry is [(n_times - 1) / sfreq]; an empty axis has no last entry. *)
Definition times_last (raw : Raw) : result float :=
  match n_times raw with
  | O => raise IndexError
  | S k => ret (Z_to_float (Z.of_nat k) / sfreq raw)%float
  end.

(** [np.zeros((rows, cols))] *)
Definition np_zeros (rows cols : nat) : list (list float) :=
  repeat (repeat 0%float cols) rows.

(** [np.concatenate([a, b], axis=1)] for two matrices of the same height. *)
Definition np_concatenate_axis1 (a b : list (list float)) : list (list float) :=
  map (fun rows => (fst rows ++ snd rows)%list) (combine a b).

(** [row[:stop]]: a negative [stop] counts from the end. *)
Definition slice_to {A} (stop : Z) (row : list A) : list A :=
  if (stop <? 0)%Z
  then firstn (Z.to_nat (Z.of_nat (List.length row) + stop)) row
  else firstn (Z.to_nat stop) row.

(** Which branch of the repair ran. *)
Inductive Action : Type := NoAction | Pad | Truncate.

Record Reconciled : Type := {
  repaired : Raw;                       (* [raw] after the repair *)
  zero_padding_start : option float;    (* [None] unless padded *)
  action : Action
}.

Definition float_gt (a b : float) : bool := (b <? a)%float.
Definition float_ge (a b : float) : bool := (b <=? a)%float.

Definition target_sample_count (header_duration : float) (raw : Raw) : result Z :=
  py_int_of_float (header_duration * sfreq raw)%float.

Definition reconcile_duration (header_duration : float) (raw : Raw)
  : result Reconciled :=
  do mne_duration <- times_last raw;
  let duration_diff := abs (mne_duration - header_duration)%float in
  let original_duration := mne_duration in
  if float_gt duration_diff 0.01 then
    do target_samples <- target_sample_count header_duration raw;
    let current_samples := Z.of_nat (n_times raw) in
    if (target_samples >? current_samples)%Z then
      let data := raw_data raw in
      let padding_samples := Z.to_nat (target_samples - current_samples) in
      let zero_padding := np_zeros (List.length data) padding_samples in
      let padded_data := np_concatenate_axis1 data zero_padding in
      ret {| repaired := RawArray padded_data (sfreq raw) (ch_names raw);
             zero_padding_start := Some original_duration;
             action := Pad |}
    else if (target_samples <? current_samples)%Z then
      let truncated_data := map (slice_to target_samples) (raw_data raw) in
      ret {| repaired := RawArray truncated_data (sfreq raw) (ch_names raw);
             zero_padding_start := None;
             action := Truncate |}
    else ret {| repaired := raw; zero_padding_start := None; action := NoAction |}
  else ret {| repaired := raw; zero_padding_start := None; action := NoAction |}.

(** ** External events *)

Record Event : Type := {
  time : string;
  time_seconds : float;
  relative_time : option float;   (* absent when no reference time is known *)
  event_type : string;
  row_index : nat
}.

(** A spreadsheet as pandas hands it over: rows of cells, an empty cell
    being [None] (NaN); [Some s] is a cell whose [str()] is [s]. *)
Definition Cell : Type := option string.
Definition DataFrame : Type := list (list Cell).

Definition str_cell (c : Cell) : string :=
  match c with
  | None => "nan"
  | Some s => s
  end.

Definition isna (c : Cell) : bool :=
  match c with
  | None => true
  | Some _ => false
  end.

(** [event_type not in ['nan', 'None', ''] and str(event_type).strip() != ''] *)
Definition valid_event (event_type : string) : bool :=
  negb (String.eqb event_type "nan" || String.eqb event_type "None"
        || String.eqb event_type "")
  && negb (String.eqb (strip event_type) "").

Section Parsing.

(** Python's [float(str)]; [None] stands for its [ValueError]. *)
Variable py_float : string -> option float.

Definition parse_time_to_seconds (time_str : string) : float :=
  match split_on ":" time_str with
  | p0 :: p1 :: p2 :: _ =>
      match py_float p0, py_float p1, py_float p2 with
      | Some hours, Some minutes, Some seconds =>
          (hours * 3600 + minutes * 60 + seconds)%float
      | _, _, _ => 0%float
      end
  | _ => 0%float
  end.

Definition parse_edf_time_to_seconds (edf_time_str : string) : float :=
  match split_on "." edf_time_str with
  | p0 :: p1 :: p2 :: _ =>
      match py_float p0, py_float p1, py_float p2 with
      | Some hours, Some minutes, Some seconds =>
          (hours * 3600 + minutes * 60 + seconds)%float
      | _, _, _ => 0%float
      end
  | [p0; p1] =>
      match py_float p0, py_float p1 with
      | Some hours, Some minutes => (hours * 3600 + minutes * 60 + 0)%float
      | _, _ => 0%float
      end
  | _ => 0%float
  end.

Definition get_reference_time_from_edf_metadata (metadata : option Metadata)
  : option float :=
  option_map (fun md => parse_edf_time_to_seconds (md_start_time md)) metadata.

(** The row loop of [load_excel_events]; [i] is the index of the first row
    of [rows] in the frame.  A missing column raises at whichever row, and
    the caller turns any exception into the empty list. *)
Fixpoint load_rows (reference_time : option float) (i : nat) (rows : DataFrame)
  : result (list Event) :=
  match rows with
  | [] => ret []
  | row :: rows' =>
      do c2 <- lookup row 2;
      do c3 <- lookup row 3;
      let time_str := strip (str_cell c2) in
      let event_type := strip (str_cell c3) in
      let has_time := contains_char ":" time_str in
      do events <- load_rows reference_time (S i) rows';
      if has_time && valid_event event_type then
        let seconds := parse_time_to_seconds time_str in
        ret ({| time := time_str;
                time_seconds := seconds;
                relative_time :=
                  option_map (fun r => (seconds - r)%float) reference_time;
                event_type := event_type;
                row_index := i |} :: events)
      else ret events
  end.

(** The leading row goes when all its cells are empty, and the index
    restarts at zero. *)
Definition drop_first_empty_row (df : DataFrame) : DataFrame :=
  match df with
  | row :: rest => if forallb isna row then rest else df
  | [] => []
  end.

(** Any exception inside gives the empty list. *)
Definition load_excel_events (df : DataFrame) (reference_time : option float)
  : list Event :=
  match load_rows reference_time 0 (drop_first_empty_row df) with
  | inr events => events
  | inl _ => []
  end.

End Parsing.

(** ** Event alignment (step 5 of [convert_edf_to_edfplus]) *)

Inductive Status : Type :=
| INCLUDED
| EXCLUDED_ZERO_PADDING
| EXCLUDED_OUT_OF_RANGE.

(** The local variables the loop over [all_events] updates.  [ref_time]
    is unbound until the fallback branch assigns it. *)
Record LoopState : Type := {
  onsets : list float;
  durations : list float;
  descriptions : list string;
  event_status : list Status;
  ref_time : option float
}.

Definition initial_state : LoopState :=
  {| onsets := []; durations := []; descriptions := [];
     event_status := []; ref_time := None |}.

Definition tolerance : float := 0.1%float.

(** [zero_padding_start is not None and relative_time >= zero_padding_start] *)
Definition in_zero_padding (zero_padding_start : option float)
  (relative_time : float) : bool :=
  match zero_padding_start with
  | Some start => float_ge relative_time start
  | None => false
  end.

(** What one pass of the loop body decides once [relative_time] is known:
    the status, and the onset of the annotation if one is emitted. *)
Definition classify (zero_padding_start : option float) (actual_duration : float)
  (relative_time : float) : Status * option float :=
  if in_zero_padding zero_padding_start relative_time
  then (EXCLUDED_ZERO_PADDING, None)
  else if float_ge relative_time 0
          && (relative_time <=? actual_duration + tolerance)%float then
    let clamped :=
      if float_gt relative_time actual_duration then actual_duration
      else relative_time in
    (INCLUDED, Some clamped)
  else (EXCLUDED_OUT_OF_RANGE, None).

(** The body of [for i, event in enumerate(all_events)]. *)
Definition classify_event (zero_padding_start : option float)
  (actual_duration : float) (st : LoopState) (event : Event) : result LoopState :=
  do located <-
    match relative_time event with
    | Some r => ret (r, ref_time st)
    | None =>
        match onsets st with
        | [] => ret (0%float, Some (time_seconds event))
        | _ :: _ =>
            match ref_time st with
            | Some r => ret ((time_seconds event - r)%float, ref_time st)
            | None => raise UnboundLocalError
            end
        end
    end;
  let (rel, ref) := located : float * option float in
  match classify zero_padding_start actual_duration rel with
  | (status, Some at_onset) =>
      ret {| onsets := (onsets st ++ [at_onset])%list;
             durations := (durations st ++ [0%float])%list;
             descriptions := (descriptions st ++ [event_type event])%list;
             event_status := (event_status st ++ [status])%list;
             ref_time := ref |}
  | (status, None) =>
      ret {| onsets := onsets st;
             durations := durations st;
             descriptions := descriptions st;
             event_status := (event_status st ++ [status])%list;
             ref_time := ref |}
  end.

Fixpoint classify_events (zero_padding_start : option float)
  (actual_duration : float) (st : LoopState) (all_events : list Event)
  : result LoopState :=
  match all_events with
  | [] => ret st
  | event :: rest =>
      do st' <- classify_event zero_padding_start actual_duration st event;
      classify_events zero_padding_start actual_duration st' rest
  end.

(** [mne.Annotations(onset=..., duration=..., description=...)] *)
Fixpoint make_annotations (os ds : list float) (descs : list string)
  : list Annotation :=
  match os, ds, descs with
  | o :: os', d :: ds', s :: descs' =>
      {| onset := o; annotation_duration := d; description := s |}
        :: make_annotations os' ds' descs'
  | _, _, _ => []
  end.

(** *** Sorting: [all_events.sort(key=...)]

    The key is the relative time when present, the absolute time
    otherwise; the sort is stable. *)
Definition sort_key (event : Event) : float :=
  match relative_time event with
  | Some r => r
  | None => time_seconds event
  end.

Fixpoint insert_sorted (event : Event) (sorted : list Event) : list Event :=
  match sorted with
  | [] => [event]
  | e :: sorted' =>
      if (sort_key e <? sort_key event)%float then e :: insert_sorted event sorted'
      else event :: sorted
  end.

(** Each event is inserted among those that followed it and passes only
    strictly smaller keys, so equal keys keep their first order: the
    result of any stable sort on keys that are numbers (no NaN). *)
Definition sort_events (events : list Event) : list Event :=
  fold_right insert_sorted [] events.

(** *** Dictionaries, in insertion order *)

Section Dict.
Context {K V : Type}.
Variable key_eqb : K -> K -> bool.

Fixpoint dict_get (d : list (K * V)) (k : K) : option V :=
  match d with
  | [] => None
  | (k', v) :: d' => if key_eqb k' k then Some v else dict_get d' k
  end.

Fixpoint dict_set (d : list (K * V)) (k : K) (v : V) : list (K * V) :=
  match d with
  | [] => [(k, v)]
  | (k', v') :: d' =>
      if key_eqb k' k then (k, v) :: d' else (k', v') :: dict_set d' k v
  end.

End Dict.

(** *** The map from positions in [all_events] to spreadsheet files *)

Definition float_eqb (a b : float) : bool := (a =? b)%float.

Definition option_float_eqb (a b : option float) : bool :=
  match a, b with
  | Some x, Some y => float_eqb x y
  | None, None => true
  | _, _ => false
  end.

(** [==] on two event dictionaries. *)
Definition event_eqb (a b : Event) : bool :=
  String.eqb (time a) (time b)
  && float_eqb (time_seconds a) (time_seconds b)
  && option_float_eqb (relative_time a) (relative_time b)
  && String.eqb (event_type a) (event_type b)
  && Nat.eqb (row_index a) (row_index b).

(** [events.index(event)] for the event standing at position [self]: the
    first position holding the very same object or an equal one. *)
Fixpoint index_from (event : Event) (self j : nat) (events : list Event) : nat :=
  match events with
  | [] => self
  | e :: events' =>
      if Nat.eqb j self || event_eqb e event then j
      else index_from event self (S j) events'
  end.

Definition list_index (events : list Event) (self : nat) (event : Event) : nat :=
  index_from event self 0 events.

Fixpoint enumerate_from {A} (i : nat) (l : list A) : list (nat * A) :=
  match l with
  | [] => []
  | a :: l' => (i, a) :: enumerate_from (S i) l'
  end.

Definition enumerate {A} (l : list A) : list (nat * A) := enumerate_from 0 l.

(** The inner loop [for event in events], after [all_events.extend]. *)
Definition map_events_to_file (excel_file : string) (events : list Event)
  (len_all : nat) (mapping : list (nat * string)) : list (nat * string) :=
  fold_left
    (fun m entry =>
       let '(self, event) := entry : nat * Event in
       dict_set Nat.eqb m
         (len_all - List.length events + list_index events self event)
         excel_file)
    (enumerate events) mapping.

(** *** Status write-back (step 6.5) *)

Record StatusUpdate : Type := {
  update_row_index : nat;
  update_status : Status
}.

(** The body of [for i, status in enumerate(event_status)]. *)
Definition record_status_update (all_events : list Event)
  (excel_event_mapping : list (nat * string))
  (updates : list (string * list StatusUpdate)) (entry : nat * Status)
  : list (string * list StatusUpdate) :=
  let '(i, status) := entry in
  match nth_error all_events i with
  | Some event =>
      match dict_get Nat.eqb excel_event_mapping i with
      | Some excel_file =>
          if String.eqb excel_file "" then updates
          else
            let so_far :=
              match dict_get String.eqb updates excel_file with
              | Some l => l
              | None => []
              end in
            dict_set String.eqb updates excel_file
              (so_far ++ [{| update_row_index := row_index event;
                             update_status := status |}])%list
      | None => updates
      end
  | None => updates
  end.

Definition collect_status_updates (all_events : list Event)
  (excel_event_mapping : list (nat * string)) (statuses : list Status)
  : list (string * list StatusUpdate) :=
  fold_left (record_status_update all_events excel_event_mapping)
            (enumerate statuses) [].

(** What the conversion does to the outside world. *)
Inductive Effect : Type :=
| WriteCell (excel_file : string) (row column : nat) (value : Status)
| MoveFile (source destination : string)
| ExportRaw (output_file : string) (raw : Raw).

(** [update_excel_event_status]: one cell of column F per update, the
    sheet being 1-indexed.  The empty cells with which the function first
    fills a missing column F carry no status and are left out. *)
Definition update_excel_event_status (excel_file : string)
  (event_status_info : list StatusUpdate) : list Effect :=
  map (fun info =>
         WriteCell excel_file (update_row_index info + 1) 6 (update_status info))
      event_status_info.

(** ** The conversion: [convert_edf_to_edfplus] *)

(** What a run depends on.  File discovery and the MNE reader are outside
    the program: their results are inputs.  Writing, renaming and
    exporting are recorded as effects and taken to succeed. *)
Record ConvertInput : Type := {
  edf_parent : string;                       (* [Path(edf_file).parent] *)
  edf_name : string;                         (* [os.path.basename(edf_file)] *)
  edf_bytes : list Byte.byte;                (* the content of [edf_file] *)
  excel_files : list (string * DataFrame);   (* [find_matching_excel_files], each
                                                file with its sheet *)
  mne_raw : Raw;                             (* [mne.io.read_raw_edf(edf_file)] *)
  output_file : option string
}.

(** [bytes.decode('ascii')] *)
Fixpoint decode_ascii (b : list Byte.byte) : result string :=
  match b with
  | [] => ret EmptyString
  | c :: b' =>
      if (Byte.to_nat c <? 128)%nat then
        do s <- decode_ascii b'; ret (String (ascii_of_byte c) s)
      else raise UnicodeDecodeError
  end.

(** [b[i:j]] on bytes. *)
Definition slice_bytes (i j : nat) (b : list Byte.byte) : list Byte.byte :=
  firstn (j - i) (skipn i b).

Definition or_raise {A} (e : exn) (o : option A) : result A :=
  match o with
  | Some a => ret a
  | None => raise e
  end.

Definition path_join (parent name : string) : string := parent ++ "/" ++ name.

Fixpoint last_index (c : ascii) (s : string) (i : nat) (found : option nat)
  : option nat :=
  match s with
  | EmptyString => found
  | String d s' =>
      last_index c s' (S i) (if Ascii.eqb d c then Some i else found)
  end.

(** [Path(name).stem]: the name without its last suffix. *)
Definition stem (name : string) : string :=
  match last_index "." name 0 None with
  | Some i =>
      if ((0 <? i) && (i <? String.length name - 1))%nat
      then substring 0 i name else name
  | None => name
  end.

(** [raw.set_annotations(annotations)] *)
Definition set_annotations (raw : Raw) (annots : list Annotation) : Raw :=
  {| sfreq := sfreq raw; ch_names := ch_names raw;
     raw_data := raw_data raw; annotations := annots |}.

Section Conversion.

Variable py_float : string -> option float.

(** Lines 504-508: the header's record count times the record duration. *)
Definition read_header_duration (file_bytes : list Byte.byte) : result float :=
  let header := firstn 256 file_bytes in
  do records_str <- decode_ascii (slice_bytes 236 244 header);
  do n_records <- or_raise ValueError (py_int (strip records_str));
  do duration_str <- decode_ascii (slice_bytes 244 252 header);
  do record_duration <- or_raise ValueError (py_float (strip duration_str));
  do n <- float_of_Z n_records;
  ret (n * record_duration)%float.

(** The loop over [excel_files] of step 4. *)
Fixpoint load_all_events (reference_time : option float)
  (files : list (string * DataFrame)) (all_events : list Event)
  (excel_event_mapping : list (nat * string))
  : list Event * list (nat * string) :=
  match files with
  | [] => (all_events, excel_event_mapping)
  | (excel_file, df) :: files' =>
      let events := load_excel_events py_float df reference_time in
      let all_events' := (all_events ++ events)%list in
      load_all_events reference_time files' all_events'
        (map_events_to_file excel_file events (List.length all_events')
           excel_event_mapping)
  end.

(** Steps 5 to 7, entered with at least one event. *)
Definition process_events (inp : ConvertInput) (rec : Reconciled)
  (actual_duration : float) (all_events : list Event)
  (excel_event_mapping : list (nat * string)) : result (bool * list Effect) :=
  let sorted := sort_events all_events in
  do st <- classify_events (zero_padding_start rec) actual_duration
             initial_state sorted;
  let annots := make_annotations (onsets st) (durations st) (descriptions st) in
  let raw := set_annotations (repaired rec) annots in
  let excel_status_updates :=
    collect_status_updates sorted excel_event_mapping (event_status st) in
  let written :=
    flat_map (fun entry => update_excel_event_status (fst entry) (snd entry))
             excel_status_updates in
  let correct_filename :=
    match generate_correct_filename (Some (extract_edf_metadata (edf_bytes inp)))
            (edf_name inp) with
    | Some f => if String.eqb f "" then edf_name inp else f
    | None => edf_name inp
    end in
  let '(moved, destination) :=
    match output_file inp with
    | None =>
        let original_stem := stem (edf_name inp) in
        let final_stem := remove_all ".edf" correct_filename in
        let backup_file :=
          path_join (edf_parent inp)
            (original_stem ++ "_backup_" ++ final_stem ++ ".edf") in
        ([MoveFile (path_join (edf_parent inp) (edf_name inp)) backup_file],
         path_join (edf_parent inp) correct_filename)
    | Some out => ([], out)
    end in
  match times_last raw with
  | inr final_duration =>
      ret (true, (written ++ moved ++ [ExportRaw destination raw])%list)
  | inl e => ret (false, (written ++ moved)%list)
  end.

(** The body of the [try]. *)
Definition convert_body (inp : ConvertInput) : result (bool * list Effect) :=
  match excel_files inp with
  | [] => ret (false, [])
  | _ :: _ =>
      do header_duration <- read_header_duration (edf_bytes inp);
      do rec <- reconcile_duration header_duration (mne_raw inp);
      let raw := repaired rec in
      do actual_duration <- times_last raw;
      let reference_time :=
        get_reference_time_from_edf_metadata py_float
          (Some (extract_edf_metadata (edf_bytes inp))) in
      let '(all_events, excel_event_mapping) :=
        load_all_events reference_time (excel_files inp) [] [] in
      match all_events with
      | [] =>
          match output_file inp with
          | Some out =>
              if String.eqb out "" then ret (true, [])
              else ret (true, [ExportRaw out raw])
          | None => ret (true, [])
          end
      | _ :: _ =>
          process_events inp rec actual_duration all_events excel_event_mapping
      end
  end.

(** An exception anywhere in the body is logged and gives [False]; the
    body raises none once its first effect has happened. *)
Definition convert_edf_to_edfplus (inp : ConvertInput) : bool * list Effect :=
  match convert_body inp with
  | inr outcome => outcome
  | inl _ => (false, [])
  end.

End Conversion.

(** ** Reference notions and concrete inputs *)

(** The text of a two-digit field, [n < 100]. *)
Definition digit_char (d : nat) : ascii := ascii_of_nat (48 + d).

Definition two_digits (n : nat) : string :=
  String (digit_char (n / 10)) (String (digit_char (n mod 10)) EmptyString).


Definition all_digits (s : string) : bool :=
  forallb is_digit (list_ascii_of_string s).

Definition digits_value (s : string) : Z :=
  fold_left (fun acc c => (10 * acc + digit_value c)%Z) (list_ascii_of_string s) 0%Z.

(** An instance of [float(str)] on plain decimal text: a sign, digits, and
    at most one point.  With at most fifteen digits both the digits' value
    and the power of ten are exact in binary64, so that one division gives
    the correctly rounded value.  Other text is refused. *)
Definition unsigned_decimal (s : string) : option float :=
  let parse (whole frac : string) :=
    if all_digits whole && all_digits frac
       && (0 <? String.length whole + String.length frac)%nat
       && (String.length whole + String.length frac <=? 15)%nat
    then Some (Z_to_float (digits_value (whole ++ frac))
               / Z_to_float (10 ^ Z.of_nat (String.length frac)))%float
    else None in
  match split_on "." s with
  | [whole] => parse whole EmptyString
  | [whole; frac] => parse whole frac
  | _ => None
  end.

Definition decimal_float (s : string) : option float :=
  match strip s with
  | String "-" t => option_map PrimFloat.opp (unsigned_decimal t)
  | String "+" t => unsigned_decimal t
  | t => unsigned_decimal t
  end.

(** A 256-byte main header from its fields, each left-justified in its
    fixed width. *)
Definition ljust (width : nat) (s : string) : list Byte.byte :=
  firstn width (list_byte_of_string s ++ repeat Byte.x20 width)%list.

Definition make_header (patient date time_of_day n_records record_duration
  n_signals : string) : list Byte.byte :=
  (ljust 8 "0" ++ ljust 80 patient ++ ljust 80 "" ++ ljust 8 date
   ++ ljust 8 time_of_day ++ ljust 8 "512" ++ ljust 44 ""
   ++ ljust 8 n_records ++ ljust 8 record_duration ++ ljust 4 n_signals)%list.

(** A signal header with the given calibration and block size. *)
Definition make_signal (name : string) (pmin pmax : float) (dmin dmax spr : Z)
  : SignalInfo :=
  {| label := name; transducer := ""; units := "uV";
     physical_min := pmin; physical_max := pmax;
     digital_min := dmin; digital_max := dmax;
     prefilter := ""; samples_per_record := spr; signal_reserved := "" |}.

Definition make_container (n_records : Z) (record_duration : float)
  (sigs : list SignalInfo) : Header :=
  {| version := 0%float; patient_id := "5774131"; recording_id := "";
     start_date := "01.07.13"; start_time := "23.59.00";
     header_bytes := (256 + 256 * Z.of_nat (List.length sigs))%Z; reserved := "";
     records := n_records; duration := record_duration;
     nsignals := Z.of_nat (List.length sigs); signals := sigs |}.

(** The 256 bytes of one signal header. *)
Definition make_signal_header (name pmin pmax dmin dmax spr : string)
  : list Byte.byte :=
  (ljust 16 name ++ ljust 16 "" ++ ljust 8 "uV" ++ ljust 8 pmin ++ ljust 8 pmax
   ++ ljust 8 dmin ++ ljust 8 dmax ++ ljust 8 "" ++ ljust 8 spr ++ ljust 168 "")%list.

(** A file of one record and one channel declaring two samples per
    record, which ends after the first sample; and the same file with
    both samples. *)
Definition one_channel_headers : list Byte.byte :=
  (make_header "5774131" "01.07.13" "23.59.00" "1" "1" "1"
   ++ make_signal_header "EEG" "-100" "100" "-100" "100" "2")%list.

Definition truncated_file : list Byte.byte :=
  (one_channel_headers ++ [Byte.x01; Byte.x00])%list.

Definition complete_file : list Byte.byte :=
  (one_channel_headers ++ [Byte.x01; Byte.x00; Byte.xff; Byte.xff])%list.

(** A passthrough channel next to a calibrated one. *)
Definition mixed_header : Header :=
  make_container 1 1%float
    [make_signal "RAW" 0%float 0%float (-100) 100 2;
     make_signal "EEG" (-100)%float 100%float (-100) 100 2].

(** A calibrated channel whose digital range is empty. *)
Definition degenerate_signal : SignalInfo :=
  make_signal "BAD" (-100)%float 100%float 0 0 2.

Definition degenerate_header : Header :=
  make_container 1 1%float
    [make_signal "EEG" (-100)%float 100%float (-100) 100 2; degenerate_signal].

(** A numpy matrix has rows of one length, [shape[1]]. *)
Definition rectangular (raw : Raw) : Prop :=
  Forall (fun row => List.length row = n_times raw) (raw_data raw).

(** A recording of one channel and four samples at 2.25 Hz under a header
    declaring three records of one second: the product of the declared
    duration and the rate is 6.75. *)
Definition short_raw : Raw := RawArray [[1; 2; 3; 4]%float] 2.25%float ["EEG"].
Definition short_header_duration : float := (3 * 1)%float.



(** The events loaded under a known reference time. *)
Definition carries_relative_time (event : Event) : Prop :=
  exists rel, relative_time event = Some rel.

(** What the loop records for an event that carries a relative time: its
    status, and the annotation it contributes, if any. *)
Definition status_of (zero_padding_start : option float) (actual_duration : float)
  (event : Event) : Status :=
  fst (classify zero_padding_start actual_duration (sort_key event)).

Definition emitted (zero_padding_start : option float) (actual_duration : float)
  (event : Event) : list Annotation :=
  match snd (classify zero_padding_start actual_duration (sort_key event)) with
  | Some at_onset =>
      [{| onset := at_onset; annotation_duration := 0%float;
          description := event_type event |}]
  | None => []
  end.

(** The cell writes among the effects of a run. *)
Definition status_writes (effects : list Effect) : list (string * nat * Status) :=
  flat_map (fun effect =>
              match effect with
              | WriteCell excel_file row _ value => [(excel_file, row, value)]
              | _ => []
              end) effects.

(** Spreadsheet rows: an event in columns C and D, or a note in column A. *)
Definition event_row (at_time event_label : string) : list Cell :=
  [None; None; Some at_time; Some event_label].

Definition note_row (note : string) : list Cell := [Some note; None; None; None].

(** Eleven samples at 1 Hz: ten seconds, as its header declares. *)
Definition flat_raw : Raw := RawArray [repeat 0%float 11] 1%float ["EEG"].

Definition ten_second_header : list Byte.byte :=
  make_header "5774131" "01.07.13" "10.00.00" "10" "1" "1".

(** Two spreadsheets for one recording starting at 10:00:00: the first
    file holds an event 30 s in, the second one an event 1 s in, on its
    fourth row. *)
Definition sheet_a : DataFrame := [event_row "10:00:30" "Seizure"].

Definition sheet_b : DataFrame :=
  [note_row "night"; note_row "ward"; note_row "B"; event_row "10:00:01" "Sleep"].

Definition two_file_input : ConvertInput :=
  {| edf_parent := "data";
     edf_name := "5774131_20130701_1000.edf";
     edf_bytes := ten_second_header;
     excel_files := [("data/5774131_20130701_1000_a.xlsx", sheet_a);
                     ("data/5774131_20130701_1000_b.xlsx", sheet_b)];
     mne_raw := flat_raw;
     output_file := None |}.

(** The same recording with no spreadsheet found, and with a spreadsheet
    that holds notes only. *)
Definition no_excel_input : ConvertInput :=
  {| edf_parent := "data";
     edf_name := "5774131_20130701_1000.edf";
     edf_bytes := ten_second_header;
     excel_files := [];
     mne_raw := flat_raw;
     output_file := Some "out.edf" |}.

Definition notes_only_input (out : option string) : ConvertInput :=
  {| edf_parent := "data";
     edf_name := "5774131_20130701_1000.edf";
     edf_bytes := ten_second_header;
     excel_files := [("data/5774131_20130701_1000.xlsx", [note_row "quiet night"])];
     mne_raw := flat_raw;
     output_file := out |}.

(** The reference time the conversion computes from the file's header. *)
Definition reference_time_of (py_float : string -> option float)
  (inp : ConvertInput) : option float :=
  get_reference_time_from_edf_metadata py_float
    (Some (extract_edf_metadata (edf_bytes inp))).

(** A container without events as the specification words it: when no
    event row matches, the conversion reports success and the container
    is emitted again, unchanged. *)
Definition no_matching_events_is_success : Prop :=
  forall (py_float : string -> option float) (inp : ConvertInput),
    fst (load_all_events py_float (reference_time_of py_float inp)
           (excel_files inp) [] []) = [] ->
    fst (convert_edf_to_edfplus py_float inp) = true
    /\ exists out,
         In (ExportRaw out (mne_raw inp))
            (snd (convert_edf_to_edfplus py_float inp)).

(** The update that position [i] of the sorted events should give: the
    row index of the event with the status computed for it; and the
    dictionary of updates when they all go to one file. *)
Definition update_of (entry : Event * Status) : StatusUpdate :=
  {| update_row_index := row_index (fst entry); update_status := snd entry |}.

Definition file_updates (excel_file : string) (updates : list StatusUpdate)
  : list (string * list StatusUpdate) :=
  match updates with
  | [] => []
  | _ :: _ => [(excel_file, updates)]
  end.

(** ** The order of binary64 values

    A value that is not a NaN is ranked by a triple of integers compared
    lexicographically: the class (infinite, finite or zero, with its
    sign), then exponent and mantissa, both negated below zero. *)
Definition SFrank (x : spec_float) : option (Z * Z * Z) :=
  match x with
  | S754_nan => None
  | S754_zero _ => Some (0, 0, 0)%Z
  | S754_infinity s => Some (if s then (-2)%Z else 2%Z, 0%Z, 0%Z)
  | S754_finite s m e =>
      Some (if s then ((-1)%Z, (- e)%Z, Zneg m) else (1%Z, e, Zpos m))
  end.

Definition lex3 (a b : Z * Z * Z) : comparison :=
  let '(a1, a2, a3) := a in
  let '(b1, b2, b3) := b in
  match (a1 ?= b1)%Z with
  | Eq => match (a2 ?= b2)%Z with
          | Eq => (a3 ?= b3)%Z
          | c => c
          end
  | c => c
  end.

Definition lex3_le (a b : Z * Z * Z) : Prop :=
  let '(a1, a2, a3) := a in
  let '(b1, b2, b3) := b in
  (a1 < b1 \/ (a1 = b1 /\ (a2 < b2 \/ (a2 = b2 /\ a3 <= b3))))%Z.

Definition lex3_lt (a b : Z * Z * Z) : Prop :=
  let '(a1, a2, a3) := a in
  let '(b1, b2, b3) := b in
  (a1 < b1 \/ (a1 = b1 /\ (a2 < b2 \/ (a2 = b2 /\ a3 < b3))))%Z.

Definition rank (x : float) : option (Z * Z * Z) := SFrank (Prim2SF x).

(** A float that is a number, not a NaN: it compares equal to itself. *)
Definition is_number (x : float) : Prop := (x <=? x)%float = true.

(** What the loop may emit: a point event inside the recording and, when
    the data were padded, before the padding. *)
Definition inside_recording (zero_padding_start : option float)
  (actual_duration : float) (a : Annotation) : Prop :=
  (0 <=? onset a)%float = true
  /\ (onset a <=? actual_duration)%float = true
  /\ annotation_duration a = 0%float
  /\ forall start, zero_padding_start = Some start ->
                   (start <=? onset a)%float = false.

(** Annotations in ascending order of onset. *)
Definition onset_le (a b : Annotation) : Prop :=
  (onset a <=? onset b)%float = true.

(** Three events loaded without a reference time, 0 s, 15 s and 95 s
    after the first. *)
Definition unanchored_events : list Event :=
  [{| time := "10:00:05"; time_seconds := 36005%float; relative_time := None;
      event_type := "Onset"; row_index := 0 |};
   {| time := "10:00:20"; time_seconds := 36020%float; relative_time := None;
      event_type := "Spike"; row_index := 1 |};
   {| time := "10:01:40"; time_seconds := 36100%float; relative_time := None;
      event_type := "End"; row_index := 2 |}].

(** The order of events by sort key, and events whose key is a number. *)
Definition key_le (a b : Event) : Prop :=
  (sort_key a <=? sort_key b)%float = true.

Definition key_is_number (event : Event) : Prop := is_number (sort_key event).

(** Two events with relative times, the later one first. *)
Definition anchored_events : list Event :=
  [{| time := "10:00:30"; time_seconds := 36030%float;
      relative_time := Some 30%float; event_type := "Seizure"; row_index := 0 |};
   {| time := "10:00:01"; time_seconds := 36001%float;
      relative_time := Some 1%float; event_type := "Sleep"; row_index := 3 |}].

(** The test a spreadsheet row passes to become an event, and the event
    it becomes. *)
Definition retained_row (row : list Cell) : bool :=
  match nth_error row 2, nth_error row 3 with
  | Some c2, Some c3 =>
      contains_char ":" (strip (str_cell c2)) && valid_event (strip (str_cell c3))
  | _, _ => false
  end.

Definition event_of_row (py_float : string -> option float)
  (reference_time : option float) (entry : nat * list Cell) : Event :=
  let time_str := strip (str_cell (nth 2 (snd entry) None)) in
  {| time := time_str;
     time_seconds := parse_time_to_seconds py_float time_str;
     relative_time :=
       option_map (fun r => (parse_time_to_seconds py_float time_str - r)%float)
                  reference_time;
     event_type := strip (str_cell (nth 3 (snd entry) None));
     row_index := fst entry |}.

(** ** File discovery: [find_matching_excel_files] *)

(** Exactly [n] digits at the front of [s], and what follows them. *)
Fixpoint take_digits (n : nat) (s : string) : option (string * string) :=
  match n with
  | O => Some (EmptyString, s)
  | S k =>
      match s with
      | String c s' =>
          if is_digit c then
            match take_digits k s' with
            | Some (digits, rest) => Some (String c digits, rest)
            | None => None
            end
          else None
      | EmptyString => None
      end
  end.

(** [r'(\d+_\d{8}_\d{4})'] matched at the front of [s].  The run of digits
    is taken whole: after a shorter run the next character is a digit,
    where the pattern wants an underscore. *)
Definition match_patient_date_time (s : string) : option string :=
  match span_digits s with
  | (String c run, String "_" after_id) =>
      match take_digits 8 after_id with
      | Some (date, String "_" after_date) =>
          match take_digits 4 after_date with
          | Some (time_of_day, _) =>
              Some (String c run ++ "_" ++ date ++ "_" ++ time_of_day)
          | None => None
          end
      | _ => None
      end
  | _ => None
  end.

(** [re.search]: the leftmost position where the pattern matches. *)
Fixpoint search_patient_date_time (s : string) : option string :=
  match match_patient_date_time s with
  | Some found => Some found
  | None =>
      match s with
      | String _ s' => search_patient_date_time s'
      | EmptyString => None
      end
  end.

Section Discovery.

(** [glob.glob]: the paths that match a pattern, as the file system has
    them. *)
Variable glob : string -> list string.

(** [edf_dir] is [Path(edf_file).parent] and [edf_name] the stem of the
    file. *)
Definition find_matching_excel_files (edf_dir edf_name : string) : list string :=
  match search_patient_date_time edf_name with
  | None => []
  | Some full_pattern => glob (edf_dir ++ "/*" ++ full_pattern ++ "*.xlsx")
  end.

End Discovery.

(** A header with no patient, for a file named after its patient. *)
Definition anonymous_metadata : Metadata :=
  extract_edf_metadata (make_header "No Database Record" "01.07.13" "23.59.00" "10" "1" "1").

(** ** Undoing a conversion: [rollback_edf_files] of [rollback.py] *)

(** [pat in s] *)
Fixpoint occurs (pat s : string) : bool :=
  prefix pat s
  || match s with
     | String _ s' => occurs pat s'
     | EmptyString => false
     end.

(** [s.split(sep)] for a non-empty [sep] of any length: the piece in
    progress and the pieces after it.  [skip] counts the characters of a
    separator still to pass. *)
Fixpoint split_str_from (sep : string) (skip : nat) (s : string)
  : string * list string :=
  match s with
  | EmptyString => (EmptyString, [])
  | String c s' =>
      match skip with
      | S k => split_str_from sep k s'
      | O =>
          if prefix sep s then
            (EmptyString,
             let (piece, pieces) := split_str_from sep (String.length sep - 1) s' in
             piece :: pieces)
          else
            let (piece, pieces) := split_str_from sep 0 s' in
            (String c piece, pieces)
      end
  end.

Definition str_split (sep s : string) : list string :=
  let (piece, pieces) := split_str_from sep 0 s in piece :: pieces.

(** The names a backup stands for: the original file, and the EDF+ file
    written in its place when the backup name carries it. *)
Definition rollback_names (backup_name : string) : string * option string :=
  let backup_stem := stem backup_name in
  if occurs "_backup_" backup_stem then
    let parts := str_split "_backup_" backup_stem in
    (nth 0 parts "" ++ ".edf", Some (nth 1 parts "" ++ ".edf"))
  else (remove_all "_backup" backup_stem ++ ".edf", None).

Inductive RollbackEffect : Type :=
| RestoreFile (backup original : string)
| RemoveFile (edfplus : string).

Record RollbackSummary : Type := {
  restored_count : nat;
  removed_edfplus_count : nat;
  rollback_effects : list RollbackEffect
}.

Section Rollback.

(** [Path.exists], asked after the backup has been moved back. *)
Variable path_exists : list RollbackEffect -> string -> bool.

(** The body of the loop over the backup files, each given by the
    directory and the name of its path; moving and removing are taken to
    succeed. *)
Definition rollback_one (summary : RollbackSummary) (backup : string * string)
  : RollbackSummary :=
  let '(parent, backup_name) := backup in
  let '(original_name, final_name) := rollback_names backup_name in
  let restore :=
    RestoreFile (path_join parent backup_name) (path_join parent original_name) in
  let done := (rollback_effects summary ++ [restore])%list in
  match final_name with
  | Some name =>
      if path_exists done (path_join parent name) then
        {| restored_count := restored_count summary + 1;
           removed_edfplus_count := removed_edfplus_count summary + 1;
           rollback_effects := (done ++ [RemoveFile (path_join parent name)])%list |}
      else
        {| restored_count := restored_count summary + 1;
           removed_edfplus_count := removed_edfplus_count summary;
           rollback_effects := done |}
  | None =>
      {| restored_count := restored_count summary + 1;
         removed_edfplus_count := removed_edfplus_count summary;
         rollback_effects := done |}
  end.

Definition rollback_edf_files (backup_files : list (string * string))
  : RollbackSummary :=
  fold_left rollback_one backup_files
    {| restored_count := 0; removed_edfplus_count := 0; rollback_effects := [] |}.

End Rollback.

(** The separator [sep] does not begin at any position of [a] in
    [a ++ tail]. *)
Fixpoint separator_not_met (sep a tail : string) : bool :=
  match a with
  | EmptyString => true
  | String _ a' => negb (prefix sep (a ++ tail)) && separator_not_met sep a' tail
  end.

(** Effects that are cell writes. *)
Definition is_write (effect : Effect) : Prop :=
  exists excel_file row column value, effect = WriteCell excel_file row column value.

(** A file system on which a file that was just moved into place exists. *)
Definition sees_restored (path_exists : list RollbackEffect -> string -> bool)
  : Prop :=
  forall done backup original,
    path_exists (done ++ [RestoreFile backup original])%list original = true.

(** ** The batch driver: [process_all_edf_files] *)

(** ["_backup" not in f.name and "_with_events" not in f.name] *)
Definition is_candidate (name : string) : bool :=
  negb (occurs "_backup" name) && negb (occurs "_with_events" name).


Section Batch.

Variable py_float : string -> option float.



End Batch.

(** A recording whose name is already the canonical one, with an event in
    range. *)
Definition canonical_input : ConvertInput :=
  {| edf_parent := "data";
     edf_name := "5774131_20130701_1000.edf";
     edf_bytes := ten_second_header;
     excel_files := [("data/5774131_20130701_1000.xlsx",
                      [event_row "10:00:01" "Sleep"])];
     mne_raw := flat_raw;
     output_file := None |}.

(** A file system that holds what was just restored and nothing else. *)
Definition only_restored (done : list RollbackEffect) (path : string) : bool :=
  match last done (RemoveFile "") with
  | RestoreFile _ original => String.eqb original path
  | RemoveFile _ => false
  end.

(** ** Reference notions for the data loop of the decoder *)

Definition block_size (signal : SignalInfo) : nat :=
  Z.to_nat (samples_per_record signal).

(** Samples that one data record holds, over all channels. *)
Definition record_samples (header : Header) : nat :=
  list_sum (map block_size (signals header)).

(** Samples that precede, in the file, the block of channel [sig] in
    record [rec]. *)
Definition block_offset (header : Header) (rec sig : nat) : nat :=
  (rec * record_samples header
   + list_sum (map block_size (firstn sig (signals header))))%nat.

(** The little-endian 16-bit integer of sample [k] of that block. *)
Definition sample_at (header : Header) (body : list Byte.byte)
  (rec sig k : nat) : Z :=
  let off := (2 * (block_offset header rec sig + k))%nat in
  int16_le (nth off body Byte.x00) (nth (S off) body Byte.x00).

(** The header counts its signal headers, and no count is negative. *)
Definition well_formed (header : Header) : Prop :=
  nsignals header = Z.of_nat (List.length (signals header))
  /\ (0 <= records header)%Z
  /\ Forall (fun signal => (0 <= samples_per_record signal)%Z) (signals header).

(** The width of the grid: the longest channel. *)
Definition max_samples (header : Header) : Z :=
  list_max (map (fun signal => (records header * samples_per_record signal)%Z)
                (signals header)).

Definition grid_width (header : Header) : nat := Z.to_nat (max_samples header).

(** For every channel, the blocks read so far: those of the records
    before [rec], and of record [rec] for the channels before [sig]. *)
Definition blocks_read (rec sig channel : nat) : nat :=
  if (channel <? sig)%nat then S rec else rec.

(** The state of the data loop on entering the block of channel [sig] in
    record [rec]. *)
Record decoded_up_to (header : Header) (body : list Byte.byte)
  (rec sig : nat) (st : ReadState) : Prop := {
  decoded_fits : (2 * block_offset header rec sig <= List.length body)%nat;
  decoded_stream : stream st = skipn (2 * block_offset header rec sig) body;
  decoded_warnings : warnings st = [];
  decoded_rows : List.length (data st) = List.length (signals header);
  decoded_width :
    Forall (fun row => List.length row = grid_width header) (data st);
  decoded_samples :
    forall channel signal r k,
      nth_error (signals header) channel = Some signal ->
      (r < blocks_read rec sig channel)%nat ->
      (k < block_size signal)%nat ->
      nth (r * block_size signal + k) (nth channel (data st) []) 0%Z
      = sample_at header body r channel k;
  decoded_padding :
    forall channel signal idx,
      nth_error (signals header) channel = Some signal ->
      (blocks_read rec sig channel * block_size signal <= idx)%nat ->
      nth idx (nth channel (data st) []) 0%Z = 0%Z
}.

(** A header of two channels sampled at different rates, and two data
    records for it. *)
Definition two_rate_header : Header :=
  make_container 2 1%float
    [make_signal "EEG" (-100)%float 100%float (-100) 100 2;
     make_signal "RESP" (-100)%float 100%float (-100) 100 1].

Definition two_rate_body : list Byte.byte :=
  [Byte.x01; Byte.x00; Byte.x02; Byte.x00; Byte.x03; Byte.x00;
   Byte.x04; Byte.x00; Byte.xff; Byte.xff; Byte.x06; Byte.x00].

(** * Relative times of the spreadsheets: [relative.py] *)

(** [re.match(time_pattern, s)]: the three groups of a match at the start
    of [s], which are one or two digits, two digits, and two digits with
    an optional point and any further digits, with colons in between.  The
    hours take two digits when a colon follows them, and else one digit
    followed by a colon. *)
Definition match_clock_time (s : string) : option (string * string * string) :=
  let after_hours :=
    match take_digits 2 s with
    | Some (hours, String ":" rest) => Some (hours, rest)
    | _ =>
        match take_digits 1 s with
        | Some (hours, String ":" rest) => Some (hours, rest)
        | _ => None
        end
    end in
  match after_hours with
  | Some (hours, rest) =>
      match take_digits 2 rest with
      | Some (minutes, String ":" after_minutes) =>
          match take_digits 2 after_minutes with
          | Some (whole, tail) =>
              let (point, after_point) :=
                match tail with
                | String "." t => (".", t)
                | _ => (EmptyString, tail)
                end in
              Some (hours, minutes, whole ++ point ++ fst (span_digits after_point))
          | None => None
          end
      | _ => None
      end
  | None => None
  end.

Section RelativeTime.

(** Python's [float(str)]; [None] stands for its [ValueError]. *)
Variable py_float : string -> option float.

(** [time_to_seconds] of [relative.py].  The integer [0] it returns for an
    empty or unrecognised cell stands here as the float zero, which it
    becomes in the subtraction of the start time that follows. *)
Definition time_to_seconds (time_str : Cell) : result float :=
  match time_str with
  | None => ret 0%float
  | Some text =>
      if String.eqb text "" then ret 0%float
      else
        match match_clock_time (strip text) with
        | Some (group1, group2, group3) =>
            do hours <- or_raise ValueError (py_int group1);
            do minutes <- or_raise ValueError (py_int group2);
            do seconds <- or_raise ValueError (py_float group3);
            do whole <- float_of_Z (hours * 3600 + minutes * 60);
            ret (whole + seconds)%float
        | None => ret 0%float
        end
  end.

End RelativeTime.

(** A time of day written HH:MM:SS, the seconds with or without decimals. *)
Definition clock_text (h m : nat) (seconds : string) : string :=
  two_digits h ++ String ":" (two_digits m ++ String ":" seconds).

Definition clock_tail (tail : string) : bool :=
  match tail with
  | EmptyString => true
  | String "." fraction => all_digits fraction
  | _ => false
  end.

(** ** Reference notions for the physical scaling *)

(** The calibration of a channel, as the loop computes it. *)
Definition scale_of (signal : SignalInfo) : float :=
  ((physical_max signal - physical_min signal)
   / Z_to_float (digital_max signal - digital_min signal))%float.

Definition offset_of (signal : SignalInfo) : float :=
  (physical_min signal - scale_of signal * Z_to_float (digital_min signal))%float.

(** What a channel's row of floats becomes. *)
Definition scaled_row (signal : SignalInfo) (row : list float) : list float :=
  if float_ne (physical_max signal) (physical_min signal)
  then map (fun x => x * scale_of signal + offset_of signal)%float row
  else row.

(** A channel stored on half its physical range. *)
Definition calibrated_signal : SignalInfo :=
  make_signal "EEG" (-200)%float 200%float (-100) 100 2.

Definition calibrated_header : Header :=
  make_container 1 1%float
    [make_signal "RAW" 0%float 0%float (-100) 100 2; calibrated_signal].

(** A night whose recording was padded from second 50 on, with events
    before the padding, inside it, before the start and after the end. *)
Definition night_event (at_time : string) (absolute offset : float)
  (name : string) (row : nat) : Event :=
  {| time := at_time; time_seconds := absolute; relative_time := Some offset;
     event_type := name; row_index := row |}.

Definition padded_night : list Event :=
  [night_event "10:00:10" 36010%float 10%float "Arousal" 0;
   night_event "10:00:55" 36055%float 55%float "Apnea" 1;
   night_event "09:59:55" 35995%float (-5)%float "Lights off" 2;
   night_event "10:01:10" 36070%float 70%float "Lights on" 3].
(** A channel that the loop scales and whose digital range is empty. *)
Definition degenerate (signal : SignalInfo) : bool :=
  float_ne (physical_max signal) (physical_min signal)
  && (digital_max signal =? digital_min signal)%Z.

(** The sampling rate that [create_mne_raw_from_edf_data] first computes. *)
Definition sampling_rate (edf_header : Header) : result float :=
  do first <- lookup (signals edf_header) 0;
  do spr <- float_of_Z (samples_per_record first);
  py_truediv spr (duration edf_header).

(** An explicit error for degenerate calibration as the specification
    words it: an error of its own kind, which the function raises for no
    other reason than such a channel; and the claim that the function
    raises one whenever the header holds such a channel. *)
Definition announces_degenerate_calibration (e : exn) : Prop :=
  forall (edf_header : Header) (edf_data : list (list Z)),
    create_mne_raw_from_edf_data edf_header edf_data = inl e ->
    existsb degenerate (signals edf_header) = true.

Definition degenerate_calibration_is_explicit : Prop :=
  forall (edf_header : Header) (edf_data : list (list Z)),
    existsb degenerate (signals edf_header) = true ->
    exists e,
      create_mne_raw_from_edf_data edf_header edf_data = inl e
      /\ announces_degenerate_calibration e.

(** A well-calibrated channel under a header whose record duration is
    zero. *)
Definition zero_duration_header : Header :=
  make_container 1 0%float
    [make_signal "EEG" (-100)%float 100%float (-100) 100 2].
(** A frame as pandas builds it has all its rows of one width, a short
    row of the sheet being filled with NaN: the lists of rows that stand
    for a frame are those of one width. *)
Definition frame_width (df : DataFrame) (width : nat) : Prop :=
  Forall (fun row => List.length row = width) df.

(** A sheet of three columns: no column D. *)
Definition three_column_sheet : DataFrame :=
  [[Some "night"; None; Some "10:00:01"];
   [None; None; Some "10:00:30"]].
(** ** The conversion when the outside can refuse

    [convert_edf_to_edfplus] above is the run in which the reader loads
    the recording and every workbook, renaming and export goes through.
    Here each of them can fail, as it does on a real file system: a
    failing reader, renaming or export raises inside the [try] and gives
    [False], and what was done before it stays done. *)

(** What the outside answers in one run. *)
Record Outside : Type := {
  reader_loads : bool;                       (* [mne.io.read_raw_edf] returns *)
  workbook_saves : string -> bool;           (* openpyxl loads and saves it *)
  move_succeeds : string -> string -> bool;  (* [shutil.move(source, destination)] *)
  export_succeeds : string -> Raw -> bool    (* [mne.export.export_raw] *)
}.

Definition obliging : Outside :=
  {| reader_loads := true;
     workbook_saves := fun _ => true;
     move_succeeds := fun _ _ => true;
     export_succeeds := fun _ _ => true |}.

(** [parent / name] of pathlib: an absolute [name] stands for itself. *)
Definition pathlib_join (parent name : string) : string :=
  if prefix "/" name then name else path_join parent name.

(** The name chosen in step 7: the canonical one, or the file's own when
    none could be derived. *)
Definition correct_filename_of (inp : ConvertInput) : string :=
  match generate_correct_filename (Some (extract_edf_metadata (edf_bytes inp)))
          (edf_name inp) with
  | Some f => if String.eqb f "" then edf_name inp else f
  | None => edf_name inp
  end.

(** [f"{original_stem}_backup_{final_stem}.edf"] *)
Definition backup_name_of (inp : ConvertInput) : string :=
  stem (edf_name inp) ++ "_backup_"
  ++ remove_all ".edf" (correct_filename_of inp) ++ ".edf".

(** [update_excel_event_status] catches what its workbook raises: the
    statuses of a workbook that cannot be loaded or saved are lost, and
    the run goes on. *)
Definition update_excel_event_status_on (world : Outside) (excel_file : string)
  (event_status_info : list StatusUpdate) : list Effect :=
  if workbook_saves world excel_file
  then update_excel_event_status excel_file event_status_info
  else [].

(** Lines 716-721: the last sample is looked up, then the export is tried;
    [done] holds what the run has done so far. *)
Definition export_on (world : Outside) (done : list Effect) (destination : string)
  (raw : Raw) : bool * list Effect :=
  match times_last raw with
  | inr final_duration =>
      if export_succeeds world destination raw
      then (true, (done ++ [ExportRaw destination raw])%list)
      else (false, done)
  | inl e => (false, done)
  end.

Section ConversionOutside.

Variable world : Outside.
Variable py_float : string -> option float.

(** Step 2 up to [actual_duration]: the header's duration, and the
    recording that the reader loaded, repaired, with its duration. *)
Definition load_recording (inp : ConvertInput) : result (Reconciled * float) :=
  do header_duration <- read_header_duration py_float (edf_bytes inp);
  do rec <- reconcile_duration header_duration (mne_raw inp);
  do actual_duration <- times_last (repaired rec);
  ret (rec, actual_duration).

(** Steps 5 to 7, entered with at least one event. *)
Definition process_events_on (inp : ConvertInput) (rec : Reconciled)
  (actual_duration : float) (all_events : list Event)
  (excel_event_mapping : list (nat * string)) : bool * list Effect :=
  let sorted := sort_events all_events in
  match classify_events (zero_padding_start rec) actual_duration
          initial_state sorted with
  | inl e => (false, [])
  | inr st =>
      let annots :=
        make_annotations (onsets st) (durations st) (descriptions st) in
      let raw := set_annotations (repaired rec) annots in
      let excel_status_updates :=
        collect_status_updates sorted excel_event_mapping (event_status st) in
      let written :=
        flat_map (fun entry =>
                    update_excel_event_status_on world (fst entry) (snd entry))
                 excel_status_updates in
      match output_file inp with
      | None =>
          let source := path_join (edf_parent inp) (edf_name inp) in
          let backup_file := pathlib_join (edf_parent inp) (backup_name_of inp) in
          if move_succeeds world source backup_file then
            export_on world (written ++ [MoveFile source backup_file])%list
              (pathlib_join (edf_parent inp) (correct_filename_of inp)) raw
          else (false, written)
      | Some destination => export_on world written destination raw
      end
  end.

(** [convert_edf_to_edfplus]: the value returned, and what was done.  The
    reader is called between the parsing of the header and the repair;
    whether it returns is asked first here, which changes no outcome,
    as a failure of either gives [False] before anything is done. *)
Definition convert_edf_to_edfplus_on (inp : ConvertInput) : bool * list Effect :=
  match excel_files inp with
  | [] => (false, [])
  | _ :: _ =>
      if reader_loads world then
        match load_recording inp with
        | inl e => (false, [])
        | inr (rec, actual_duration) =>
            let raw := repaired rec in
            let reference_time :=
              get_reference_time_from_edf_metadata py_float
                (Some (extract_edf_metadata (edf_bytes inp))) in
            let '(all_events, excel_event_mapping) :=
              load_all_events py_float reference_time (excel_files inp) [] [] in
            match all_events with
            | [] =>
                match output_file inp with
                | Some destination =>
                    if String.eqb destination "" then (true, [])
                    else if export_succeeds world destination raw
                         then (true, [ExportRaw destination raw])
                         else (false, [])
                | None => (true, [])
                end
            | _ :: _ =>
                process_events_on inp rec actual_duration all_events
                  excel_event_mapping
            end
        end
      else (false, [])
  end.

End ConversionOutside.

(** An outside that refuses every export, and one that refuses every
    renaming. *)
Definition no_export : Outside :=
  {| reader_loads := true;
     workbook_saves := fun _ => true;
     move_succeeds := fun _ _ => true;
     export_succeeds := fun _ _ => false |}.

Definition no_move : Outside :=
  {| reader_loads := true;
     workbook_saves := fun _ => true;
     move_succeeds := fun _ _ => false;
     export_succeeds := fun _ _ => true |}.

(** The recording of [notes_only_input] under a header whose record
    count is blank. *)
Definition blank_count_input : ConvertInput :=
  {| edf_parent := "data";
     edf_name := "5774131_20130701_1000.edf";
     edf_bytes := make_header "5774131" "01.07.13" "10.00.00" "" "1" "1";
     excel_files := [("data/5774131_20130701_1000.xlsx", [note_row "quiet night"])];
     mne_raw := flat_raw;
     output_file := Some "out.edf" |}.

(** * Properties *)

(** ** Generic facts *)

Lemma bind_inr {A B} (m : result A) (k : A -> result B) (b : B) :
  bind m k = inr b -> exists a, m = inr a /\ k a = inr b.
Proof.
  destruct m as [e | a]; simpl; intros H; [discriminate | eauto].
Qed.

Lemma below_100 (P : nat -> bool) :
  forallb P (seq 0 100) = true -> forall n, (n < 100)%nat -> P n = true.
Proof.
  intros H n Hn. rewrite forallb_forall in H. apply H, in_seq. lia.
Qed.

(** ** Splitting *)

Lemma split_on_absent (sep : ascii) (s : string) :
  contains_char sep s = false -> split_on sep s = [s].
Proof.
  induction s as [| c s IH]; simpl; [reflexivity |].
  intros H. apply orb_false_iff in H as [Hc Hs].
  rewrite Hc, (IH Hs). reflexivity.
Qed.

Lemma split_on_first (sep : ascii) (a b : string) :
  contains_char sep a = false ->
  split_on sep (a ++ String sep b) = a :: split_on sep b.
Proof.
  induction a as [| c a IH]; simpl.
  - intros _. rewrite Ascii.eqb_refl. reflexivity.
  - intros H. apply orb_false_iff in H as [Hc Ha].
    rewrite Hc, (IH Ha). reflexivity.
Qed.

Lemma split_three_fields (sep : ascii) (a b c : string) :
  contains_char sep a = false ->
  contains_char sep b = false ->
  contains_char sep c = false ->
  split_on sep (a ++ String sep (b ++ String sep c)) = [a; b; c].
Proof.
  intros Ha Hb Hc.
  rewrite (split_on_first _ _ _ Ha), (split_on_first _ _ _ Hb),
    (split_on_absent _ _ Hc).
  reflexivity.
Qed.

(** ** Two-digit fields *)

Lemma two_digits_no_dot (n : nat) :
  (n < 100)%nat -> contains_char "." (two_digits n) = false.
Proof.
  intros Hn.
  apply (below_100 (fun k => negb (contains_char "." (two_digits k)))) in Hn;
    [ now apply negb_true_iff in Hn | vm_compute; reflexivity ].
Qed.

Lemma py_int_two_digits (n : nat) :
  (n < 100)%nat -> py_int (two_digits n) = Some (Z.of_nat n).
Proof.
  intros Hn.
  apply (below_100
           (fun k => match py_int (two_digits k) with
                     | Some z => Z.eqb z (Z.of_nat k)
                     | None => false
                     end)) in Hn; [| vm_compute; reflexivity].
  destruct (py_int (two_digits n)) as [z |]; [| discriminate].
  apply Z.eqb_eq in Hn. now subst.
Qed.

Lemma format_two_digits (n : nat) :
  (n < 100)%nat -> format_0d 2 (Z.of_nat n) = two_digits n.
Proof.
  intros Hn.
  apply (below_100
           (fun k => String.eqb (format_0d 2 (Z.of_nat k)) (two_digits k))) in Hn;
    [ now apply String.eqb_eq in Hn | vm_compute; reflexivity ].
Qed.

Lemma format_year_2000 (n : nat) :
  (n < 100)%nat -> format_0d 4 (2000 + Z.of_nat n) = "20" ++ two_digits n.
Proof.
  intros Hn.
  apply (below_100
           (fun k => String.eqb (format_0d 4 (2000 + Z.of_nat k))
                       ("20" ++ two_digits k))) in Hn;
    [ now apply String.eqb_eq in Hn | vm_compute; reflexivity ].
Qed.

Lemma format_year_1900 (n : nat) :
  (n < 100)%nat -> format_0d 4 (1900 + Z.of_nat n) = "19" ++ two_digits n.
Proof.
  intros Hn.
  apply (below_100
           (fun k => String.eqb (format_0d 4 (1900 + Z.of_nat k))
                       ("19" ++ two_digits k))) in Hn;
    [ now apply String.eqb_eq in Hn | vm_compute; reflexivity ].
Qed.

Lemma string_app_assoc (a b c : string) : (a ++ b) ++ c = a ++ (b ++ c).
Proof.
  induction a as [| x a IH]; simpl; [reflexivity | now rewrite IH].
Qed.

(** The date and time conversion on well-formed fields. *)
Lemma convert_edf_date_time_fields (dd mm yy hh mi ss : nat) :
  (dd < 100)%nat -> (mm < 100)%nat -> (yy < 100)%nat ->
  (hh < 100)%nat -> (mi < 100)%nat -> (ss < 100)%nat ->
  convert_edf_date_time
    (two_digits dd ++ "." ++ two_digits mm ++ "." ++ two_digits yy)
    (two_digits hh ++ "." ++ two_digits mi ++ "." ++ two_digits ss)
  = Some (((if (yy <? 50)%nat then "20" else "19") ++ two_digits yy
           ++ two_digits mm ++ two_digits dd)
          ++ "_" ++ two_digits hh ++ two_digits mi).
Proof.
  intros Hdd Hmm Hyy Hhh Hmi Hss.
  unfold convert_edf_date_time.
  change (?a ++ "." ++ ?b ++ "." ++ ?c)
    with (a ++ String "." (b ++ String "." c)).
  rewrite !split_three_fields by (now apply two_digits_no_dot).
  rewrite !py_int_two_digits by assumption. cbn [obind].
  rewrite !format_two_digits by assumption.
  destruct (Nat.ltb_spec yy 50) as [Hlt | Hge].
  - replace (Z.of_nat yy <? 50)%Z with true by (symmetry; apply Z.ltb_lt; lia).
    cbv iota. rewrite format_year_2000 by assumption.
    now rewrite !string_app_assoc.
  - replace (Z.of_nat yy <? 50)%Z with false by (symmetry; apply Z.ltb_ge; lia).
    cbv iota. rewrite format_year_1900 by assumption.
    now rewrite !string_app_assoc.
Qed.

(** C8.  When the start date reads DD.MM.YY and the start time HH.MM.SS,
    [generate_correct_filename] returns the patient id, the eight-digit
    date [YYYYMMDD] whose century is 20 for a year below 50 and 19
    otherwise, and the four-digit time [HHMM] (seconds dropped), joined by
    underscores and followed by [.edf].  For date 01.07.13, time 23.59.00
    and patient id 5774131 the name is 5774131_20130701_2359.edf. *)
Theorem generate_correct_filename_canonical
  (md : Metadata) (basename pid : string) (dd mm yy hh mi ss : nat) :
  (dd < 100)%nat -> (mm < 100)%nat -> (yy < 100)%nat ->
  (hh < 100)%nat -> (mi < 100)%nat -> (ss < 100)%nat ->
  resolve_patient_id md basename = Some pid ->
  md_start_date md = two_digits dd ++ "." ++ two_digits mm ++ "." ++ two_digits yy ->
  md_start_time md = two_digits hh ++ "." ++ two_digits mi ++ "." ++ two_digits ss ->
  let date_token :=
    (if (yy <? 50)%nat then "20" else "19") ++ two_digits yy
    ++ two_digits mm ++ two_digits dd in
  let time_token := two_digits hh ++ two_digits mi in
  generate_correct_filename (Some md) basename
    = Some (pid ++ "_" ++ date_token ++ "_" ++ time_token ++ ".edf")
  /\ String.length date_token = 8%nat
  /\ String.length time_token = 4%nat
  /\ generate_correct_filename
       (Some (extract_edf_metadata
                (make_header "5774131" "01.07.13" "23.59.00" "10" "1" "1")))
       "recording.edf"
     = Some "5774131_20130701_2359.edf".
Proof.
  intros Hdd Hmm Hyy Hhh Hmi Hss Hpid Hdate Htime date_token time_token.
  split; [| split; [| split]].
  - unfold generate_correct_filename. cbn [obind].
    rewrite Hpid. cbn [obind].
    rewrite Hdate, Htime, convert_edf_date_time_fields by assumption.
    cbn [obind]. fold date_token. fold time_token.
    destruct (String.eqb_spec (date_token ++ "_" ++ time_token) "") as [E |].
    + destruct (yy <? 50)%nat; discriminate E.
    + now rewrite !string_app_assoc.
  - subst date_token. destruct (yy <? 50)%nat; reflexivity.
  - reflexivity.
  - vm_compute. reflexivity.
Qed.

Lemma generate_correct_filename_canonical_witness :
  generate_correct_filename
    (Some (extract_edf_metadata
             (make_header "5774131" "01.07.13" "23.59.00" "10" "1" "1")))
    "recording.edf"
  = Some ("5774131" ++ "_" ++ ("20" ++ two_digits 13 ++ two_digits 7 ++ two_digits 1)
          ++ "_" ++ (two_digits 23 ++ two_digits 59) ++ ".edf").
Proof.
  apply (generate_correct_filename_canonical
           (extract_edf_metadata
              (make_header "5774131" "01.07.13" "23.59.00" "10" "1" "1"))
           "recording.edf" "5774131" 1 7 13 23 59 0);
    solve [lia | reflexivity].
Defined.

(** ** The decoder on a short stream *)

(** A block that the stream cannot fill makes [struct.unpack] raise: the
    branch logging a sample count mismatch is never reached. *)
Lemma read_block_short_stream (header : Header) (max_samples : Z)
  (rec sig : nat) (st : ReadState) (signal : SignalInfo) :
  nth_error (signals header) sig = Some signal ->
  (0 < samples_per_record signal)%Z ->
  (List.length (stream st) < 2 * Z.to_nat (samples_per_record signal))%nat ->
  read_block header max_samples rec sig st = inl StructError.
Proof.
  intros Hsig Hpos Hshort. unfold read_block, lookup. rewrite Hsig. simpl.
  replace (samples_per_record signal >? 0)%Z with true
    by (symmetry; apply Z.gtb_lt; lia).
  unfold struct_unpack_h.
  rewrite length_firstn, Nat.min_r by lia.
  replace (List.length (stream st) =? 2 * Z.to_nat (samples_per_record signal))%nat
    with false by (symmetry; apply Nat.eqb_neq; lia).
  reflexivity.
Qed.

(** C3.  On a file whose header declares one record of one channel with
    two samples and whose data end after the first sample,
    [read_edf_file_direct] raises the error of [struct.unpack]: no warning
    is logged and no header or grid is returned.  With both samples
    present the same file decodes to the grid [[1, -1]]. *)
Theorem read_edf_file_direct_truncated_raises :
  read_edf_file_direct decimal_float truncated_file = inl StructError
  /\ exists header,
       read_edf_file_direct decimal_float complete_file
       = inr (header, [[1; -1]%Z], [])
       /\ records header = 1%Z
       /\ map samples_per_record (signals header) = [2%Z].
Proof.
  split; [vm_compute; reflexivity |].
  eexists. split; [vm_compute; reflexivity |]. split; reflexivity.
Qed.

(** ** Physical scaling *)

Lemma nth_error_set_nth_other {A} (l : list A) (i j : nat) (a : A) :
  i <> j -> nth_error (set_nth i a l) j = nth_error l j.
Proof.
  revert i j. induction l as [| b l IH]; intros i j Hij; simpl.
  - now destruct i.
  - destruct i as [| i]; destruct j as [| j]; simpl; try reflexivity.
    + congruence.
    + apply IH. congruence.
Qed.

(** A channel with equal physical bounds is stepped over. *)
Lemma apply_physical_scaling_skip (i : nat) (signal : SignalInfo)
  (sigs : list SignalInfo) (data_float : list (list float)) :
  float_ne (physical_max signal) (physical_min signal) = false ->
  apply_physical_scaling i (signal :: sigs) data_float
  = apply_physical_scaling (S i) sigs data_float.
Proof.
  intros H. simpl. now rewrite H.
Qed.

(** The loop touches only the rows of the channels it scales. *)
Lemma apply_physical_scaling_untouched (sigs : list SignalInfo) :
  forall (i : nat) (data_float scaled : list (list float)),
    apply_physical_scaling i sigs data_float = inr scaled ->
    forall j : nat,
      (forall signal, nth_error sigs (j - i) = Some signal -> (i <= j)%nat ->
                      float_ne (physical_max signal) (physical_min signal) = false) ->
      nth_error scaled j = nth_error data_float j.
Proof.
  induction sigs as [| s sigs IH]; intros i data_float scaled Hrun j Hj.
  - simpl in Hrun. now inversion Hrun.
  - simpl in Hrun.
    assert (Hrest : forall signal, nth_error sigs (j - S i) = Some signal ->
                                   (S i <= j)%nat ->
                                   float_ne (physical_max signal) (physical_min signal)
                                   = false).
    { intros signal Hn Hle. apply Hj; [| lia].
      replace (j - i)%nat with (S (j - S i)) by lia. exact Hn. }
    destruct (float_ne (physical_max s) (physical_min s)) eqn:Hne.
    + apply bind_inr in Hrun as (dr & _ & Hrun).
      apply bind_inr in Hrun as (scale & _ & Hrun).
      apply bind_inr in Hrun as (dmin & _ & Hrun).
      apply bind_inr in Hrun as (row & _ & Hrun).
      rewrite (IH _ _ _ Hrun j Hrest).
      apply nth_error_set_nth_other.
      intros ->. specialize (Hj s). rewrite Nat.sub_diag in Hj.
      specialize (Hj eq_refl (Nat.le_refl _)). congruence.
    + exact (IH _ _ _ Hrun j Hrest).
Qed.

(** With equal physical bounds on every channel the loop always succeeds
    and returns the matrix as it came. *)
Lemma apply_physical_scaling_all_passthrough (sigs : list SignalInfo) :
  forall (i : nat) (data_float : list (list float)),
    Forall (fun signal =>
              float_ne (physical_max signal) (physical_min signal) = false) sigs ->
    apply_physical_scaling i sigs data_float = inr data_float.
Proof.
  induction sigs as [| s sigs IH]; intros i data_float Hall; [reflexivity |].
  inversion Hall as [| ? ? Hs Hrest]; subst.
  rewrite apply_physical_scaling_skip by assumption. now apply IH.
Qed.

(** C9.  A channel whose physical maximum equals its physical minimum is
    passed through: the loop steps over it without computing a scale, and
    in the matrix of the returned [Raw] its row is the row of stored
    integers converted to floats. *)
Theorem passthrough_channel_identity
  (edf_header : Header) (edf_data : list (list Z)) (raw : Raw)
  (i : nat) (signal : SignalInfo) :
  create_mne_raw_from_edf_data edf_header edf_data = inr raw ->
  nth_error (signals edf_header) i = Some signal ->
  (physical_max signal =? physical_min signal)%float = true ->
  nth_error (raw_data raw) i = option_map (map Z_to_float) (nth_error edf_data i)
  /\ forall k sigs data_float,
       apply_physical_scaling k (signal :: sigs) data_float
       = apply_physical_scaling (S k) sigs data_float.
Proof.
  intros Hrun Hsig Heq.
  assert (Hne : float_ne (physical_max signal) (physical_min signal) = false)
    by (unfold float_ne; now rewrite Heq).
  split.
  - unfold create_mne_raw_from_edf_data in Hrun.
    apply bind_inr in Hrun as (first & _ & Hrun).
    apply bind_inr in Hrun as (spr & _ & Hrun).
    apply bind_inr in Hrun as (rate & _ & Hrun).
    apply bind_inr in Hrun as (scaled & Hscaled & Hrun).
    inversion Hrun; subst raw; simpl.
    rewrite (apply_physical_scaling_untouched _ _ _ _ Hscaled i).
    + apply nth_error_map.
    + rewrite Nat.sub_0_r. intros s Hs _. congruence.
  - intros k sigs data_float. now apply apply_physical_scaling_skip.
Qed.

Lemma passthrough_channel_identity_witness :
  nth_error
    (raw_data
       (RawArray [[1; 2]; [3; 4]]%float 2%float ["RAW"; "EEG"]))
    0
  = option_map (map Z_to_float) (nth_error [[1; 2]; [3; 4]]%Z 0).
Proof.
  apply (passthrough_channel_identity mixed_header [[1; 2]; [3; 4]]%Z
           (RawArray [[1; 2]; [3; 4]]%float 2%float ["RAW"; "EEG"])
           0 (make_signal "RAW" 0%float 0%float (-100) 100 2));
    vm_compute; reflexivity.
Defined.

Lemma float_of_Z_zero : float_of_Z 0 = inr 0%float.
Proof. reflexivity. Qed.

Lemma py_truediv_zero (a : float) : py_truediv a 0 = inl ZeroDivisionError.
Proof. reflexivity. Qed.

(** Reaching a calibrated channel with an empty digital range raises. *)
Lemma apply_physical_scaling_degenerate (i : nat) (signal : SignalInfo)
  (sigs : list SignalInfo) (data_float : list (list float)) :
  float_ne (physical_max signal) (physical_min signal) = true ->
  digital_max signal = digital_min signal ->
  apply_physical_scaling i (signal :: sigs) data_float = inl ZeroDivisionError.
Proof.
  intros Hne Hdig. simpl. rewrite Hne, Hdig, Z.sub_diag, float_of_Z_zero.
  simpl. reflexivity.
Qed.

(** A header holding such a channel never gets through the loop. *)
Lemma apply_physical_scaling_fails (signal : SignalInfo) (sigs : list SignalInfo) :
  In signal sigs ->
  float_ne (physical_max signal) (physical_min signal) = true ->
  digital_max signal = digital_min signal ->
  forall (i : nat) (data_float : list (list float)),
    exists e, apply_physical_scaling i sigs data_float = inl e.
Proof.
  intros Hin Hne Hdig.
  induction sigs as [| s sigs IH]; intros i data_float; [contradiction |].
  destruct Hin as [-> | Hin].
  - exists ZeroDivisionError. now apply apply_physical_scaling_degenerate.
  - simpl.
    destruct (float_ne (physical_max s) (physical_min s)); [| now apply IH].
    destruct (float_of_Z (digital_max s - digital_min s)) as [e | dr];
      [now exists e |]. simpl.
    destruct (py_truediv _ dr) as [e | scale]; [now exists e |]. simpl.
    destruct (float_of_Z (digital_min s)) as [e | dmin]; [now exists e |]. simpl.
    destruct (lookup data_float i) as [e | row]; [now exists e |]. simpl.
    now apply IH.
Qed.

Lemma float_of_Z_raises (z : Z) (e : exn) :
  float_of_Z z = inl e -> e = OverflowError.
Proof.
  unfold float_of_Z.
  destruct (binary_normalize prec emax z 0 false); intros H;
    try discriminate; now injection H as <-.
Qed.

Lemma py_truediv_raises (a b : float) (e : exn) :
  py_truediv a b = inl e -> e = ZeroDivisionError.
Proof.
  unfold py_truediv. destruct (b =? 0)%float; intros H;
    [now injection H as <- | discriminate].
Qed.

(** With a row for every channel the loop stops at such a channel, or at
    an earlier one, on a division by zero, unless an integer of the
    header is beyond the floats. *)
Lemma apply_physical_scaling_stops (signal : SignalInfo)
  (sigs : list SignalInfo) :
  In signal sigs ->
  float_ne (physical_max signal) (physical_min signal) = true ->
  digital_max signal = digital_min signal ->
  forall (i : nat) (data_float : list (list float)),
    (forall j, (i <= j)%nat -> (j < i + List.length sigs)%nat ->
               exists row, nth_error data_float j = Some row) ->
    apply_physical_scaling i sigs data_float = inl ZeroDivisionError
    \/ apply_physical_scaling i sigs data_float = inl OverflowError.
Proof.
  intros Hin Hne Hdig.
  induction sigs as [| s sigs IH]; intros i data_float Hrows; [contradiction |].
  destruct Hin as [-> | Hin].
  - left. now apply apply_physical_scaling_degenerate.
  - assert (Hrest : forall data,
               (forall j, j <> i -> nth_error data j = nth_error data_float j) ->
               apply_physical_scaling (S i) sigs data = inl ZeroDivisionError
               \/ apply_physical_scaling (S i) sigs data = inl OverflowError).
    { intros data Hsame. apply (IH Hin). intros j Hj Hjlen.
      rewrite Hsame by lia. apply Hrows; [lia |]. cbn [List.length]. lia. }
    cbn [apply_physical_scaling].
    destruct (float_ne (physical_max s) (physical_min s));
      [| now apply Hrest].
    destruct (float_of_Z (digital_max s - digital_min s)) as [e | dr] eqn:Hdr.
    { right. now rewrite (float_of_Z_raises _ _ Hdr). }
    cbn [bind].
    destruct (py_truediv _ dr) as [e | scale] eqn:Hscale.
    { left. now rewrite (py_truediv_raises _ _ _ Hscale). }
    cbn [bind].
    destruct (float_of_Z (digital_min s)) as [e | dmin] eqn:Hdmin.
    { right. now rewrite (float_of_Z_raises _ _ Hdmin). }
    cbn [bind].
    destruct (Hrows i ltac:(lia) ltac:(cbn [List.length]; lia)) as (row & Hrow).
    unfold lookup. rewrite Hrow. cbn [bind ret].
    apply Hrest. intros j Hj. apply nth_error_set_nth_other. congruence.
Qed.

(** C4, as the code has it.  A channel with distinct physical bounds and
    equal digital bounds makes the scaling raise [ZeroDivisionError], the
    error of the division itself, when the loop reaches it, whatever the
    samples; a header holding such a channel yields an error and no
    scaled matrix, so that no infinity or NaN from the division reaches
    an output.  When the rate is positive, the labels are distinct and
    every channel has its row, that error is a [ZeroDivisionError], or an
    [OverflowError] for an integer of the header beyond the floats. *)
Theorem degenerate_calibration_raises
  (edf_header : Header) (edf_data : list (list Z)) (signal : SignalInfo) :
  In signal (signals edf_header) ->
  float_ne (physical_max signal) (physical_min signal) = true ->
  digital_max signal = digital_min signal ->
  (forall i sigs data_float,
      apply_physical_scaling i (signal :: sigs) data_float = inl ZeroDivisionError)
  /\ (forall i data_float,
        exists e, apply_physical_scaling i (signals edf_header) data_float = inl e)
  /\ (exists e, create_mne_raw_from_edf_data edf_header edf_data = inl e)
  /\ forall rate,
       sampling_rate edf_header = inr rate ->
       (0 <? rate)%float = true ->
       NoDup (map label (signals edf_header)) ->
       (List.length (signals edf_header) <= List.length edf_data)%nat ->
       create_mne_raw_from_edf_data edf_header edf_data = inl ZeroDivisionError
       \/ create_mne_raw_from_edf_data edf_header edf_data = inl OverflowError.
Proof.
  intros Hin Hne Hdig. split; [| split; [| split]].
  - intros i sigs data_float. now apply apply_physical_scaling_degenerate.
  - now apply (apply_physical_scaling_fails signal).
  - unfold create_mne_raw_from_edf_data.
    destruct (lookup (signals edf_header) 0) as [e | first]; [now exists e |].
    simpl.
    destruct (float_of_Z (samples_per_record first)) as [e | spr];
      [now exists e |]. simpl.
    destruct (py_truediv spr (duration edf_header)) as [e | rate];
      [now exists e |]. simpl.
    destruct (apply_physical_scaling_fails signal _ Hin Hne Hdig 0
                (map (map Z_to_float) edf_data)) as [e He].
    rewrite He. now exists e.
  - intros rate Hrate _ _ Hrows.
    unfold sampling_rate in Hrate. unfold create_mne_raw_from_edf_data.
    destruct (lookup (signals edf_header) 0) as [e | first]; [discriminate |].
    cbn [bind] in Hrate |- *.
    destruct (float_of_Z (samples_per_record first)) as [e | spr];
      [discriminate |]. cbn [bind] in Hrate |- *.
    rewrite Hrate. cbn [bind].
    destruct (apply_physical_scaling_stops signal _ Hin Hne Hdig 0
                (map (map Z_to_float) edf_data)) as [Hstop | Hstop].
    + intros j _ Hj. cbn in Hj. rewrite nth_error_map.
      destruct (nth_error edf_data j) as [row |] eqn:Hrow; [now eexists |].
      apply nth_error_None in Hrow. lia.
    + left. now rewrite Hstop.
    + right. now rewrite Hstop.
Qed.

Lemma degenerate_calibration_raises_witness :
  create_mne_raw_from_edf_data degenerate_header [[1; 2]; [3; 4]]%Z
  = inl ZeroDivisionError.
Proof.
  destruct (degenerate_calibration_raises degenerate_header
              [[1; 2]; [3; 4]]%Z degenerate_signal)
    as (_ & _ & _ & Hkind);
    [ right; left; reflexivity | reflexivity | reflexivity | ].
  destruct (Hkind 2%float) as [Hzero | Hover].
  - reflexivity.
  - reflexivity.
  - repeat constructor; cbn; intuition discriminate.
  - cbn. lia.
  - exact Hzero.
  - vm_compute in Hover. discriminate.
Defined.

(** The error raised for such a channel is the one that a record
    duration of zero raises under a header without any such channel: it
    is no error of a kind of its own. *)
Lemma degenerate_calibration_is_explicit_fails :
  ~ degenerate_calibration_is_explicit
  /\ create_mne_raw_from_edf_data degenerate_header [[1; 2]; [3; 4]]%Z
     = inl ZeroDivisionError
  /\ existsb degenerate (signals zero_duration_header) = false
  /\ create_mne_raw_from_edf_data zero_duration_header [[1; 2]]%Z
     = inl ZeroDivisionError.
Proof.
  assert (Hdegenerate : create_mne_raw_from_edf_data degenerate_header
                          [[1; 2]; [3; 4]]%Z = inl ZeroDivisionError)
    by (vm_compute; reflexivity).
  assert (Hzero : create_mne_raw_from_edf_data zero_duration_header [[1; 2]]%Z
                  = inl ZeroDivisionError) by (vm_compute; reflexivity).
  split; [| split; [exact Hdegenerate | split; [reflexivity | exact Hzero]]].
  intros claim.
  destruct (claim degenerate_header [[1; 2]; [3; 4]]%Z eq_refl)
    as (e & Hraised & Hexplicit).
  rewrite Hdegenerate in Hraised. injection Hraised as <-.
  specialize (Hexplicit zero_duration_header [[1; 2]]%Z Hzero).
  discriminate Hexplicit.
Qed.

(** ** Duration reconciliation *)

Lemma combine_repeat_r {A B} (l : list A) (b : B) :
  combine l (repeat b (List.length l)) = map (fun a => (a, b)) l.
Proof.
  induction l as [| a l IH]; simpl; [reflexivity | now rewrite IH].
Qed.

(** Padding appends the same run of zeros to every row. *)
Lemma pad_rows (data : list (list float)) (padding : nat) :
  np_concatenate_axis1 data (np_zeros (List.length data) padding)
  = map (fun row => (row ++ repeat 0%float padding)%list) data.
Proof.
  unfold np_concatenate_axis1, np_zeros.
  rewrite combine_repeat_r, map_map. reflexivity.
Qed.

(** The three ways out of the repair once the durations differ. *)
Lemma reconcile_duration_mismatch (header_duration : float) (raw : Raw)
  (measured : float) (target : Z) :
  times_last raw = inr measured ->
  float_gt (abs (measured - header_duration)%float) 0.01 = true ->
  target_sample_count header_duration raw = inr target ->
  reconcile_duration header_duration raw
  = inr (if (target >? Z.of_nat (n_times raw))%Z then
           {| repaired :=
                RawArray
                  (map (fun row =>
                          (row ++ repeat 0%float
                                    (Z.to_nat (target - Z.of_nat (n_times raw))))%list)
                       (raw_data raw))
                  (sfreq raw) (ch_names raw);
              zero_padding_start := Some measured;
              action := Pad |}
         else if (target <? Z.of_nat (n_times raw))%Z then
           {| repaired :=
                RawArray (map (slice_to target) (raw_data raw))
                         (sfreq raw) (ch_names raw);
              zero_padding_start := None;
              action := Truncate |}
         else {| repaired := raw; zero_padding_start := None; action := NoAction |}).
Proof.
  intros Hlast Hdiff Htarget. unfold reconcile_duration.
  rewrite Hlast. simpl bind. rewrite Hdiff, Htarget. simpl bind.
  rewrite pad_rows.
  destruct (target >? Z.of_nat (n_times raw))%Z; [reflexivity |].
  destruct (target <? Z.of_nat (n_times raw))%Z; reflexivity.
Qed.

(** Every way through [reconcile_duration] that changes the data. *)
Lemma reconcile_duration_inv (header_duration : float) (raw : Raw)
  (r : Reconciled) :
  reconcile_duration header_duration raw = inr r ->
  action r <> NoAction ->
  exists measured target,
    times_last raw = inr measured
    /\ float_gt (abs (measured - header_duration)%float) 0.01 = true
    /\ target_sample_count header_duration raw = inr target.
Proof.
  intros Hrun Hact. unfold reconcile_duration in Hrun.
  apply bind_inr in Hrun as (measured & Hlast & Hrun).
  destruct (float_gt (abs (measured - header_duration)) 0.01) eqn:Hdiff.
  - apply bind_inr in Hrun as (target & Htarget & _). now exists measured, target.
  - inversion Hrun; subst r. now contradiction Hact.
Qed.




Lemma firstn_padded {A} (n : nat) (tail : list A) (rows : list (list A)) :
  Forall (fun row => List.length row = n) rows ->
  map (fun row => firstn n (row ++ tail)%list) rows = rows.
Proof.
  induction 1 as [| row rows Hrow _ IH]; [reflexivity |].
  simpl. rewrite IH. f_equal.
  rewrite firstn_app, <- Hrow, firstn_all, Nat.sub_diag. simpl.
  apply app_nil_r.
Qed.

(** C6.  When the repair pads, [zero_padding_start] is the duration
    measured before padding; the target count exceeds the original sample
    count, and every channel of the padded data is its original row
    followed by as many zeros as the target count exceeds the original
    one, so that every row has the target length: in every channel each
    sample at an index from the original sample count on is zero, and the
    samples before it are the original ones. *)
Theorem pad_appends_zeros
  (header_duration : float) (raw : Raw) (r : Reconciled) :
  rectangular raw ->
  reconcile_duration header_duration raw = inr r ->
  action r = Pad ->
  (exists measured,
      times_last raw = inr measured /\ zero_padding_start r = Some measured)
  /\ (forall row j x,
         In row (raw_data (repaired r)) ->
         (n_times raw <= j)%nat ->
         nth_error row j = Some x ->
         x = 0%float)
  /\ map (firstn (n_times raw)) (raw_data (repaired r)) = raw_data raw
  /\ exists target,
       target_sample_count header_duration raw = inr target
       /\ (Z.of_nat (n_times raw) < target)%Z
       /\ raw_data (repaired r)
          = map (fun row =>
                   (row ++ repeat 0%float (Z.to_nat target - n_times raw))%list)
                (raw_data raw)
       /\ Forall (fun row => Z.of_nat (List.length row) = target)
                 (raw_data (repaired r))
       /\ (0 < List.length (raw_data (repaired r)))%nat.
Proof.
  intros Hrect Hrun Hpad.
  destruct (reconcile_duration_inv _ _ _ Hrun) as (measured & target & Hlast & Hdiff & Htarget);
    [rewrite Hpad; discriminate |].
  rewrite (reconcile_duration_mismatch _ _ _ _ Hlast Hdiff Htarget) in Hrun.
  injection Hrun as Hr.
  destruct (target >? Z.of_nat (n_times raw))%Z eqn:Hmore.
  - apply Z.gtb_lt in Hmore. subst r. simpl.
    split; [now exists measured | split; [| split]].
    + intros row j x Hin Hj Hnth.
      apply in_map_iff in Hin as (row0 & <- & Hin0).
      unfold rectangular in Hrect. rewrite Forall_forall in Hrect.
      specialize (Hrect _ Hin0).
      rewrite nth_error_app2 in Hnth by lia.
      apply nth_error_In, repeat_spec in Hnth. exact Hnth.
    + rewrite map_map. now apply firstn_padded.
    + exists target. split; [exact Htarget |]. split; [exact Hmore |].
      replace (Z.to_nat (target - Z.of_nat (n_times raw)))
        with (Z.to_nat target - n_times raw)%nat by lia.
      split; [reflexivity |]. split.
      * apply Forall_forall. intros row Hin.
        apply in_map_iff in Hin as (row0 & <- & Hin0).
        unfold rectangular in Hrect. rewrite Forall_forall in Hrect.
        rewrite length_app, repeat_length, (Hrect _ Hin0). lia.
      * rewrite length_map. unfold times_last, n_times in Hlast.
        destruct (raw_data raw); [discriminate | simpl; lia].
  - destruct (target <? Z.of_nat (n_times raw))%Z; subst r; discriminate Hpad.
Qed.

Lemma pad_appends_zeros_witness :
  (exists measured,
      times_last short_raw = inr measured
      /\ Some (Z_to_float 3 / 2.25)%float = Some measured)
  /\ (forall row j x,
         In row [[1; 2; 3; 4; 0; 0]%float] ->
         (n_times short_raw <= j)%nat ->
         nth_error row j = Some x ->
         x = 0%float)
  /\ map (firstn (n_times short_raw)) [[1; 2; 3; 4; 0; 0]%float]
     = raw_data short_raw
  /\ exists target,
       target_sample_count short_header_duration short_raw = inr target
       /\ (Z.of_nat (n_times short_raw) < target)%Z
       /\ [[1; 2; 3; 4; 0; 0]%float]
          = map (fun row =>
                   (row ++ repeat 0%float (Z.to_nat target - n_times short_raw))%list)
                (raw_data short_raw)
       /\ Forall (fun row => Z.of_nat (List.length row) = target)
                 [[1; 2; 3; 4; 0; 0]%float]
       /\ (0 < List.length [[1; 2; 3; 4; 0; 0]%float])%nat.
Proof.
  apply (pad_appends_zeros short_header_duration short_raw
           {| repaired := RawArray [[1; 2; 3; 4; 0; 0]%float] 2.25%float ["EEG"];
              zero_padding_start := Some (Z_to_float 3 / 2.25)%float;
              action := Pad |}).
  - repeat constructor.
  - vm_compute. reflexivity.
  - reflexivity.
Defined.

(** ** Order of floats *)

Lemma SFcompare_antisym (a b : spec_float) :
  SFcompare b a = option_map CompOpp (SFcompare a b).
Proof.
  destruct a as [sa | sa | | sa ma ea], b as [sb | sb | | sb mb eb];
    simpl; try reflexivity;
    try (destruct sa; reflexivity); try (destruct sb; reflexivity);
    try (destruct sa, sb; reflexivity).
  destruct sa, sb; simpl; try reflexivity;
    rewrite (Z.compare_antisym ea eb);
    destruct (ea ?= eb)%Z; simpl; try reflexivity;
    rewrite (Pos.compare_cont_antisym ma mb Eq); simpl;
    destruct (Pos.compare_cont Eq mb ma); reflexivity.
Qed.

(** A float strictly below another is not at or above it. *)
Lemma ltb_not_leb (x y : float) :
  (x <? y)%float = true -> (y <=? x)%float = false.
Proof.
  rewrite ltb_spec, leb_spec. unfold SFltb, SFleb.
  rewrite (SFcompare_antisym (Prim2SF x) (Prim2SF y)).
  destruct (SFcompare (Prim2SF x) (Prim2SF y)) as [[| |] |]; simpl;
    congruence.
Qed.

(** ** Classification *)

(** One pass of the loop body on an event that carries a relative time. *)
Lemma classify_event_relative (zps : option float) (actual_duration : float)
  (st : LoopState) (event : Event) :
  carries_relative_time event ->
  classify_event zps actual_duration st event
  = inr {| onsets :=
             (onsets st ++ map onset (emitted zps actual_duration event))%list;
           durations :=
             (durations st
              ++ map annotation_duration (emitted zps actual_duration event))%list;
           descriptions :=
             (descriptions st
              ++ map description (emitted zps actual_duration event))%list;
           event_status :=
             (event_status st ++ [status_of zps actual_duration event])%list;
           ref_time := ref_time st |}.
Proof.
  intros [rel Hrel].
  unfold classify_event, emitted, status_of, sort_key. rewrite Hrel.
  unfold bind, ret.
  destruct (classify zps actual_duration rel) as [status [at_onset |]];
    simpl; rewrite ?app_nil_r; reflexivity.
Qed.

(** With a relative time on every event, the loop appends to its lists
    what [classify] decides, event after event, and never fails. *)
Lemma classify_events_relative (zps : option float) (actual_duration : float)
  (events : list Event) :
  Forall carries_relative_time events ->
  forall st : LoopState,
    classify_events zps actual_duration st events
    = inr {| onsets :=
               (onsets st
                ++ map onset (flat_map (emitted zps actual_duration) events))%list;
             durations :=
               (durations st
                ++ map annotation_duration
                     (flat_map (emitted zps actual_duration) events))%list;
             descriptions :=
               (descriptions st
                ++ map description
                     (flat_map (emitted zps actual_duration) events))%list;
             event_status :=
               (event_status st ++ map (status_of zps actual_duration) events)%list;
             ref_time := ref_time st |}.
Proof.
  induction 1 as [| event events Hevent _ IH]; intros st.
  - simpl. rewrite !app_nil_r. now destruct st.
  - cbn [classify_events].
    rewrite (classify_event_relative _ _ _ _ Hevent). unfold bind.
    rewrite IH. cbn [onsets durations descriptions event_status ref_time
                     flat_map map].
    rewrite !map_app, <- !app_assoc. reflexivity.
Qed.

Lemma make_annotations_of_fields (annots : list Annotation) :
  make_annotations (map onset annots) (map annotation_duration annots)
                   (map description annots) = annots.
Proof.
  induction annots as [| [o d s] annots IH]; simpl; [reflexivity |].
  now rewrite IH.
Qed.

(** C1.  On events that carry a relative time the loop succeeds and
    records one status per event.  When padding was applied and the
    event lies at or after [zero_padding_start], it is
    [EXCLUDED_ZERO_PADDING] and contributes no annotation.  Otherwise,
    that is when no padding was applied or the event does not lie at or
    after its start, an event inside [0, actual_duration + 0.1] is
    [INCLUDED] and contributes one annotation at its relative time,
    brought down to [actual_duration] when beyond it; and an event below
    0, or above the window, or for which neither test holds, is
    [EXCLUDED_OUT_OF_RANGE] and contributes none.  The annotations of the
    run are these contributions in event order. *)
Theorem classification_trichotomy
  (zps : option float) (actual_duration : float) (events : list Event) :
  Forall carries_relative_time events ->
  exists st,
    classify_events zps actual_duration initial_state events = inr st
    /\ List.length (event_status st) = List.length events
    /\ make_annotations (onsets st) (durations st) (descriptions st)
       = flat_map (emitted zps actual_duration) events
    /\ forall i event rel,
         nth_error events i = Some event ->
         relative_time event = Some rel ->
         let status := nth_error (event_status st) i in
         let annotation := emitted zps actual_duration event in
         let unpadded_there :=
           zps = None
           \/ exists start, zps = Some start /\ (start <=? rel)%float = false in
         (forall start,
             zps = Some start -> (start <=? rel)%float = true ->
             status = Some EXCLUDED_ZERO_PADDING /\ annotation = [])
         /\ (unpadded_there ->
             (0 <=? rel)%float = true ->
             (rel <=? actual_duration + 0.1)%float = true ->
             status = Some INCLUDED
             /\ annotation
                = [{| onset :=
                        if (actual_duration <? rel)%float then actual_duration
                        else rel;
                      annotation_duration := 0%float;
                      description := event_type event |}])
         /\ (unpadded_there ->
             (rel <? 0)%float = true
             \/ (actual_duration + 0.1 <? rel)%float = true
             \/ ((0 <=? rel)%float
                 && (rel <=? actual_duration + 0.1)%float = false) ->
             status = Some EXCLUDED_OUT_OF_RANGE /\ annotation = []).
Proof.
  intros Hrel. eexists.
  split; [exact (classify_events_relative zps actual_duration events Hrel _) |].
  cbn [event_status onsets durations descriptions initial_state app].
  split; [now rewrite length_map |].
  split; [apply make_annotations_of_fields |].
  intros i event rel Hnth Hevent. cbv zeta.
  replace (nth_error (map (status_of zps actual_duration) events) i)
    with (Some (fst (classify zps actual_duration rel)))
    by (rewrite nth_error_map, Hnth; simpl;
        unfold status_of, sort_key; now rewrite Hevent).
  replace (emitted zps actual_duration event)
    with (match snd (classify zps actual_duration rel) with
          | Some at_onset =>
              [{| onset := at_onset; annotation_duration := 0%float;
                  description := event_type event |}]
          | None => []
          end)
    by (unfold emitted, sort_key; now rewrite Hevent).
  assert (Hclear : zps = None
                   \/ (exists start,
                          zps = Some start /\ (start <=? rel)%float = false) ->
                   in_zero_padding zps rel = false).
  { intros [-> | (start & -> & Hbefore)]; [reflexivity |].
    unfold in_zero_padding, float_ge. exact Hbefore. }
  unfold classify, tolerance, float_ge, float_gt.
  split; [| split].
  - intros start -> Hge. unfold in_zero_padding, float_ge. rewrite Hge.
    now split.
  - intros Hout Hlow Hhigh. rewrite (Hclear Hout), Hlow, Hhigh. now split.
  - intros Hout Hrange. rewrite (Hclear Hout).
    assert (Hwindow : (0 <=? rel)%float
                      && (rel <=? actual_duration + 0.1)%float = false).
    { destruct Hrange as [Hneg | [Hbeyond | Hneither]].
      - now rewrite (ltb_not_leb _ _ Hneg).
      - rewrite (ltb_not_leb _ _ Hbeyond). apply andb_false_r.
      - exact Hneither. }
    rewrite Hwindow. now split.
Qed.

Lemma classification_trichotomy_witness :
  exists st,
    classify_events (Some 50%float) 60%float initial_state padded_night = inr st
    /\ nth_error (event_status st) 0 = Some INCLUDED
    /\ nth_error (event_status st) 1 = Some EXCLUDED_ZERO_PADDING
    /\ nth_error (event_status st) 2 = Some EXCLUDED_OUT_OF_RANGE
    /\ nth_error (event_status st) 3 = Some EXCLUDED_ZERO_PADDING
    /\ make_annotations (onsets st) (durations st) (descriptions st)
       = [{| onset := 10%float; annotation_duration := 0%float;
             description := "Arousal" |}].
Proof.
  destruct (classification_trichotomy (Some 50%float) 60%float padded_night)
    as (st & Hst & _ & Hannotations & Hcases).
  - repeat constructor; eexists; reflexivity.
  - exists st. split; [exact Hst |].
    destruct (Hcases 0%nat _ 10%float eq_refl eq_refl) as (_ & Hin & _).
    destruct (Hcases 1%nat _ 55%float eq_refl eq_refl) as (Hpad & _ & _).
    destruct (Hcases 2%nat _ (-5)%float eq_refl eq_refl) as (_ & _ & Hout).
    destruct (Hcases 3%nat _ 70%float eq_refl eq_refl) as (Hlate & _ & _).
    split; [apply Hin; [right; now exists 50%float | reflexivity | reflexivity] |].
    split; [now apply (Hpad 50%float) |].
    split; [apply Hout; [right; now exists 50%float | left; reflexivity] |].
    split; [now apply (Hlate 50%float) |].
    rewrite Hannotations. reflexivity.
Defined.

(** ** Loading spreadsheet rows *)

Section Loading.

Variable py_float : string -> option float.

(** Fewer than three fields: no field is parsed and the time is zero. *)
Lemma parse_time_to_seconds_short (time_str : string) :
  (List.length (split_on ":" time_str) < 3)%nat ->
  parse_time_to_seconds py_float time_str = 0%float.
Proof.
  unfold parse_time_to_seconds.
  destruct (split_on ":" time_str) as [| p0 [| p1 [| p2 rest]]]; simpl;
    intros H; try reflexivity; lia.
Qed.

Lemma lookup_in_row {A} (row : list A) (k : nat) :
  (k < List.length row)%nat -> exists a, lookup row k = inr a.
Proof.
  intros Hk. unfold lookup.
  destruct (nth_error row k) as [a |] eqn:E; [now exists a |].
  apply nth_error_None in E. lia.
Qed.

(** A frame with columns C and D loads without an exception. *)
Lemma load_rows_total (reference_time : option float) (rows : DataFrame) :
  Forall (fun row => (4 <= List.length row)%nat) rows ->
  forall i, exists events, load_rows py_float reference_time i rows = inr events.
Proof.
  induction 1 as [| row rows Hrow _ IH]; intros i; simpl.
  - now exists [].
  - destruct (lookup_in_row row 2) as [c2 ->]; [lia |].
    destruct (lookup_in_row row 3) as [c3 ->]; [lia |].
    destruct (IH (S i)) as [events ->]. simpl.
    destruct (_ && _); eauto.
Qed.

(** A row with a colon in its time cell and a valid label becomes an
    event that carries the row's index. *)
Lemma load_rows_retains (reference_time : option float) (rows : DataFrame) :
  Forall (fun row => (4 <= List.length row)%nat) rows ->
  forall (i k : nat) (row : list Cell) (c2 c3 : Cell),
    nth_error rows k = Some row ->
    nth_error row 2 = Some c2 ->
    nth_error row 3 = Some c3 ->
    contains_char ":" (strip (str_cell c2)) = true ->
    valid_event (strip (str_cell c3)) = true ->
    exists events,
      load_rows py_float reference_time i rows = inr events
      /\ In {| time := strip (str_cell c2);
               time_seconds := parse_time_to_seconds py_float (strip (str_cell c2));
               relative_time :=
                 option_map
                   (fun r => (parse_time_to_seconds py_float (strip (str_cell c2))
                              - r)%float) reference_time;
               event_type := strip (str_cell c3);
               row_index := i + k |} events.
Proof.
  induction 1 as [| first rows Hfirst Hrows IH];
    intros i k row c2 c3 Hrow Hc2 Hc3 Htime Hvalid.
  - now destruct k.
  - destruct k as [| k]; simpl in Hrow.
    + injection Hrow as ->. simpl. unfold lookup. rewrite Hc2, Hc3. simpl.
      destruct (load_rows_total reference_time rows Hrows (S i)) as [events ->].
      simpl. rewrite Htime, Hvalid. simpl.
      eexists. split; [reflexivity |]. left. now rewrite Nat.add_0_r.
    + simpl.
      destruct (lookup_in_row first 2) as [d2 ->]; [lia |].
      destruct (lookup_in_row first 3) as [d3 ->]; [lia |]. simpl.
      destruct (IH (S i) k row c2 c3 Hrow Hc2 Hc3 Htime Hvalid)
        as (events & -> & Hin). simpl.
      replace (i + S k)%nat with (S i + k)%nat by lia.
      destruct (_ && _); eexists; (split; [reflexivity |]);
        [right |]; exact Hin.
Qed.

End Loading.

(** ** The conversion without events *)

(** With no spreadsheet file the conversion returns [False] although an
    output path was given, and with a spreadsheet of notes only and no
    output path it returns [True] without exporting anything. *)
Lemma no_matching_events_is_success_fails :
  ~ no_matching_events_is_success
  /\ convert_edf_to_edfplus decimal_float no_excel_input = (false, [])
  /\ convert_edf_to_edfplus decimal_float (notes_only_input None) = (true, []).
Proof.
  split; [| split; vm_compute; reflexivity].
  intros claim.
  destruct (claim decimal_float no_excel_input) as [Hret _]; [reflexivity |].
  vm_compute in Hret. discriminate.
Qed.

(** ** Status write-back across several spreadsheets *)

(** C2.  On two spreadsheets whose events interleave in time the run
    succeeds and retains the event of row 0 of the first file (30 s, out
    of range) and that of row 3 of the second (1 s, included); after the
    sort the statuses are written to sheet row 4 of the first file and
    sheet row 1 of the second, so that neither retained row receives its
    status in its own file. *)
Theorem status_written_to_other_file :
  fst (convert_edf_to_edfplus decimal_float two_file_input) = true
  /\ map (fun event => (row_index event, relative_time event))
         (fst (load_all_events decimal_float
                 (reference_time_of decimal_float two_file_input)
                 (excel_files two_file_input) [] []))
     = [(0%nat, Some 30%float); (3%nat, Some 1%float)]
  /\ status_writes (snd (convert_edf_to_edfplus decimal_float two_file_input))
     = [("data/5774131_20130701_1000_a.xlsx", 4%nat, INCLUDED);
        ("data/5774131_20130701_1000_b.xlsx", 1%nat, EXCLUDED_OUT_OF_RANGE)]
  /\ ~ In ("data/5774131_20130701_1000_a.xlsx", 1%nat, EXCLUDED_OUT_OF_RANGE)
          (status_writes
             (snd (convert_edf_to_edfplus decimal_float two_file_input)))
  /\ ~ In ("data/5774131_20130701_1000_b.xlsx", 4%nat, INCLUDED)
          (status_writes
             (snd (convert_edf_to_edfplus decimal_float two_file_input))).
Proof.
  assert (Hwrites :
            status_writes
              (snd (convert_edf_to_edfplus decimal_float two_file_input))
            = [("data/5774131_20130701_1000_a.xlsx", 4%nat, INCLUDED);
               ("data/5774131_20130701_1000_b.xlsx", 1%nat, EXCLUDED_OUT_OF_RANGE)])
    by (vm_compute; reflexivity).
  split; [vm_compute; reflexivity |].
  split; [vm_compute; reflexivity |].
  split; [exact Hwrites |].
  rewrite Hwrites.
  split; intros [H | [H | []]]; discriminate H.
Qed.

(** ** The events of a conversion carry relative times *)

Section Anchored.

Variable py_float : string -> option float.

Lemma load_rows_anchored (reference : float) (rows : DataFrame) :
  forall i events,
    load_rows py_float (Some reference) i rows = inr events ->
    Forall carries_relative_time events.
Proof.
  induction rows as [| row rows IH]; intros i events Hrun; simpl in Hrun.
  - inversion Hrun. constructor.
  - apply bind_inr in Hrun as (c2 & _ & Hrun).
    apply bind_inr in Hrun as (c3 & _ & Hrun).
    apply bind_inr in Hrun as (rest & Hrest & Hrun).
    apply IH in Hrest.
    destruct (_ && _); inversion Hrun; subst; [| assumption].
    constructor; [| assumption]. eexists. reflexivity.
Qed.

Lemma load_excel_events_anchored (reference : float) (df : DataFrame) :
  Forall carries_relative_time (load_excel_events py_float df (Some reference)).
Proof.
  unfold load_excel_events.
  destruct (load_rows _ _ _ _) as [e | events] eqn:Hrun; [constructor |].
  exact (load_rows_anchored _ _ _ _ Hrun).
Qed.

Lemma load_all_events_anchored (reference : float)
  (files : list (string * DataFrame)) :
  forall all_events mapping,
    Forall carries_relative_time all_events ->
    Forall carries_relative_time
      (fst (load_all_events py_float (Some reference) files all_events mapping)).
Proof.
  induction files as [| [excel_file df] files IH]; intros all_events mapping Hall.
  - exact Hall.
  - simpl. apply IH. apply Forall_app. split; [exact Hall |].
    apply load_excel_events_anchored.
Qed.

Lemma insert_sorted_Forall (P : Event -> Prop) (event : Event)
  (sorted : list Event) :
  P event -> Forall P sorted -> Forall P (insert_sorted event sorted).
Proof.
  intros Hevent. induction 1 as [| e sorted He Hsorted IH]; simpl.
  - now repeat constructor.
  - destruct (sort_key e <? sort_key event)%float; now repeat constructor.
Qed.

Lemma sort_events_Forall (P : Event -> Prop) (events : list Event) :
  Forall P events -> Forall P (sort_events events).
Proof.
  induction 1 as [| event events Hevent _ IH]; simpl; [constructor |].
  now apply insert_sorted_Forall.
Qed.

(** Every event the conversion classifies has a relative time, whatever
    the spreadsheets hold: the reference time of the header is always
    there. *)
Lemma conversion_events_anchored (inp : ConvertInput) :
  Forall carries_relative_time
    (sort_events
       (fst (load_all_events py_float (reference_time_of py_float inp)
               (excel_files inp) [] []))).
Proof.
  apply sort_events_Forall. unfold reference_time_of. simpl.
  apply load_all_events_anchored. constructor.
Qed.

End Anchored.

(** ** Status write-back with one spreadsheet *)

Lemma dict_get_set_same (m : list (nat * string)) (k : nat) (v : string) :
  dict_get Nat.eqb (dict_set Nat.eqb m k v) k = Some v.
Proof.
  induction m as [| [k' v'] m IH]; simpl.
  - now rewrite Nat.eqb_refl.
  - destruct (Nat.eqb k' k) eqn:E; simpl.
    + now rewrite Nat.eqb_refl.
    + now rewrite E.
Qed.

Lemma dict_get_set_other (m : list (nat * string)) (k k' : nat) (v : string) :
  k <> k' ->
  dict_get Nat.eqb (dict_set Nat.eqb m k v) k' = dict_get Nat.eqb m k'.
Proof.
  intros Hne. apply Nat.eqb_neq in Hne.
  induction m as [| [k0 v0] m IH]; simpl.
  - now rewrite Hne.
  - destruct (Nat.eqb k0 k) eqn:E; simpl.
    + apply Nat.eqb_eq in E. subst k0. now rewrite Hne.
    + now rewrite IH.
Qed.

(** Setting every key of a list to one value. *)
Lemma set_all_get (file : string) (keys : list nat) :
  forall (m : list (nat * string)) (k : nat),
    In k keys \/ dict_get Nat.eqb m k = Some file ->
    dict_get Nat.eqb
      (fold_left (fun d key => dict_set Nat.eqb d key file) keys m) k
    = Some file.
Proof.
  induction keys as [| key keys IH]; intros m k H; simpl.
  - destruct H as [[] | H]; exact H.
  - apply IH. destruct (Nat.eq_dec key k) as [-> | Hne].
    + right. apply dict_get_set_same.
    + destruct H as [[Heq | Hin] | Hm]; [contradiction | now left |].
      right. now rewrite dict_get_set_other.
Qed.

Lemma in_enumerate_from {A} (l : list A) :
  forall (j i : nat) (a : A),
    nth_error l i = Some a -> In ((j + i)%nat, a) (enumerate_from j l).
Proof.
  induction l as [| b l IH]; intros j i a Hnth; [now destruct i |].
  destruct i as [| i]; simpl in *.
  - injection Hnth as ->. left. now rewrite Nat.add_0_r.
  - right. replace (j + S i)%nat with (S j + i)%nat by lia. now apply IH.
Qed.

(** An event is found at its own position when no earlier event has its
    row index. *)
Lemma index_from_self (event : Event) (events : list Event) :
  forall self j,
    (j <= self)%nat ->
    nth_error events (self - j) = Some event ->
    (forall i e, (i < self - j)%nat -> nth_error events i = Some e ->
                 row_index e <> row_index event) ->
    index_from event self j events = self.
Proof.
  induction events as [| e events IH]; intros self j Hle Hnth Hdistinct.
  - destruct (self - j)%nat; discriminate.
  - simpl. destruct (Nat.eqb_spec j self) as [-> | Hne]; [reflexivity |].
    assert (Hpos : (self - j = S (self - S j))%nat) by lia.
    assert (Hfalse : event_eqb e event = false).
    { unfold event_eqb.
      replace (Nat.eqb (row_index e) (row_index event)) with false;
        [apply andb_false_r |].
      symmetry. apply Nat.eqb_neq. apply (Hdistinct 0%nat); [lia | reflexivity]. }
    rewrite Hfalse. simpl. apply IH; [lia | |].
    + rewrite Hpos in Hnth. exact Hnth.
    + intros i e' Hi He'. apply (Hdistinct (S i)); [lia | exact He'].
Qed.

Lemma distinct_row_indices (events : list Event) (i j : nat) (e e' : Event) :
  NoDup (map row_index events) ->
  nth_error events i = Some e ->
  nth_error events j = Some e' ->
  i <> j ->
  row_index e <> row_index e'.
Proof.
  intros Hnodup Hi Hj Hne Heq. apply Hne.
  rewrite NoDup_nth_error in Hnodup. apply Hnodup.
  - rewrite length_map. apply nth_error_Some. congruence.
  - rewrite !nth_error_map, Hi, Hj. simpl. now rewrite Heq.
Qed.

(** With one file, every position of the event list is mapped to it. *)
Lemma map_events_to_file_covers (excel_file : string) (events : list Event)
  (i : nat) :
  NoDup (map row_index events) ->
  (i < List.length events)%nat ->
  dict_get Nat.eqb
    (map_events_to_file excel_file events (List.length events) []) i
  = Some excel_file.
Proof.
  intros Hnodup Hi. unfold map_events_to_file.
  set (key := fun entry : nat * Event =>
                (List.length events - List.length events
                 + list_index events (fst entry) (snd entry))%nat).
  assert (Hfold : forall entries m,
             fold_left
               (fun m entry =>
                  let '(self, event) := entry : nat * Event in
                  dict_set Nat.eqb m
                    (List.length events - List.length events
                     + list_index events self event) excel_file) entries m
             = fold_left (fun d k => dict_set Nat.eqb d k excel_file)
                         (map key entries) m).
  { induction entries as [| [self event] entries IH]; intros m;
      [reflexivity | simpl; apply IH]. }
  rewrite Hfold. apply set_all_get. left.
  destruct (nth_error events i) as [event |] eqn:Hnth;
    [| apply nth_error_None in Hnth; lia].
  apply in_map_iff. exists (i, event). split.
  - unfold key, list_index. simpl. rewrite Nat.sub_diag. simpl.
    apply index_from_self; [lia | now rewrite Nat.sub_0_r |].
    intros j e Hj He. rewrite Nat.sub_0_r in Hj.
    apply (distinct_row_indices events j i); try assumption. lia.
  - apply (in_enumerate_from events 0 i event Hnth).
Qed.

(** The rows of one spreadsheet give events with increasing row indices. *)
Lemma load_rows_row_indices (py_float : string -> option float)
  (reference_time : option float) (rows : DataFrame) :
  forall i events,
    load_rows py_float reference_time i rows = inr events ->
    Forall (fun event => (i <= row_index event)%nat) events
    /\ NoDup (map row_index events).
Proof.
  induction rows as [| row rows IH]; intros i events Hrun; simpl in Hrun.
  - inversion Hrun. split; constructor.
  - apply bind_inr in Hrun as (c2 & _ & Hrun).
    apply bind_inr in Hrun as (c3 & _ & Hrun).
    apply bind_inr in Hrun as (rest & Hrest & Hrun).
    destruct (IH _ _ Hrest) as [Hlow Hnodup].
    assert (Hlow' : Forall (fun event => (i <= row_index event)%nat) rest).
    { revert Hlow. apply Forall_impl. intros e He. lia. }
    destruct (_ && _); inversion Hrun; subst; [| now split].
    split; [now constructor |].
    simpl. constructor; [| exact Hnodup].
    intros Hin. apply in_map_iff in Hin as (e & He & Hin).
    rewrite Forall_forall in Hlow. specialize (Hlow e Hin). lia.
Qed.

Lemma load_excel_events_row_indices (py_float : string -> option float)
  (df : DataFrame) (reference_time : option float) :
  NoDup (map row_index (load_excel_events py_float df reference_time)).
Proof.
  unfold load_excel_events.
  destruct (load_rows _ _ _ _) as [e | events] eqn:Hrun; [constructor |].
  exact (proj2 (load_rows_row_indices _ _ _ _ _ Hrun)).
Qed.

(** The sort reorders and loses nothing. *)
Lemma insert_sorted_permutation (event : Event) (sorted : list Event) :
  Permutation (insert_sorted event sorted) (event :: sorted).
Proof.
  induction sorted as [| e sorted IH]; simpl; [reflexivity |].
  destruct (sort_key e <? sort_key event)%float; [| reflexivity].
  rewrite IH. apply perm_swap.
Qed.

Lemma sort_events_permutation (events : list Event) :
  Permutation (sort_events events) events.
Proof.
  induction events as [| event events IH]; simpl; [reflexivity |].
  rewrite insert_sorted_permutation. now constructor.
Qed.

Lemma collect_step_single (excel_file : string) (done : list StatusUpdate)
  (u : StatusUpdate) :
  dict_set String.eqb (file_updates excel_file done) excel_file
    (match dict_get String.eqb (file_updates excel_file done) excel_file with
     | Some l => l
     | None => []
     end ++ [u])%list
  = file_updates excel_file (done ++ [u])%list.
Proof.
  destruct done as [| d done]; simpl; [reflexivity |].
  now rewrite String.eqb_refl.
Qed.

Lemma skipn_cons_nth_error {A} (l : list A) :
  forall (k : nat) (a : A),
    nth_error l k = Some a -> skipn k l = a :: skipn (S k) l.
Proof.
  induction l as [| b l IH]; intros k a Hnth; [now destruct k |].
  destruct k as [| k]; simpl in *; [now injection Hnth as -> |].
  now apply IH.
Qed.

(** The write-back loop from position [k] on, when every position is
    mapped to one file. *)
Lemma collect_from_single (excel_file : string)
  (sorted : list Event) (mapping : list (nat * string)) :
  excel_file <> "" ->
  (forall i, (i < List.length sorted)%nat ->
             dict_get Nat.eqb mapping i = Some excel_file) ->
  forall statuses k done,
    (k + List.length statuses <= List.length sorted)%nat ->
    fold_left (record_status_update sorted mapping)
              (enumerate_from k statuses) (file_updates excel_file done)
    = file_updates excel_file
        (done ++ map update_of (combine (skipn k sorted) statuses))%list.
Proof.
  intros Hname Hmap. apply String.eqb_neq in Hname.
  induction statuses as [| status statuses IH]; intros k done Hk.
  - simpl. now rewrite combine_nil, app_nil_r.
  - simpl in Hk. cbn [enumerate_from fold_left].
    destruct (nth_error sorted k) as [event |] eqn:Hevent;
      [| apply nth_error_None in Hevent; lia].
    unfold record_status_update at 2.
    rewrite Hevent, Hmap, Hname by lia.
    rewrite collect_step_single, IH by lia.
    f_equal. rewrite <- app_assoc. f_equal.
    rewrite (skipn_cons_nth_error _ _ _ Hevent). reflexivity.
Qed.

Lemma collect_status_updates_single (excel_file : string)
  (sorted : list Event) (mapping : list (nat * string))
  (statuses : list Status) :
  excel_file <> "" ->
  (forall i, (i < List.length sorted)%nat ->
             dict_get Nat.eqb mapping i = Some excel_file) ->
  (List.length statuses <= List.length sorted)%nat ->
  collect_status_updates sorted mapping statuses
  = file_updates excel_file (map update_of (combine sorted statuses)).
Proof.
  intros Hname Hmap Hlen.
  exact (collect_from_single excel_file sorted mapping Hname Hmap
           statuses 0 [] Hlen).
Qed.

Lemma combine_with_image {A B} (g : A -> B) (l : list A) :
  combine l (map g l) = map (fun a => (a, g a)) l.
Proof.
  induction l as [| a l IH]; simpl; [reflexivity | now rewrite IH].
Qed.

Lemma write_file_updates (excel_file : string) (updates : list StatusUpdate) :
  flat_map (fun entry => update_excel_event_status (fst entry) (snd entry))
           (file_updates excel_file updates)
  = update_excel_event_status excel_file updates.
Proof.
  destruct updates as [| u updates]; [reflexivity |].
  cbn [file_updates flat_map fst snd]. apply app_nil_r.
Qed.

(** With a single spreadsheet the write-back is as intended: after the
    sort, every retained event has its status written once, in that file,
    on the sheet row of its own row index. *)
Lemma single_file_write_back (py_float : string -> option float)
  (excel_file : string) (df : DataFrame) (reference : float)
  (zps : option float) (actual_duration : float) :
  excel_file <> "" ->
  exists st,
    classify_events zps actual_duration initial_state
      (sort_events (load_excel_events py_float df (Some reference))) = inr st
    /\ flat_map (fun entry => update_excel_event_status (fst entry) (snd entry))
         (collect_status_updates
            (sort_events (load_excel_events py_float df (Some reference)))
            (snd (load_all_events py_float (Some reference)
                    [(excel_file, df)] [] []))
            (event_status st))
       = map (fun event =>
                WriteCell excel_file (row_index event + 1) 6
                          (status_of zps actual_duration event))
             (sort_events (load_excel_events py_float df (Some reference)))
    /\ Permutation
         (sort_events (load_excel_events py_float df (Some reference)))
         (load_excel_events py_float df (Some reference)).
Proof.
  intros Hname.
  set (events := load_excel_events py_float df (Some reference)).
  assert (Hanchored : Forall carries_relative_time (sort_events events))
    by (apply sort_events_Forall, load_excel_events_anchored).
  assert (Hperm := sort_events_permutation events).
  eexists.
  split; [exact (classify_events_relative _ _ _ Hanchored _) |].
  split; [| exact Hperm].
  cbn [event_status initial_state app load_all_events snd].
  fold events.
  rewrite (collect_status_updates_single excel_file).
  - rewrite write_file_updates, combine_with_image.
    unfold update_excel_event_status. rewrite !map_map. reflexivity.
  - exact Hname.
  - intros i Hi. rewrite (Permutation_length Hperm) in Hi.
    apply map_events_to_file_covers; [| exact Hi].
    apply load_excel_events_row_indices.
  - now rewrite length_map.
Qed.

(** ** Rows with a short timestamp *)

(** C10.  A row whose trimmed time cell holds a colon but splits into
    fewer than three fields, and whose label is non-empty (trimmed, it is
    neither empty nor the text of an empty cell), is retained: its time
    of day is 0.0, its relative time is 0.0 minus the reference time and
    it keeps its row index.  In the classification loop it gets the
    status that [classify] gives this relative time, as every event does,
    and the write-back of its spreadsheet puts that status on its sheet
    row. *)
Theorem short_timestamp_row_retained
  (py_float : string -> option float) (df : DataFrame) (anchor : float)
  (i : nat) (row : list Cell) (c2 c3 : Cell) :
  Forall (fun r => (4 <= List.length r)%nat) (drop_first_empty_row df) ->
  nth_error (drop_first_empty_row df) i = Some row ->
  nth_error row 2 = Some c2 ->
  nth_error row 3 = Some c3 ->
  contains_char ":" (strip (str_cell c2)) = true ->
  (List.length (split_on ":" (strip (str_cell c2))) < 3)%nat ->
  valid_event (strip (str_cell c3)) = true ->
  parse_time_to_seconds py_float (strip (str_cell c2)) = 0%float
  /\ In {| time := strip (str_cell c2);
           time_seconds := 0%float;
           relative_time := Some (0 - anchor)%float;
           event_type := strip (str_cell c3);
           row_index := i |}
        (load_excel_events py_float df (Some anchor))
  /\ (forall zps actual_duration events k,
         Forall carries_relative_time events ->
         nth_error events k
         = Some {| time := strip (str_cell c2);
                   time_seconds := 0%float;
                   relative_time := Some (0 - anchor)%float;
                   event_type := strip (str_cell c3);
                   row_index := i |} ->
         exists st,
           classify_events zps actual_duration initial_state events = inr st
           /\ nth_error (event_status st) k
              = Some (fst (classify zps actual_duration (0 - anchor)%float)))
  /\ (forall excel_file zps actual_duration,
         excel_file <> "" ->
         exists st,
           classify_events zps actual_duration initial_state
             (sort_events (load_excel_events py_float df (Some anchor))) = inr st
           /\ In (WriteCell excel_file (i + 1) 6
                    (fst (classify zps actual_duration (0 - anchor)%float)))
                 (flat_map
                    (fun entry =>
                       update_excel_event_status (fst entry) (snd entry))
                    (collect_status_updates
                       (sort_events (load_excel_events py_float df (Some anchor)))
                       (snd (load_all_events py_float (Some anchor)
                               [(excel_file, df)] [] []))
                       (event_status st)))).
Proof.
  intros Hframe Hrow Hc2 Hc3 Htime Hshort Hvalid.
  pose proof (parse_time_to_seconds_short py_float _ Hshort) as Hzero.
  assert (Hin : In {| time := strip (str_cell c2);
                      time_seconds := 0%float;
                      relative_time := Some (0 - anchor)%float;
                      event_type := strip (str_cell c3);
                      row_index := i |}
                   (load_excel_events py_float df (Some anchor))).
  { unfold load_excel_events.
    destruct (load_rows_retains py_float (Some anchor) _ Hframe 0 i row c2 c3
                Hrow Hc2 Hc3 Htime Hvalid) as (events & -> & Hin).
    simpl in Hin. now rewrite Hzero in Hin. }
  split; [exact Hzero | split; [exact Hin | split]].
  - intros zps actual_duration events k Hall Hk.
    eexists. split; [exact (classify_events_relative _ _ _ Hall _) |].
    simpl. rewrite nth_error_map, Hk. reflexivity.
  - intros excel_file zps actual_duration Hname.
    destruct (single_file_write_back py_float excel_file df anchor zps
                actual_duration Hname) as (st & Hst & Hwrites & Hperm).
    exists st. split; [exact Hst |].
    rewrite Hwrites.
    apply (Permutation_in _ (Permutation_sym Hperm)) in Hin.
    apply in_map_iff. eexists. split; [| exact Hin]. reflexivity.
Qed.

Lemma short_timestamp_row_retained_witness :
  In {| time := "12:34"; time_seconds := 0%float;
        relative_time := Some (0 - 36000)%float;
        event_type := "Seizure"; row_index := 1 |}
     (load_excel_events decimal_float
        [note_row "ward B"; event_row " 12:34" "Seizure "] (Some 36000%float)).
Proof.
  apply (short_timestamp_row_retained decimal_float
           [note_row "ward B"; event_row " 12:34" "Seizure "] 36000%float 1
           (event_row " 12:34" "Seizure ") (Some " 12:34") (Some "Seizure "));
    try reflexivity.
  - repeat constructor.
  - vm_compute. lia.
Defined.

(** ** The order of floats through ranks *)

Lemma SFcompare_rank (a b : spec_float) :
  SFcompare a b
  = match SFrank a, SFrank b with
    | Some ra, Some rb => Some (lex3 ra rb)
    | _, _ => None
    end.
Proof.
  destruct a as [sa | sa | | sa ma ea], b as [sb | sb | | sb mb eb];
    simpl; try reflexivity;
    try (destruct sa; reflexivity); try (destruct sb; reflexivity);
    try (destruct sa, sb; reflexivity).
  destruct sa, sb; simpl; try reflexivity.
  rewrite Z.compare_opp, (Z.compare_antisym ea eb).
  destruct (ea ?= eb)%Z; reflexivity.
Qed.

Lemma lex3_le_iff (a b : Z * Z * Z) :
  lex3_le a b <-> lex3 a b <> Gt.
Proof.
  destruct a as [[a1 a2] a3], b as [[b1 b2] b3]. unfold lex3_le, lex3.
  destruct (Z.compare_spec a1 b1) as [E1 | L1 | G1],
    (Z.compare_spec a2 b2) as [E2 | L2 | G2],
    (Z.compare_spec a3 b3) as [E3 | L3 | G3];
    split; intros Hyp; try discriminate; try lia;
    try (exfalso; apply Hyp; reflexivity).
Qed.

Lemma lex3_lt_iff (a b : Z * Z * Z) :
  lex3_lt a b <-> lex3 a b = Lt.
Proof.
  destruct a as [[a1 a2] a3], b as [[b1 b2] b3]. unfold lex3_lt, lex3.
  destruct (Z.compare_spec a1 b1) as [E1 | L1 | G1],
    (Z.compare_spec a2 b2) as [E2 | L2 | G2],
    (Z.compare_spec a3 b3) as [E3 | L3 | G3];
    split; intros Hyp; try discriminate; try lia; try reflexivity.
Qed.

(** [<=] and [<] on floats are the orders of the ranks. *)
Lemma leb_rank (x y : float) :
  (x <=? y)%float = true
  <-> exists rx ry, rank x = Some rx /\ rank y = Some ry /\ lex3_le rx ry.
Proof.
  rewrite leb_spec. unfold SFleb, rank. rewrite SFcompare_rank.
  destruct (SFrank (Prim2SF x)) as [rx |], (SFrank (Prim2SF y)) as [ry |];
    try (split; [discriminate | intros (? & ? & ? & ? & ?); discriminate]).
  split.
  - intros H. exists rx, ry. repeat split. apply lex3_le_iff.
    destruct (lex3 rx ry); congruence.
  - intros (rx' & ry' & Hx & Hy & Hle). injection Hx as <-. injection Hy as <-.
    apply lex3_le_iff in Hle. destruct (lex3 rx ry); congruence.
Qed.

Lemma ltb_rank (x y : float) :
  (x <? y)%float = true
  <-> exists rx ry, rank x = Some rx /\ rank y = Some ry /\ lex3_lt rx ry.
Proof.
  rewrite ltb_spec. unfold SFltb, rank. rewrite SFcompare_rank.
  destruct (SFrank (Prim2SF x)) as [rx |], (SFrank (Prim2SF y)) as [ry |];
    try (split; [discriminate | intros (? & ? & ? & ? & ?); discriminate]).
  split.
  - intros H. exists rx, ry. repeat split. apply lex3_lt_iff.
    destruct (lex3 rx ry); congruence.
  - intros (rx' & ry' & Hx & Hy & Hlt). injection Hx as <-. injection Hy as <-.
    apply lex3_lt_iff in Hlt. now rewrite Hlt.
Qed.

Lemma lex3_le_trans (a b c : Z * Z * Z) :
  lex3_le a b -> lex3_le b c -> lex3_le a c.
Proof.
  destruct a as [[a1 a2] a3], b as [[b1 b2] b3], c as [[c1 c2] c3].
  unfold lex3_le. lia.
Qed.

Lemma lex3_total (a b : Z * Z * Z) : lex3_le a b \/ lex3_lt b a.
Proof.
  destruct a as [[a1 a2] a3], b as [[b1 b2] b3]. unfold lex3_le, lex3_lt. lia.
Qed.

Lemma leb_trans (x y z : float) :
  (x <=? y)%float = true -> (y <=? z)%float = true -> (x <=? z)%float = true.
Proof.
  rewrite !leb_rank.
  intros (rx & ry & Hx & Hy & Hxy) (ry' & rz & Hy' & Hz & Hyz).
  rewrite Hy in Hy'. injection Hy' as <-.
  exists rx, rz. repeat split; try assumption.
  exact (lex3_le_trans _ _ _ Hxy Hyz).
Qed.

(** Among numbers, what is not strictly above is at or below. *)
Lemma not_ltb_leb (x y : float) :
  (x <=? x)%float = true -> (y <=? y)%float = true ->
  (y <? x)%float = false -> (x <=? y)%float = true.
Proof.
  intros Hx Hy Hlt.
  apply leb_rank in Hx as (rx & _ & Hrx & _ & _).
  apply leb_rank in Hy as (ry & _ & Hry & _ & _).
  apply leb_rank. exists rx, ry. repeat split; try assumption.
  destruct (lex3_total rx ry) as [Hle | Hgt]; [exact Hle |].
  assert (Hyx : (y <? x)%float = true)
    by (apply ltb_rank; now exists ry, rx).
  congruence.
Qed.

Lemma ltb_leb (x y : float) :
  (x <? y)%float = true -> (x <=? y)%float = true.
Proof.
  rewrite ltb_rank, leb_rank. intros (rx & ry & Hx & Hy & Hlt).
  exists rx, ry. repeat split; try assumption.
  destruct rx as [[a1 a2] a3], ry as [[b1 b2] b3].
  unfold lex3_lt in Hlt. unfold lex3_le. lia.
Qed.

(** Either side of a comparison that holds is a number. *)
Lemma leb_left_number (x y : float) :
  (x <=? y)%float = true -> (x <=? x)%float = true.
Proof.
  rewrite !leb_rank. intros (rx & ry & Hx & _ & _).
  exists rx, rx. repeat split; try assumption.
  destruct rx as [[a1 a2] a3]. unfold lex3_le. lia.
Qed.

Lemma leb_right_number (x y : float) :
  (x <=? y)%float = true -> (y <=? y)%float = true.
Proof.
  rewrite !leb_rank. intros (rx & ry & _ & Hy & _).
  exists ry, ry. repeat split; try assumption.
  destruct ry as [[a1 a2] a3]. unfold lex3_le. lia.
Qed.

Lemma ltb_leb_trans (x y z : float) :
  (x <? y)%float = true -> (y <=? z)%float = true -> (x <? z)%float = true.
Proof.
  rewrite !ltb_rank, leb_rank.
  intros (rx & ry & Hx & Hy & Hxy) (ry' & rz & Hy' & Hz & Hyz).
  rewrite Hy in Hy'. injection Hy' as <-.
  exists rx, rz. repeat split; try assumption.
  destruct rx as [[a1 a2] a3], ry as [[b1 b2] b3], rz as [[c1 c2] c3].
  unfold lex3_lt, lex3_le in *. lia.
Qed.

(** ** Emitted annotations stay inside the recording *)

(** The onset that [classify] emits. *)
Lemma classify_onset_bounds (zps : option float) (actual_duration rel : float)
  (status : Status) (at_onset : float) :
  (0 <=? actual_duration)%float = true ->
  classify zps actual_duration rel = (status, Some at_onset) ->
  status = INCLUDED
  /\ (0 <=? at_onset)%float = true
  /\ (at_onset <=? actual_duration)%float = true
  /\ (at_onset <=? rel)%float = true
  /\ forall start, zps = Some start -> (start <=? at_onset)%float = false.
Proof.
  intros Hdur. unfold classify, float_ge, float_gt.
  destruct (in_zero_padding zps rel) eqn:Hpad; [discriminate |].
  destruct ((0 <=? rel)%float && (rel <=? actual_duration + tolerance)%float)
    eqn:Hwin; [| discriminate].
  apply andb_true_iff in Hwin as [Hlow Hhigh].
  pose proof (leb_right_number _ _ Hlow) as Hrel.
  pose proof (leb_right_number _ _ Hdur) as Hnum.
  intros Hc. injection Hc as <- <-.
  destruct (actual_duration <? rel)%float eqn:Hclamp.
  - repeat split; try assumption.
    + now apply ltb_leb.
    + intros start -> . unfold in_zero_padding, float_ge in Hpad.
      destruct (start <=? actual_duration)%float eqn:Hs; [| reflexivity].
      rewrite (leb_trans _ _ _ Hs (ltb_leb _ _ Hclamp)) in Hpad. discriminate.
  - repeat split; try assumption.
    + now apply not_ltb_leb.
    + intros start ->. exact Hpad.
Qed.

(** One pass of the loop keeps the three lists in step and only adds an
    annotation that [classify] emitted. *)
Lemma classify_event_emits (zps : option float) (actual_duration : float)
  (st st' : LoopState) (event : Event) :
  classify_event zps actual_duration st event = inr st' ->
  (onsets st' = onsets st /\ durations st' = durations st
   /\ descriptions st' = descriptions st)
  \/ exists rel status at_onset,
       classify zps actual_duration rel = (status, Some at_onset)
       /\ onsets st' = (onsets st ++ [at_onset])%list
       /\ durations st' = (durations st ++ [0%float])%list
       /\ descriptions st' = (descriptions st ++ [event_type event])%list.
Proof.
  unfold classify_event. intros Hrun.
  apply bind_inr in Hrun as ([rel ref] & _ & Hrun).
  destruct (classify zps actual_duration rel) as [status [at_onset |]] eqn:Hc;
    inversion Hrun; subst; simpl.
  - right. exists rel, status, at_onset. repeat split. exact Hc.
  - left. repeat split.
Qed.

Lemma make_annotations_snoc (os ds : list float) (descs : list string)
  (o d : float) (s : string) :
  List.length ds = List.length os ->
  List.length descs = List.length os ->
  make_annotations (os ++ [o]) (ds ++ [d]) (descs ++ [s])
  = (make_annotations os ds descs
     ++ [{| onset := o; annotation_duration := d; description := s |}])%list.
Proof.
  revert ds descs.
  induction os as [| o' os IH]; intros [| d' ds] [| s' descs] Hd Hs;
    try discriminate; simpl; [reflexivity |].
  f_equal. apply IH; simpl in *; lia.
Qed.

(** The loop from any state whose lists are in step. *)
Lemma classify_events_inside (zps : option float) (actual_duration : float)
  (events : list Event) :
  (0 <=? actual_duration)%float = true ->
  forall st st',
    classify_events zps actual_duration st events = inr st' ->
    List.length (durations st) = List.length (onsets st) ->
    List.length (descriptions st) = List.length (onsets st) ->
    Forall (inside_recording zps actual_duration)
           (make_annotations (onsets st) (durations st) (descriptions st)) ->
    List.length (durations st') = List.length (onsets st')
    /\ List.length (descriptions st') = List.length (onsets st')
    /\ Forall (inside_recording zps actual_duration)
              (make_annotations (onsets st') (durations st') (descriptions st')).
Proof.
  intros Hdur.
  induction events as [| event events IH]; intros st st' Hrun Hd Hs Hall.
  - inversion Hrun; subst. now repeat split.
  - simpl in Hrun. apply bind_inr in Hrun as (st1 & Hstep & Hrun).
    apply (IH _ _ Hrun);
      destruct (classify_event_emits _ _ _ _ _ Hstep)
        as [(Ho & Hdd & Hss) | (rel & status & o & Hc & Ho & Hdd & Hss)];
      rewrite ?Ho, ?Hdd, ?Hss; try assumption; rewrite ?length_app; simpl;
      try lia.
    rewrite make_annotations_snoc by assumption.
    apply Forall_app. split; [exact Hall |]. constructor; [| constructor].
    destruct (classify_onset_bounds _ _ _ _ _ Hdur Hc)
      as (_ & Hlow & Hhigh & _ & Hpad).
    unfold inside_recording. simpl. now repeat split.
Qed.

(** X1.  Whatever the events are, with or without a reference time, a
    loop that completes on a recording of non-negative duration emits only
    point events whose onset lies between 0 and the duration and, when the
    data were padded, before the start of the padding. *)
Theorem annotations_inside_recording
  (zps : option float) (actual_duration : float) (events : list Event)
  (st : LoopState) :
  (0 <=? actual_duration)%float = true ->
  classify_events zps actual_duration initial_state events = inr st ->
  Forall (inside_recording zps actual_duration)
         (make_annotations (onsets st) (durations st) (descriptions st)).
Proof.
  intros Hdur Hrun.
  apply (classify_events_inside zps actual_duration events Hdur
           initial_state st Hrun); try reflexivity.
  constructor.
Qed.

Lemma annotations_inside_recording_witness :
  Forall (inside_recording (Some 18%float) 60%float)
    [{| onset := 0%float; annotation_duration := 0%float;
        description := "Onset" |};
     {| onset := 15%float; annotation_duration := 0%float;
        description := "Spike" |}].
Proof.
  apply (annotations_inside_recording (Some 18%float) 60%float unanchored_events
           {| onsets := [0; 15]%float; durations := [0; 0]%float;
              descriptions := ["Onset"; "Spike"];
              event_status := [INCLUDED; INCLUDED; EXCLUDED_ZERO_PADDING];
              ref_time := Some 36005%float |});
    vm_compute; reflexivity.
Defined.

(** ** The sort and the order of annotations *)

Lemma insert_sorted_strongly (event : Event) (sorted : list Event) :
  key_is_number event ->
  Forall key_is_number sorted ->
  StronglySorted key_le sorted ->
  StronglySorted key_le (insert_sorted event sorted).
Proof.
  intros Hevent Hnum Hsorted.
  induction Hsorted as [| e sorted Hsorted IH Hall]; simpl.
  - repeat constructor.
  - inversion Hnum as [| ? ? He Hrest]; subst.
    destruct (sort_key e <? sort_key event)%float eqn:Hlt.
    + constructor; [now apply IH |].
      apply insert_sorted_Forall; [| exact Hall].
      unfold key_le. now apply ltb_leb.
    + assert (Hle : key_le event e) by (now apply not_ltb_leb).
      constructor; [now constructor |].
      constructor; [exact Hle |].
      revert Hall. apply Forall_impl. intros e' He'. unfold key_le in *.
      exact (leb_trans _ _ _ Hle He').
Qed.

(** On keys that are numbers the sort returns its events in ascending
    order of key. *)
Lemma sort_events_sorted (events : list Event) :
  Forall key_is_number events -> StronglySorted key_le (sort_events events).
Proof.
  induction 1 as [| event events Hevent Hrest IH]; simpl; [constructor |].
  apply insert_sorted_strongly; [exact Hevent | | exact IH].
  now apply sort_events_Forall.
Qed.

Lemma emitted_monotone (zps : option float) (actual_duration : float)
  (e1 e2 : Event) (a1 a2 : Annotation) :
  key_le e1 e2 ->
  In a1 (emitted zps actual_duration e1) ->
  In a2 (emitted zps actual_duration e2) ->
  onset_le a1 a2.
Proof.
  unfold emitted, classify, float_ge, float_gt, key_le, onset_le.
  intros Hle H1 H2.
  destruct (in_zero_padding zps (sort_key e1)); [contradiction |].
  destruct (in_zero_padding zps (sort_key e2)); [contradiction |].
  destruct ((0 <=? sort_key e1)%float
            && (sort_key e1 <=? actual_duration + tolerance)%float);
    [| contradiction].
  destruct ((0 <=? sort_key e2)%float
            && (sort_key e2 <=? actual_duration + tolerance)%float) eqn:Hwin;
    [| contradiction].
  destruct H1 as [<- | []]. destruct H2 as [<- | []]. simpl.
  destruct (actual_duration <? sort_key e1)%float eqn:Hc1.
  - rewrite (ltb_leb_trans _ _ _ Hc1 Hle).
    exact (leb_left_number _ _ (ltb_leb _ _ Hc1)).
  - destruct (actual_duration <? sort_key e2)%float eqn:Hc2; [| exact Hle].
    apply not_ltb_leb; try assumption.
    + exact (leb_left_number _ _ Hle).
    + exact (leb_left_number _ _ (ltb_leb _ _ Hc2)).
Qed.

Lemma emitted_sorted (zps : option float) (actual_duration : float)
  (events : list Event) :
  StronglySorted key_le events ->
  StronglySorted onset_le (flat_map (emitted zps actual_duration) events).
Proof.
  induction 1 as [| event events Hsorted IH Hall]; simpl; [constructor |].
  assert (Hhead : forall a, In a (emitted zps actual_duration event) ->
                            Forall (onset_le a)
                              (flat_map (emitted zps actual_duration) events)).
  { intros a Ha. apply Forall_forall. intros b Hb.
    apply in_flat_map in Hb as (e' & He' & Hb).
    rewrite Forall_forall in Hall.
    exact (emitted_monotone _ _ _ _ _ _ (Hall _ He') Ha Hb). }
  unfold emitted in *.
  destruct (snd (classify zps actual_duration (sort_key event)))
    as [at_onset |]; simpl; [| exact IH].
  constructor; [exact IH |]. apply Hhead. now left.
Qed.

(** X2.  When every event carries a relative time that is a number, the
    annotations produced by sorting the events and running the loop are
    in ascending order of onset. *)
Theorem annotations_ascending
  (zps : option float) (actual_duration : float) (events : list Event) :
  Forall carries_relative_time events ->
  Forall key_is_number events ->
  exists st,
    classify_events zps actual_duration initial_state (sort_events events)
    = inr st
    /\ StronglySorted onset_le
         (make_annotations (onsets st) (durations st) (descriptions st)).
Proof.
  intros Hrel Hnum.
  assert (Hsorted_rel := sort_events_Forall _ _ Hrel).
  eexists.
  split; [exact (classify_events_relative _ _ _ Hsorted_rel _) |].
  cbn [onsets durations descriptions initial_state app].
  rewrite make_annotations_of_fields.
  apply emitted_sorted. now apply sort_events_sorted.
Qed.

Lemma annotations_ascending_witness :
  exists st,
    classify_events None 60%float initial_state (sort_events anchored_events)
    = inr st
    /\ StronglySorted onset_le
         (make_annotations (onsets st) (durations st) (descriptions st)).
Proof.
  apply (annotations_ascending None 60%float anchored_events).
  - repeat constructor; eexists; reflexivity.
  - repeat constructor.
Defined.

(** ** Repairing twice *)

(** The repair on data that already have the target count. *)
Lemma reconcile_duration_at_target (header_duration : float) (raw : Raw)
  (measured : float) :
  times_last raw = inr measured ->
  (float_gt (abs (measured - header_duration)%float) 0.01 = true ->
   target_sample_count header_duration raw = inr (Z.of_nat (n_times raw))) ->
  reconcile_duration header_duration raw
  = inr {| repaired := raw; zero_padding_start := None; action := NoAction |}.
Proof.
  intros Hlast Htarget.
  destruct (float_gt (abs (measured - header_duration)%float) 0.01) eqn:Hdiff.
  - rewrite (reconcile_duration_mismatch _ _ _ _ Hlast Hdiff (Htarget eq_refl)).
    replace (Z.of_nat (n_times raw) >? Z.of_nat (n_times raw))%Z with false
      by (rewrite Z.gtb_ltb; symmetry; apply Z.ltb_irrefl).
    now rewrite Z.ltb_irrefl.
  - unfold reconcile_duration. rewrite Hlast. cbn [bind]. now rewrite Hdiff.
Qed.

Lemma times_last_defined (raw : Raw) :
  (0 < n_times raw)%nat -> exists measured, times_last raw = inr measured.
Proof.
  unfold times_last. destruct (n_times raw); [lia | eauto].
Qed.

(** X3.  Repairing the repaired data again, against the same header
    duration, changes nothing more: the second pass takes no action and
    returns the data as they are.  The target count, where the first pass
    computes one, has to be positive. *)
Theorem reconcile_duration_idempotent
  (header_duration : float) (raw : Raw) (r : Reconciled) :
  rectangular raw ->
  (forall t, target_sample_count header_duration raw = inr t -> (0 < t)%Z) ->
  reconcile_duration header_duration raw = inr r ->
  reconcile_duration header_duration (repaired r)
  = inr {| repaired := repaired r; zero_padding_start := None;
           action := NoAction |}.
Proof.
  intros Hrect Hpos Hrun.
  pose proof Hrun as Hfirst. unfold reconcile_duration in Hfirst.
  apply bind_inr in Hfirst as (measured & Hlast & Hfirst).
  destruct (float_gt (abs (measured - header_duration)%float) 0.01) eqn:Hdiff.
  - apply bind_inr in Hfirst as (target & Htarget & _).
    specialize (Hpos target Htarget).
    rewrite (reconcile_duration_mismatch _ _ _ _ Hlast Hdiff Htarget) in Hrun.
    injection Hrun as Hr.
    unfold rectangular in Hrect. unfold times_last in Hlast.
    destruct (raw_data raw) as [| row rows] eqn:Hdata;
      [unfold n_times in Hlast; rewrite Hdata in Hlast; discriminate |].
    assert (Hrow : List.length row = n_times raw)
      by (unfold n_times; now rewrite Hdata).
    destruct (Z.gtb_spec target (Z.of_nat (n_times raw))) as [Hgt | Hle].
    + subst r. cbn [repaired].
      assert (Hn : n_times
                     (RawArray
                        (map (fun row0 =>
                                (row0 ++ repeat 0%float
                                   (Z.to_nat (target - Z.of_nat (n_times raw))))%list)
                             (row :: rows)) (sfreq raw) (ch_names raw))
                   = Z.to_nat target).
      { unfold n_times at 1. cbn. rewrite length_app, repeat_length, Hrow. lia. }
      destruct (times_last_defined _ ltac:(rewrite Hn; lia)) as [again Hagain].
      apply (reconcile_duration_at_target _ _ again Hagain).
      intros _. rewrite Hn, Z2Nat.id by lia. exact Htarget.
    + destruct (Z.ltb_spec target (Z.of_nat (n_times raw))) as [Hlt | Hge].
      * subst r. cbn [repaired].
        assert (Hn : n_times
                       (RawArray (map (slice_to target) (row :: rows))
                                 (sfreq raw) (ch_names raw))
                     = Z.to_nat target).
        { unfold n_times at 1. cbn. unfold slice_to.
          replace (target <? 0)%Z with false by (symmetry; apply Z.ltb_ge; lia).
          rewrite length_firstn, Hrow. lia. }
        destruct (times_last_defined _ ltac:(rewrite Hn; lia)) as [again Hagain].
        apply (reconcile_duration_at_target _ _ again Hagain).
        intros _. rewrite Hn, Z2Nat.id by lia. exact Htarget.
      * subst r. cbn [repaired].
        apply (reconcile_duration_at_target _ _ measured).
        -- unfold times_last. exact Hlast.
        -- intros _. replace (Z.of_nat (n_times raw)) with target by lia.
           exact Htarget.
  - injection Hfirst as <-. cbn [repaired]. exact Hrun.
Qed.

Lemma reconcile_duration_idempotent_witness :
  reconcile_duration short_header_duration
    (RawArray [[1; 2; 3; 4; 0; 0]%float] 2.25%float ["EEG"])
  = inr {| repaired := RawArray [[1; 2; 3; 4; 0; 0]%float] 2.25%float ["EEG"];
           zero_padding_start := None; action := NoAction |}.
Proof.
  apply (reconcile_duration_idempotent short_header_duration short_raw
           {| repaired := RawArray [[1; 2; 3; 4; 0; 0]%float] 2.25%float ["EEG"];
              zero_padding_start := Some (Z_to_float 3 / 2.25)%float;
              action := Pad |}).
  - repeat constructor.
  - intros t Ht. vm_compute in Ht. injection Ht as <-. reflexivity.
  - vm_compute. reflexivity.
Defined.

(** ** What a spreadsheet yields *)

Section Sheets.

Variable py_float : string -> option float.

Lemma load_rows_exact (reference_time : option float) (rows : DataFrame) :
  Forall (fun row => (4 <= List.length row)%nat) rows ->
  forall i,
    load_rows py_float reference_time i rows
    = inr (map (event_of_row py_float reference_time)
               (filter (fun entry => retained_row (snd entry))
                       (enumerate_from i rows))).
Proof.
  induction 1 as [| row rows Hrow _ IH]; intros i; [reflexivity |].
  cbn [load_rows enumerate_from filter snd].
  destruct row as [| c0 [| c1 [| c2 [| c3 rest]]]]; simpl in Hrow; try lia.
  unfold lookup, retained_row. cbn [nth_error bind ret].
  rewrite IH. cbn [bind].
  destruct (contains_char ":" (strip (str_cell c2))
            && valid_event (strip (str_cell c3))); reflexivity.
Qed.

(** X4.  On a sheet that has columns C and D, [load_excel_events] returns
    exactly the rows whose trimmed time cell holds a colon and whose
    trimmed label is valid, in sheet order, each with its index in the
    frame (counted after a leading empty row is dropped); the other rows
    leave no trace. *)
Theorem load_excel_events_exact
  (df : DataFrame) (reference_time : option float) :
  Forall (fun row => (4 <= List.length row)%nat) (drop_first_empty_row df) ->
  load_excel_events py_float df reference_time
  = map (event_of_row py_float reference_time)
        (filter (fun entry => retained_row (snd entry))
                (enumerate (drop_first_empty_row df))).
Proof.
  intros Hframe. unfold load_excel_events, enumerate.
  now rewrite (load_rows_exact reference_time _ Hframe 0).
Qed.

Lemma load_rows_narrow (reference_time : option float) (rows : DataFrame)
  (row : list Cell) :
  In row rows -> (List.length row < 4)%nat ->
  forall i, load_rows py_float reference_time i rows = inl IndexError.
Proof.
  intros Hin Hshort.
  induction rows as [| first rows IH]; intros i; [contradiction |].
  cbn [load_rows]. unfold lookup.
  destruct Hin as [-> | Hin].
  - destruct row as [| c0 [| c1 [| c2 [| c3 rest]]]]; simpl in *;
      try reflexivity; lia.
  - destruct (nth_error first 2) as [c2 |]; [| reflexivity].
    destruct (nth_error first 3) as [c3 |]; [| reflexivity].
    cbn [bind ret]. now rewrite (IH Hin).
Qed.

(** X5.  A frame of fewer than four columns, that is without a column D,
    yields no event at all, whatever its rows hold: the index error of
    the first row is swallowed. *)
Theorem load_excel_events_narrow_sheet
  (df : DataFrame) (reference_time : option float) (width : nat) :
  frame_width df width ->
  (width < 4)%nat ->
  load_excel_events py_float df reference_time = [].
Proof.
  intros Hframe Hnarrow. unfold load_excel_events.
  destruct (drop_first_empty_row df) as [| row rows] eqn:Hrows; [reflexivity |].
  assert (Hin : In row df).
  { destruct df as [| first rest]; [discriminate |].
    cbn [drop_first_empty_row] in Hrows.
    destruct (forallb isna first).
    - right. rewrite Hrows. now left.
    - injection Hrows as <- _. now left. }
  unfold frame_width in Hframe. rewrite Forall_forall in Hframe.
  rewrite (load_rows_narrow reference_time (row :: rows) row
             ltac:(now left) ltac:(rewrite (Hframe _ Hin); exact Hnarrow) 0).
  reflexivity.
Qed.

End Sheets.

Lemma load_excel_events_exact_witness :
  load_excel_events decimal_float sheet_b (Some 36000%float)
  = map (event_of_row decimal_float (Some 36000%float))
        (filter (fun entry => retained_row (snd entry))
                (enumerate (drop_first_empty_row sheet_b))).
Proof.
  apply (load_excel_events_exact decimal_float sheet_b (Some 36000%float)).
  repeat constructor.
Defined.

Lemma load_excel_events_narrow_sheet_witness :
  load_excel_events decimal_float three_column_sheet (Some 36000%float) = [].
Proof.
  apply (load_excel_events_narrow_sheet decimal_float three_column_sheet
           (Some 36000%float) 3); [repeat constructor | lia].
Defined.

(** ** Names: stems, patient ids and the discovery pattern *)

Lemma string_app_nil_r (s : string) : s ++ "" = s.
Proof.
  induction s as [| c s IH]; simpl; [reflexivity | now rewrite IH].
Qed.

Lemma string_length_app (a b : string) :
  String.length (a ++ b) = (String.length a + String.length b)%nat.
Proof.
  induction a as [| c a IH]; simpl; [reflexivity | now rewrite IH].
Qed.

Lemma substring_prefix (a b : string) :
  substring 0 (String.length a) (a ++ b) = a.
Proof.
  induction a as [| c a IH]; simpl.
  - now destruct b.
  - now rewrite IH.
Qed.

Lemma last_index_edf (s : string) :
  forall i found,
    last_index "." (s ++ ".edf") i found = Some (i + String.length s)%nat.
Proof.
  induction s as [| c s IH]; intros i found; simpl.
  - now rewrite Nat.add_0_r.
  - rewrite IH. f_equal. lia.
Qed.

(** The stem of a name that ends in [.edf] is what stands before. *)
Lemma stem_edf (s : string) : s <> "" -> stem (s ++ ".edf") = s.
Proof.
  intros Hs. unfold stem. rewrite last_index_edf, string_length_app. simpl.
  destruct s as [| c s]; [contradiction |]. simpl String.length.
  replace (0 <? S (String.length s))%nat with true
    by (symmetry; apply Nat.ltb_lt; lia).
  replace (S (String.length s) <? S (String.length s) + 4 - 1)%nat with true
    by (symmetry; apply Nat.ltb_lt; lia).
  exact (substring_prefix (String c s) ".edf").
Qed.

Lemma span_digits_run (d rest : string) :
  all_digits d = true ->
  (match rest with String c _ => is_digit c | EmptyString => false end) = false ->
  span_digits (d ++ rest) = (d, rest).
Proof.
  intros Hd Hrest. unfold all_digits in Hd.
  induction d as [| c d IH]; simpl in *.
  - destruct rest as [| c rest]; [reflexivity |]. simpl. now rewrite Hrest.
  - apply andb_true_iff in Hd as [Hc Hd]. now rewrite Hc, (IH Hd).
Qed.

Lemma take_digits_run (d rest : string) :
  all_digits d = true ->
  take_digits (String.length d) (d ++ rest) = Some (d, rest).
Proof.
  unfold all_digits. induction d as [| c d IH]; simpl; [reflexivity |].
  intros Hd. apply andb_true_iff in Hd as [Hc Hd]. now rewrite Hc, (IH Hd).
Qed.

Lemma all_digits_app (a b : string) :
  all_digits (a ++ b) = all_digits a && all_digits b.
Proof.
  unfold all_digits. induction a as [| c a IH]; simpl; [reflexivity |].
  now rewrite IH, andb_assoc.
Qed.

Lemma all_digits_two_digits (n : nat) :
  (n < 100)%nat -> all_digits (two_digits n) = true.
Proof.
  intros Hn. apply (below_100 (fun k => all_digits (two_digits k)));
    [vm_compute; reflexivity | exact Hn].
Qed.

(** The digits in front of an underscore are found as the patient id. *)
Lemma search_digits_underscore_front (d rest : string) :
  all_digits d = true -> d <> "" ->
  search_digits_underscore (d ++ "_" ++ rest) = Some d.
Proof.
  intros Hd Hne. destruct d as [| c d]; [contradiction |].
  pose proof Hd as Hall. unfold all_digits in Hd. simpl in Hd.
  apply andb_true_iff in Hd as [Hc _].
  cbn [append search_digits_underscore]. rewrite Hc.
  replace (span_digits (String c (d ++ String "_" rest)))
    with (String c d, String "_" rest)
    by (symmetry;
        exact (span_digits_run (String c d) (String "_" rest) Hall eq_refl)).
  reflexivity.
Qed.

(** X6.  When the header's patient field is empty or holds the text
    "No Database Record", the patient id is the run of digits that the
    file name has in front of an underscore, and the canonical name is
    built on it. *)
Theorem patient_id_from_file_name
  (md : Metadata) (d rest : string) (dd mm yy hh mi ss : nat) :
  strip (md_patient_id md) = "" \/ strip (md_patient_id md) = "No Database Record" ->
  all_digits d = true -> d <> "" ->
  (dd < 100)%nat -> (mm < 100)%nat -> (yy < 100)%nat ->
  (hh < 100)%nat -> (mi < 100)%nat -> (ss < 100)%nat ->
  md_start_date md = two_digits dd ++ "." ++ two_digits mm ++ "." ++ two_digits yy ->
  md_start_time md = two_digits hh ++ "." ++ two_digits mi ++ "." ++ two_digits ss ->
  resolve_patient_id md (d ++ "_" ++ rest) = Some d
  /\ generate_correct_filename (Some md) (d ++ "_" ++ rest)
     = Some (d ++ "_"
             ++ ((if (yy <? 50)%nat then "20" else "19") ++ two_digits yy
                 ++ two_digits mm ++ two_digits dd)
             ++ "_" ++ (two_digits hh ++ two_digits mi) ++ ".edf").
Proof.
  intros Hpatient Hd Hne Hdd Hmm Hyy Hhh Hmi Hss Hdate Htime.
  assert (Hid : resolve_patient_id md (d ++ "_" ++ rest) = Some d).
  { unfold resolve_patient_id.
    destruct Hpatient as [-> | ->]; cbn [String.eqb orb];
      now apply search_digits_underscore_front. }
  split; [exact Hid |].
  unfold generate_correct_filename. cbn [obind]. rewrite Hid. cbn [obind].
  rewrite Hdate, Htime, convert_edf_date_time_fields by assumption.
  cbn [obind].
  destruct (String.eqb_spec
              (((if (yy <? 50)%nat then "20" else "19") ++ two_digits yy
                ++ two_digits mm ++ two_digits dd)
               ++ "_" ++ two_digits hh ++ two_digits mi) "") as [E |].
  - destruct (yy <? 50)%nat; discriminate E.
  - now rewrite !string_app_assoc.
Qed.

Lemma patient_id_from_file_name_witness :
  resolve_patient_id anonymous_metadata ("5774131" ++ "_" ++ "somejunk.edf")
  = Some "5774131".
Proof.
  apply (patient_id_from_file_name anonymous_metadata "5774131" "somejunk.edf"
           1 7 13 23 59 0);
    solve [lia | reflexivity | discriminate | right; reflexivity].
Defined.

(** The canonical name from a resolved patient id and well-formed fields. *)
Lemma generate_correct_filename_fields
  (md : Metadata) (basename pid : string) (dd mm yy hh mi ss : nat) :
  (dd < 100)%nat -> (mm < 100)%nat -> (yy < 100)%nat ->
  (hh < 100)%nat -> (mi < 100)%nat -> (ss < 100)%nat ->
  resolve_patient_id md basename = Some pid ->
  md_start_date md = two_digits dd ++ "." ++ two_digits mm ++ "." ++ two_digits yy ->
  md_start_time md = two_digits hh ++ "." ++ two_digits mi ++ "." ++ two_digits ss ->
  generate_correct_filename (Some md) basename
  = Some ((pid ++ "_"
           ++ ((if (yy <? 50)%nat then "20" else "19") ++ two_digits yy
               ++ two_digits mm ++ two_digits dd)
           ++ "_" ++ (two_digits hh ++ two_digits mi)) ++ ".edf").
Proof.
  intros Hdd Hmm Hyy Hhh Hmi Hss Hid Hdate Htime.
  unfold generate_correct_filename. cbn [obind]. rewrite Hid. cbn [obind].
  rewrite Hdate, Htime, convert_edf_date_time_fields by assumption.
  cbn [obind].
  destruct (String.eqb_spec
              (((if (yy <? 50)%nat then "20" else "19") ++ two_digits yy
                ++ two_digits mm ++ two_digits dd)
               ++ "_" ++ two_digits hh ++ two_digits mi) "") as [E |].
  - destruct (yy <? 50)%nat; discriminate E.
  - now rewrite !string_app_assoc.
Qed.

(** A patient id, a date and a time joined by underscores are found by
    the discovery pattern, whole. *)
Lemma search_patient_date_time_canonical (pid date time_of_day : string) :
  all_digits pid = true -> pid <> "" ->
  all_digits date = true -> String.length date = 8%nat ->
  all_digits time_of_day = true -> String.length time_of_day = 4%nat ->
  search_patient_date_time (pid ++ "_" ++ date ++ "_" ++ time_of_day)
  = Some (pid ++ "_" ++ date ++ "_" ++ time_of_day).
Proof.
  intros Hpid Hne Hdate Hlen8 Htime Hlen4.
  assert (Hmatch : match_patient_date_time
                     (pid ++ "_" ++ date ++ "_" ++ time_of_day)
                   = Some (pid ++ "_" ++ date ++ "_" ++ time_of_day)).
  { unfold match_patient_date_time.
    change (pid ++ "_" ++ date ++ "_" ++ time_of_day)
      with (pid ++ String "_" (date ++ String "_" time_of_day)).
    rewrite (span_digits_run pid (String "_" (date ++ String "_" time_of_day))
               Hpid eq_refl).
    destruct pid as [| c run]; [contradiction |].
    rewrite <- Hlen8, (take_digits_run date _ Hdate).
    rewrite <- (string_app_nil_r time_of_day) at 1.
    rewrite <- Hlen4, (take_digits_run time_of_day _ Htime).
    reflexivity. }
  destruct (pid ++ "_" ++ date ++ "_" ++ time_of_day) as [| c s];
    cbn [search_patient_date_time]; now rewrite Hmatch.
Qed.

(** X7.  The canonical name that [generate_correct_filename] gives a
    recording whose patient id is a run of digits is itself of the form
    that [find_matching_excel_files] looks for: on the renamed file the
    discovery searches the spreadsheets whose name holds the whole stem
    patient_YYYYMMDD_HHMM. *)
Theorem canonical_name_is_discoverable
  (glob : string -> list string) (edf_dir : string)
  (md : Metadata) (basename pid : string) (dd mm yy hh mi ss : nat) :
  (dd < 100)%nat -> (mm < 100)%nat -> (yy < 100)%nat ->
  (hh < 100)%nat -> (mi < 100)%nat -> (ss < 100)%nat ->
  resolve_patient_id md basename = Some pid ->
  all_digits pid = true -> pid <> "" ->
  md_start_date md = two_digits dd ++ "." ++ two_digits mm ++ "." ++ two_digits yy ->
  md_start_time md = two_digits hh ++ "." ++ two_digits mi ++ "." ++ two_digits ss ->
  exists pattern,
    generate_correct_filename (Some md) basename = Some (pattern ++ ".edf")
    /\ stem (pattern ++ ".edf") = pattern
    /\ find_matching_excel_files glob edf_dir (stem (pattern ++ ".edf"))
       = glob (edf_dir ++ "/*" ++ pattern ++ "*.xlsx").
Proof.
  intros Hdd Hmm Hyy Hhh Hmi Hss Hid Hpid Hne Hdate Htime.
  eexists. split.
  - exact (generate_correct_filename_fields md basename pid dd mm yy hh mi ss
             Hdd Hmm Hyy Hhh Hmi Hss Hid Hdate Htime).
  - assert (Hstem : forall s, stem ((pid ++ "_" ++ s) ++ ".edf") = pid ++ "_" ++ s).
    { intros s. apply stem_edf. destruct pid; [contradiction | discriminate]. }
    split; [apply Hstem |]. rewrite Hstem.
    unfold find_matching_excel_files.
    rewrite search_patient_date_time_canonical; try assumption; try reflexivity.
    + rewrite !all_digits_app, !all_digits_two_digits by assumption.
      now destruct (yy <? 50)%nat.
    + now destruct (yy <? 50)%nat.
    + now rewrite all_digits_app, !all_digits_two_digits.
Qed.

Lemma canonical_name_is_discoverable_witness :
  exists pattern,
    generate_correct_filename
      (Some (extract_edf_metadata
               (make_header "5774131" "01.07.13" "23.59.00" "10" "1" "1")))
      "recording.edf"
    = Some (pattern ++ ".edf")
    /\ stem (pattern ++ ".edf") = pattern
    /\ find_matching_excel_files (fun pattern => [pattern]) "data"
         (stem (pattern ++ ".edf"))
       = [("data" ++ "/*" ++ pattern ++ "*.xlsx")].
Proof.
  apply (canonical_name_is_discoverable (fun pattern => [pattern]) "data"
           (extract_edf_metadata
              (make_header "5774131" "01.07.13" "23.59.00" "10" "1" "1"))
           "recording.edf" "5774131" 1 7 13 23 59 0);
    solve [lia | reflexivity | discriminate].
Defined.

Lemma span_digits_rest_clean (s : string) :
  contains_char "_" s = false ->
  contains_char "_" (snd (span_digits s)) = false.
Proof.
  induction s as [| c s IH]; simpl; [reflexivity |].
  intros H. apply orb_false_iff in H as [Hc Hs].
  destruct (is_digit c).
  - specialize (IH Hs). destruct (span_digits s) as [run rest]. exact IH.
  - simpl. now rewrite Hc, Hs.
Qed.

Lemma search_digits_underscore_none (s : string) :
  contains_char "_" s = false -> search_digits_underscore s = None.
Proof.
  induction s as [| c s IH]; [reflexivity |].
  intros H. pose proof (span_digits_rest_clean _ H) as Hrest.
  cbn [contains_char] in H. apply orb_false_iff in H as [_ Hs].
  cbn [search_digits_underscore].
  destruct (is_digit c); [| exact (IH Hs)].
  destruct (span_digits (String c s)) as [run rest]. simpl in Hrest.
  destruct rest as [| r rest]; [exact (IH Hs) |].
  simpl in Hrest. apply orb_false_iff in Hrest as [Hr _].
  destruct r as [[] [] [] [] [] [] [] []]; try exact (IH Hs); discriminate Hr.
Qed.

Lemma match_patient_date_time_none (s : string) :
  contains_char "_" s = false -> match_patient_date_time s = None.
Proof.
  intros H. pose proof (span_digits_rest_clean _ H) as Hrest.
  unfold match_patient_date_time.
  destruct (span_digits s) as [run rest]. simpl in Hrest.
  destruct run as [| c run]; [reflexivity |].
  destruct rest as [| r rest]; [reflexivity |].
  simpl in Hrest. apply orb_false_iff in Hrest as [Hr _].
  destruct r as [[] [] [] [] [] [] [] []]; try reflexivity; discriminate Hr.
Qed.

Lemma search_patient_date_time_none (s : string) :
  contains_char "_" s = false -> search_patient_date_time s = None.
Proof.
  induction s as [| c s IH]; intros H.
  - reflexivity.
  - cbn [search_patient_date_time].
    rewrite (match_patient_date_time_none _ H).
    cbn [contains_char] in H. apply orb_false_iff in H as [_ Hs].
    exact (IH Hs).
Qed.

(** X8.  A recording whose file name holds no underscore is left alone:
    the discovery looks for no spreadsheet, whatever the directory holds,
    and if the header names no patient either, no canonical name is
    derived, whatever the date and time. *)
Theorem name_without_underscore
  (glob : string -> list string) (edf_dir basename : string) (md : Metadata) :
  contains_char "_" basename = false ->
  find_matching_excel_files glob edf_dir (stem basename) = []
  /\ (strip (md_patient_id md) = ""
      \/ strip (md_patient_id md) = "No Database Record" ->
      generate_correct_filename (Some md) basename = None).
Proof.
  intros Hclean. split.
  - unfold find_matching_excel_files.
    rewrite search_patient_date_time_none; [reflexivity |].
    unfold stem.
    destruct (last_index "." basename 0 None) as [i |]; [| exact Hclean].
    destruct ((0 <? i)%nat && (i <? String.length basename - 1)%nat);
      [| exact Hclean].
    clear -Hclean. revert i.
    induction basename as [| c s IH]; intros i; [now destruct i |].
    cbn [contains_char] in Hclean. apply orb_false_iff in Hclean as [Hc Hs].
    destruct i as [| i]; [reflexivity |].
    cbn [substring contains_char]. rewrite Hc. exact (IH Hs i).
  - intros Hpatient. unfold generate_correct_filename, resolve_patient_id.
    cbn [obind].
    destruct Hpatient as [-> | ->]; cbn [String.eqb orb];
      now rewrite search_digits_underscore_none.
Qed.

Lemma name_without_underscore_witness :
  find_matching_excel_files (fun pattern => [pattern]) "data" (stem "night1.edf")
  = []
  /\ (strip (md_patient_id anonymous_metadata) = ""
      \/ strip (md_patient_id anonymous_metadata) = "No Database Record" ->
      generate_correct_filename (Some anonymous_metadata) "night1.edf" = None).
Proof.
  apply (name_without_underscore (fun pattern => [pattern]) "data" "night1.edf"
           anonymous_metadata).
  reflexivity.
Defined.

(** ** Backup names and their undoing *)

Lemma prefix_app_self (p s : string) : prefix p (p ++ s) = true.
Proof.
  induction p as [| c p IH]; simpl; [now destruct s |].
  destruct (ascii_dec c c); [exact IH | contradiction].
Qed.

Lemma split_str_from_skip (sep t u : string) :
  split_str_from sep (String.length t) (t ++ u) = split_str_from sep 0 u.
Proof.
  induction t as [| c t IH]; simpl; [reflexivity | exact IH].
Qed.

(** Without an occurrence of the separator there is one piece. *)
Lemma split_str_from_absent (sep s : string) :
  occurs sep s = false -> split_str_from sep 0 s = (s, []).
Proof.
  induction s as [| c s IH]; [reflexivity |].
  cbn [occurs split_str_from]. intros H.
  apply orb_false_iff in H as [Hp Hs]. now rewrite Hp, (IH Hs).
Qed.

Lemma split_str_from_first (sep a b : string) :
  sep <> "" ->
  separator_not_met sep a (sep ++ b) = true ->
  split_str_from sep 0 (a ++ sep ++ b)
  = (a, let (piece, pieces) := split_str_from sep 0 b in piece :: pieces).
Proof.
  intros Hsep. induction a as [| c a IH]; intros Hclean.
  - destruct sep as [| c0 sep']; [contradiction |].
    cbn [append split_str_from].
    change (String c0 (sep' ++ b)) with (String c0 sep' ++ b).
    rewrite prefix_app_self.
    replace (String.length (String c0 sep') - 1)%nat with (String.length sep')
      by (simpl; lia).
    rewrite split_str_from_skip. reflexivity.
  - cbn [separator_not_met] in Hclean.
    apply andb_true_iff in Hclean as [Hhere Hrest].
    apply negb_true_iff in Hhere.
    cbn [append split_str_from].
    change (String c (a ++ sep ++ b)) with (String c a ++ sep ++ b).
    now rewrite Hhere, (IH Hrest).
Qed.

(** A text without "_backup" cannot run into the separator "_backup_"
    written after it. *)
Lemma backup_separator_not_met (a tail : string) :
  occurs "_backup" a = false ->
  separator_not_met "_backup_" a ("_backup_" ++ tail) = true.
Proof.
  induction a as [| c a IH]; [reflexivity |].
  cbn [occurs separator_not_met]. intros H.
  apply orb_false_iff in H as [Hhere Hrest].
  rewrite (IH Hrest), andb_true_r. apply negb_true_iff.
  clear IH Hrest.
  destruct a as [| c1 [| c2 [| c3 [| c4 [| c5 [| c6 [| c7 a]]]]]]];
    cbn [append prefix] in *;
    repeat match goal with
      | |- context [ascii_dec ?x c] =>
          destruct (ascii_dec x c); [subst c | reflexivity]
      | |- context [ascii_dec ?x c1] =>
          destruct (ascii_dec x c1); [subst c1 | reflexivity]
      | |- context [ascii_dec ?x c2] =>
          destruct (ascii_dec x c2); [subst c2 | reflexivity]
      | |- context [ascii_dec ?x c3] =>
          destruct (ascii_dec x c3); [subst c3 | reflexivity]
      | |- context [ascii_dec ?x c4] =>
          destruct (ascii_dec x c4); [subst c4 | reflexivity]
      | |- context [ascii_dec ?x c5] =>
          destruct (ascii_dec x c5); [subst c5 | reflexivity]
      | |- context [ascii_dec ?x c6] =>
          destruct (ascii_dec x c6); [subst c6 | reflexivity]
      end;
    try reflexivity; try discriminate Hhere.
Qed.

(** ** The effects of a conversion *)


Lemma times_last_set_annotations (raw : Raw) (annots : list Annotation) :
  times_last (set_annotations raw annots) = times_last raw.
Proof. reflexivity. Qed.

Section Effects.

Variable py_float : string -> option float.



End Effects.

Section Outcomes.

Variable py_float : string -> option float.


End Outcomes.


(** ** Backups: written by the conversion, skipped by the batch, undone
    by the rollback *)

Lemma occurs_app_middle (pat a b : string) : occurs pat (a ++ pat ++ b) = true.
Proof.
  induction a as [| c a IH].
  - simpl append. destruct (pat ++ b) as [| c s] eqn:E.
    + destruct pat; [reflexivity | discriminate].
    + cbn [occurs]. rewrite <- E, prefix_app_self. reflexivity.
  - cbn [append occurs]. change (a ++ pat ++ b) with (a ++ pat ++ b).
    rewrite IH. apply orb_true_r.
Qed.

(** The original name is recovered from the backup name, whatever the
    final name is. *)
Lemma rollback_names_original (s f : string) :
  s <> "" -> occurs "_backup" s = false ->
  fst (rollback_names (s ++ "_backup_" ++ f ++ ".edf")) = s ++ ".edf".
Proof.
  intros Hne Hclean. unfold rollback_names.
  replace (s ++ "_backup_" ++ f ++ ".edf") with ((s ++ "_backup_" ++ f) ++ ".edf")
    by (now rewrite !string_app_assoc).
  rewrite stem_edf by (destruct s; [contradiction | discriminate]).
  rewrite occurs_app_middle. cbn [fst]. unfold str_split.
  rewrite split_str_from_first;
    [| discriminate | now apply backup_separator_not_met].
  destruct (split_str_from "_backup_" 0 f). reflexivity.
Qed.

(** Both names are recovered when the final name holds no separator. *)
Lemma rollback_names_both (s f : string) :
  s <> "" ->
  occurs "_backup" s = false ->
  occurs "_backup_" f = false ->
  rollback_names (s ++ "_backup_" ++ f ++ ".edf")
  = (s ++ ".edf", Some (f ++ ".edf")).
Proof.
  intros Hne Hs Hf. unfold rollback_names.
  replace (s ++ "_backup_" ++ f ++ ".edf") with ((s ++ "_backup_" ++ f) ++ ".edf")
    by (now rewrite !string_app_assoc).
  rewrite stem_edf by (destruct s; [contradiction | discriminate]).
  rewrite occurs_app_middle. unfold str_split.
  rewrite split_str_from_first;
    [| discriminate | now apply backup_separator_not_met].
  rewrite (split_str_from_absent _ _ Hf). reflexivity.
Qed.

(** X11.  The name that the conversion gives a backup is undone by the
    rollback: from [stem_backup_final.edf] it recovers the original name
    [stem.edf], provided the stem holds no "_backup"; and the EDF+ file to
    remove, [final.edf], provided [final] holds no "_backup_". *)
Theorem rollback_names_of_backup (s f : string) :
  s <> "" ->
  occurs "_backup" s = false ->
  occurs "_backup_" f = false ->
  rollback_names (s ++ "_backup_" ++ f ++ ".edf")
  = (s ++ ".edf", Some (f ++ ".edf")).
Proof. exact (rollback_names_both s f). Qed.

Lemma rollback_names_of_backup_witness :
  rollback_names ("night_1" ++ "_backup_" ++ "5774131_20130701_2359" ++ ".edf")
  = ("night_1" ++ ".edf", Some ("5774131_20130701_2359" ++ ".edf")).
Proof.
  apply (rollback_names_of_backup "night_1" "5774131_20130701_2359");
    solve [discriminate | reflexivity].
Defined.

(** X13.  When the final name written in a backup name is the original
    name itself (the recording was already named canonically), the
    rollback moves the backup back into place and then removes the file
    at that very path, on any file system where a file just moved into
    place exists: both counters go up and the restored recording is
    gone. *)
Theorem rollback_removes_restored_file
  (path_exists : list RollbackEffect -> string -> bool)
  (summary : RollbackSummary) (parent s : string) :
  sees_restored path_exists ->
  s <> "" ->
  occurs "_backup" s = false ->
  rollback_one path_exists summary (parent, s ++ "_backup_" ++ s ++ ".edf")
  = {| restored_count := restored_count summary + 1;
       removed_edfplus_count := removed_edfplus_count summary + 1;
       rollback_effects :=
         (rollback_effects summary
          ++ [RestoreFile (path_join parent (s ++ "_backup_" ++ s ++ ".edf"))
                          (path_join parent (s ++ ".edf"))]
          ++ [RemoveFile (path_join parent (s ++ ".edf"))])%list |}.
Proof.
  intros Hfs Hne Hclean. unfold rollback_one.
  assert (Hclean' : occurs "_backup_" s = false).
  { clear -Hclean. induction s as [| c s IH]; [reflexivity |].
    cbn [occurs] in *. apply orb_false_iff in Hclean as [Hp Hs].
    rewrite (IH Hs), orb_false_r.
    destruct (prefix "_backup_" (String c s)) eqn:E; [| reflexivity].
    rewrite <- Hp. clear -E.
    destruct s as [| c1 [| c2 [| c3 [| c4 [| c5 [| c6 [| c7 s]]]]]]];
      cbn [prefix] in *;
      repeat match goal with
        | H : context [ascii_dec ?x ?y] |- _ =>
            destruct (ascii_dec x y); [| discriminate H]
        end; try discriminate E; reflexivity. }
  rewrite (rollback_names_both s s Hne Hclean Hclean').
  rewrite Hfs, <- app_assoc. reflexivity.
Qed.

Lemma rollback_removes_restored_file_witness :
  rollback_edf_files only_restored
    [("data", "5774131_20130701_1000" ++ "_backup_" ++ "5774131_20130701_1000"
              ++ ".edf")]
  = {| restored_count := 1; removed_edfplus_count := 1;
       rollback_effects :=
         [RestoreFile
            "data/5774131_20130701_1000_backup_5774131_20130701_1000.edf"
            "data/5774131_20130701_1000.edf";
          RemoveFile "data/5774131_20130701_1000.edf"] |}.
Proof.
  unfold rollback_edf_files. cbn [fold_left].
  rewrite (rollback_removes_restored_file only_restored _ "data"
             "5774131_20130701_1000").
  - reflexivity.
  - intros done backup original. unfold only_restored.
    rewrite last_last. apply String.eqb_refl.
  - discriminate.
  - reflexivity.
Defined.

(** ** The batch driver *)

Section BatchProperties.

Variable py_float : string -> option float.




End BatchProperties.


(** ** The data loop of the decoder *)

Section DecoderProperties.

Local Open Scope list_scope.

Lemma for_each_seq {St : Type} (body : nat -> St -> result St)
  (P : nat -> St -> Prop) (len : nat) :
  forall a st,
    P a st ->
    (forall i st0, (a <= i < a + len)%nat -> P i st0 ->
                   exists st1, body i st0 = inr st1 /\ P (S i) st1) ->
    exists st', for_each body (seq a len) st = inr st' /\ P (a + len)%nat st'.
Proof.
  induction len as [| len IH]; intros a st HP Hstep.
  - exists st. rewrite Nat.add_0_r. now split.
  - cbn [seq for_each].
    destruct (Hstep a st ltac:(lia) HP) as (st1 & Hbody & HP1).
    rewrite Hbody. cbn [bind].
    destruct (IH (S a) st1 HP1) as (st' & Hrest & HP').
    + intros i st0 Hi. apply Hstep. lia.
    + exists st'. split; [exact Hrest |].
      now replace (a + S len)%nat with (S a + len)%nat by lia.
Qed.

Lemma for_each_seq_returns {St : Type} (body : nat -> St -> result St)
  (P : nat -> St -> Prop) (len : nat) :
  forall a st st',
    P a st ->
    (forall i st0 st1, (a <= i < a + len)%nat -> P i st0 ->
                       body i st0 = inr st1 -> P (S i) st1) ->
    for_each body (seq a len) st = inr st' ->
    P (a + len)%nat st'.
Proof.
  induction len as [| len IH]; intros a st st' HP Hstep Hrun.
  - cbn in Hrun. injection Hrun as <-. now rewrite Nat.add_0_r.
  - cbn [seq for_each] in Hrun.
    destruct (body a st) as [e | st1] eqn:Hbody; [discriminate |].
    cbn [bind] in Hrun.
    replace (a + S len)%nat with (S a + len)%nat by lia.
    apply (IH (S a) st1 st'); [| | exact Hrun].
    + apply (Hstep a st st1); [lia | exact HP | exact Hbody].
    + intros i st0 st2 Hi. apply Hstep. lia.
Qed.

Lemma for_each_seq_or {St : Type} (body : nat -> St -> result St)
  (P : nat -> St -> Prop) (e : exn) (len : nat) :
  forall a st,
    P a st ->
    (forall i st0, (a <= i < a + len)%nat -> P i st0 ->
                   (exists st1, body i st0 = inr st1 /\ P (S i) st1)
                   \/ body i st0 = inl e) ->
    (exists st', for_each body (seq a len) st = inr st' /\ P (a + len)%nat st')
    \/ for_each body (seq a len) st = inl e.
Proof.
  induction len as [| len IH]; intros a st HP Hstep.
  - left. exists st. rewrite Nat.add_0_r. now split.
  - cbn [seq for_each].
    destruct (Hstep a st ltac:(lia) HP) as [(st1 & Hbody & HP1) | Hbody];
      rewrite Hbody; cbn [bind]; [| now right].
    replace (a + S len)%nat with (S a + len)%nat by lia.
    apply IH; [exact HP1 |].
    intros i st0 Hi. apply Hstep. lia.
Qed.

Lemma list_max_ge (l : list Z) (z : Z) : In z l -> (z <= list_max l)%Z.
Proof.
  induction l as [| a l IH]; intros Hin; [contradiction |].
  destruct l as [| b l].
  - destruct Hin as [<- | []]. simpl. lia.
  - change (list_max (a :: b :: l)) with (Z.max a (list_max (b :: l))).
    destruct Hin as [<- | Hin]; [lia |].
    specialize (IH Hin). lia.
Qed.

Lemma list_max_nonneg (l : list Z) :
  Forall (fun z => (0 <= z)%Z) l -> (0 <= list_max l)%Z.
Proof.
  induction l as [| a l IH]; intros Hall; [simpl; lia |].
  inversion Hall as [| ? ? Ha Hl]; subst.
  destruct l as [| b l]; [simpl; lia |].
  change (list_max (a :: b :: l)) with (Z.max a (list_max (b :: l))).
  specialize (IH Hl). lia.
Qed.

Lemma firstn_S_nth_error {A : Type} (l : list A) :
  forall i a, nth_error l i = Some a -> firstn (S i) l = firstn i l ++ [a].
Proof.
  induction l as [| b l IH]; intros [| i] a H; try discriminate.
  - injection H as <-. reflexivity.
  - cbn [firstn app]. cbn [nth_error] in H.
    change (b :: firstn (S i) l = b :: (firstn i l ++ [a])).
    f_equal. now apply IH.
Qed.

(** What [total_samples_per_signal] returns, when it returns. *)
Lemma total_samples_from (header : Header) (len : nat) :
  forall a acc totals,
    for_each
      (fun sig acc =>
         do signal <- lookup (signals header) sig;
         ret (acc ++ [(records header * samples_per_record signal)%Z]))
      (seq a len) acc = inr totals ->
    (len = 0 \/ a + len <= List.length (signals header))%nat
    /\ totals
       = acc ++ map (fun signal => (records header * samples_per_record signal)%Z)
                    (firstn len (skipn a (signals header))).
Proof.
  induction len as [| len IH]; intros a acc totals Hrun.
  - cbn in Hrun. injection Hrun as <-. split; [now left |].
    cbn. now rewrite app_nil_r.
  - cbn [seq for_each] in Hrun. unfold lookup in Hrun at 1.
    destruct (nth_error (signals header) a) as [signal |] eqn:Hsig;
      [| discriminate].
    cbn [bind ret] in Hrun.
    destruct (IH _ _ _ Hrun) as [Hlen ->].
    assert (Ha : (a < List.length (signals header))%nat)
      by (apply nth_error_Some; congruence).
    split.
    + right. destruct Hlen as [-> | Hlen]; lia.
    + rewrite <- app_assoc. f_equal.
      destruct (nth_error_split _ _ Hsig) as (l1 & l2 & Hl & Hl1).
      rewrite Hl.
      replace (skipn a (l1 ++ signal :: l2)) with (signal :: l2).
      2:{ rewrite skipn_app, Hl1, Nat.sub_diag.
          rewrite (skipn_all2 l1) by lia. reflexivity. }
      replace (skipn (S a) (l1 ++ signal :: l2)) with l2.
      2:{ rewrite skipn_app, Hl1.
          rewrite (skipn_all2 l1) by lia.
          now replace (S a - a)%nat with 1%nat by lia. }
      reflexivity.
Qed.

Lemma total_samples_well_formed (header : Header) :
  nsignals header = Z.of_nat (List.length (signals header)) ->
  total_samples_per_signal header
  = inr (map (fun signal => (records header * samples_per_record signal)%Z)
             (signals header)).
Proof.
  intros Hn. unfold total_samples_per_signal, range.
  rewrite Hn, Nat2Z.id.
  destruct (for_each_seq
              (fun sig acc =>
                 do signal <- lookup (signals header) sig;
                 ret (acc ++ [(records header * samples_per_record signal)%Z]))
              (fun i acc =>
                 acc = map (fun signal =>
                              (records header * samples_per_record signal)%Z)
                           (firstn i (signals header)))
              (List.length (signals header)) 0 [] eq_refl)
    as (totals & Hrun & Htotals).
  - intros i acc [_ Hi] ->. unfold lookup.
    destruct (nth_error (signals header) i) as [signal |] eqn:Hsig.
    + eexists. split; [reflexivity |].
      rewrite (firstn_S_nth_error _ _ _ Hsig), map_app. reflexivity.
    + apply nth_error_None in Hsig. cbn in Hi. lia.
  - rewrite Hrun, Htotals. cbn. now rewrite firstn_all.
Qed.

Lemma length_set_nth {A : Type} (l : list A) :
  forall i a, List.length (set_nth i a l) = List.length l.
Proof.
  induction l as [| b l IH]; intros [| i] a; cbn; try reflexivity.
  now rewrite IH.
Qed.

Lemma nth_set_nth {A : Type} (l : list A) (d : A) :
  forall i j a,
    (i < List.length l)%nat ->
    nth j (set_nth i a l) d = if (j =? i)%nat then a else nth j l d.
Proof.
  induction l as [| b l IH]; intros [| i] [| j] a Hi; cbn in *; try lia;
    try reflexivity.
  apply IH. lia.
Qed.

Lemma Forall_set_nth {A : Type} (P : A -> Prop) (l : list A) :
  forall i a, P a -> Forall P l -> Forall P (set_nth i a l).
Proof.
  induction l as [| b l IH]; intros [| i] a Ha Hl; cbn; try assumption;
    inversion Hl; subst; constructor; auto.
Qed.

Lemma length_set_slice {A : Type} (start : nat) (vals row : list A) :
  (start + List.length vals <= List.length row)%nat ->
  List.length (set_slice start vals row) = List.length row.
Proof.
  intros H. unfold set_slice.
  rewrite !length_app, length_firstn, length_skipn. lia.
Qed.

Lemma nth_set_slice {A : Type} (start : nat) (vals row : list A) (d : A)
  (idx : nat) :
  (start + List.length vals <= List.length row)%nat ->
  nth idx (set_slice start vals row) d
  = if (idx <? start)%nat then nth idx row d
    else if (idx <? start + List.length vals)%nat then nth (idx - start) vals d
         else nth idx row d.
Proof.
  intros H. unfold set_slice.
  assert (Hfirst : List.length (firstn start row) = start)
    by (rewrite length_firstn; lia).
  destruct (idx <? start)%nat eqn:E1.
  - apply Nat.ltb_lt in E1.
    rewrite app_nth1 by lia. rewrite nth_firstn.
    now replace (idx <? start)%nat with true by (symmetry; apply Nat.ltb_lt; lia).
  - apply Nat.ltb_ge in E1.
    rewrite app_nth2 by lia. rewrite Hfirst.
    destruct (idx <? start + List.length vals)%nat eqn:E2.
    + apply Nat.ltb_lt in E2. now rewrite app_nth1 by lia.
    + apply Nat.ltb_ge in E2. rewrite app_nth2 by lia.
      rewrite nth_skipn. f_equal. lia.
Qed.

Lemma unpack_pairs_length (n : nat) :
  forall buf, List.length buf = (2 * n)%nat ->
              List.length (unpack_pairs buf) = n.
Proof.
  induction n as [| n IH]; intros buf Hlen.
  - destruct buf; [reflexivity | discriminate].
  - destruct buf as [| lo [| hi buf]]; cbn in Hlen; try lia.
    cbn [unpack_pairs List.length]. f_equal. apply IH. lia.
Qed.

Lemma unpack_pairs_nth (k : nat) :
  forall buf,
    (2 * k + 1 < List.length buf)%nat ->
    nth k (unpack_pairs buf) 0%Z
    = int16_le (nth (2 * k) buf Byte.x00) (nth (S (2 * k)) buf Byte.x00).
Proof.
  induction k as [| k IH]; intros buf Hlen.
  - destruct buf as [| lo [| hi buf]]; cbn in Hlen; try lia. reflexivity.
  - destruct buf as [| lo [| hi buf]]; cbn in Hlen; try lia.
    cbn [unpack_pairs]. 
    replace (2 * S k)%nat with (S (S (2 * k))) by lia.
    cbn [nth]. apply IH. lia.
Qed.

Lemma struct_unpack_h_returns (n : nat) (buf : list Byte.byte)
  (values : list Z) :
  struct_unpack_h n buf = inr values ->
  List.length buf = (2 * n)%nat /\ values = unpack_pairs buf
  /\ List.length values = n.
Proof.
  unfold struct_unpack_h. intros H.
  destruct (List.length buf =? 2 * n)%nat eqn:E; [| discriminate].
  apply Nat.eqb_eq in E. injection H as <-.
  repeat split; [exact E |]. now apply unpack_pairs_length.
Qed.

Lemma list_sum_firstn_le (l : list nat) :
  forall i, (list_sum (firstn i l) <= list_sum l)%nat.
Proof.
  unfold list_sum.
  induction l as [| a l IH]; intros [| i]; cbn [firstn fold_right]; try lia.
  specialize (IH i). lia.
Qed.

Lemma block_offset_next (header : Header) (rec sig : nat) (signal : SignalInfo) :
  nth_error (signals header) sig = Some signal ->
  block_offset header rec (S sig)
  = (block_offset header rec sig + block_size signal)%nat.
Proof.
  intros Hsig. unfold block_offset.
  rewrite (firstn_S_nth_error _ _ _ Hsig), map_app, list_sum_app. cbn. lia.
Qed.

Lemma block_offset_record (header : Header) (rec : nat) :
  block_offset header rec (List.length (signals header))
  = block_offset header (S rec) 0.
Proof.
  unfold block_offset, record_samples. rewrite firstn_all. cbn. lia.
Qed.

Lemma block_offset_le (header : Header) (rec sig : nat) :
  (block_offset header rec sig <= S rec * record_samples header)%nat.
Proof.
  unfold block_offset, record_samples.
  pose proof (list_sum_firstn_le (map block_size (signals header)) sig) as H.
  rewrite firstn_map in H. cbn. lia.
Qed.

Lemma blocks_read_other (rec sig channel : nat) :
  channel <> sig ->
  blocks_read rec (S sig) channel = blocks_read rec sig channel.
Proof.
  intros Hne. unfold blocks_read.
  destruct (channel <? S sig)%nat eqn:E1, (channel <? sig)%nat eqn:E2;
    try reflexivity;
    [apply Nat.ltb_lt in E1; apply Nat.ltb_ge in E2
    | apply Nat.ltb_ge in E1; apply Nat.ltb_lt in E2]; lia.
Qed.

Lemma blocks_read_self (rec sig : nat) :
  blocks_read rec (S sig) sig = S rec /\ blocks_read rec sig sig = rec.
Proof.
  unfold blocks_read.
  rewrite Nat.ltb_irrefl.
  now replace (sig <? S sig)%nat with true by (symmetry; apply Nat.ltb_lt; lia).
Qed.

Lemma grid_width_holds (header : Header) (rec : nat) (signal : SignalInfo) :
  In signal (signals header) ->
  (Z.of_nat rec < records header)%Z ->
  (0 <= samples_per_record signal)%Z ->
  (Z.of_nat (S rec * block_size signal)
   <= list_max (map (fun signal => (records header * samples_per_record signal)%Z)
                    (signals header)))%Z
  /\ (S rec * block_size signal <= grid_width header)%nat.
Proof.
  intros Hin Hrec Hspr.
  assert (Hmax : (records header * samples_per_record signal
                  <= list_max (map (fun signal =>
                                      (records header * samples_per_record signal)%Z)
                                   (signals header)))%Z).
  { apply list_max_ge.
    apply (in_map (fun signal => (records header * samples_per_record signal)%Z)).
    exact Hin. }
  assert (Hblock : (Z.of_nat (S rec * block_size signal)
                    <= records header * samples_per_record signal)%Z).
  { unfold block_size. rewrite Nat2Z.inj_mul, Z2Nat.id by lia. nia. }
  split; [lia |]. unfold grid_width, max_samples. lia.
Qed.

(** One block read from a stream that holds it. *)
Lemma read_block_decodes (header : Header) (body : list Byte.byte)
  (rec sig : nat) (st : ReadState) (signal : SignalInfo) :
  nth_error (signals header) sig = Some signal ->
  (0 <= samples_per_record signal)%Z ->
  (Z.of_nat rec < records header)%Z ->
  decoded_up_to header body rec sig st ->
  (2 * block_offset header rec (S sig) <= List.length body)%nat ->
  exists st',
    read_block header
      (list_max (map (fun signal => (records header * samples_per_record signal)%Z)
                     (signals header)))
      rec sig st = inr st'
    /\ decoded_up_to header body rec (S sig) st'.
Proof.
  intros Hsig Hspr Hrec Hinv Hfits.
  pose proof (block_offset_next header rec sig signal Hsig) as Hnext.
  destruct (blocks_read_self rec sig) as [Hself' Hself].
  destruct Hinv as [Hfit Hstream Hwarn Hrows Hwidth Hsamples Hpadding].
  unfold read_block, lookup. rewrite Hsig. cbn [bind ret].
  destruct (samples_per_record signal >? 0)%Z eqn:Hpos.
  - apply Z.gtb_lt in Hpos.
    destruct (grid_width_holds header rec signal (nth_error_In _ _ Hsig) Hrec Hspr)
      as [Hmax Hgrid].
    fold (block_size signal). set (n := block_size signal) in *.
    set (off := block_offset header rec sig) in *.
    assert (Hbuf : List.length (firstn (2 * n) (stream st)) = (2 * n)%nat).
    { rewrite Hstream, length_firstn, length_skipn. lia. }
    unfold struct_unpack_h. rewrite Hbuf, Nat.eqb_refl. cbn [bind ret].
    rewrite (unpack_pairs_length n _ Hbuf), Nat.eqb_refl.
    replace ((rec + 1) * n)%nat with (S rec * n)%nat by lia.
    replace (Z.of_nat (S rec * n) <=? _)%Z with true
      by (symmetry; apply Z.leb_le; exact Hmax).
    destruct (nth_error (data st) sig) as [row |] eqn:Hrow.
    2:{ apply nth_error_None in Hrow.
        assert (sig < List.length (signals header))%nat
          by (apply nth_error_Some; congruence). lia. }
    assert (Hsigdata : (sig < List.length (data st))%nat)
      by (apply nth_error_Some; congruence).
    assert (Hrowlen : List.length row = grid_width header).
    { rewrite Forall_forall in Hwidth. apply Hwidth.
      exact (nth_error_In _ _ Hrow). }
    assert (Hrownth : nth sig (data st) [] = row)
      by (now apply nth_error_nth).
    set (vals := unpack_pairs (firstn (2 * n) (stream st))).
    assert (Hvals : List.length vals = n)
      by (apply unpack_pairs_length; exact Hbuf).
    assert (Hslice : (rec * n + List.length vals <= List.length row)%nat)
      by (rewrite Hvals, Hrowlen; lia).
    eexists. split; [reflexivity |].
    constructor; cbn [stream data warnings].
    + exact Hfits.
    + rewrite Hstream, skipn_skipn. f_equal. lia.
    + exact Hwarn.
    + now rewrite length_set_nth.
    + apply Forall_set_nth; [| exact Hwidth].
      now rewrite length_set_slice.
    + intros channel signal0 r k Hchannel Hr Hk.
      rewrite nth_set_nth by exact Hsigdata.
      destruct (channel =? sig)%nat eqn:E.
      * apply Nat.eqb_eq in E. subst channel.
        assert (signal0 = signal) by congruence. subst signal0.
        rewrite Hself' in Hr. fold n in Hk |- *.
        rewrite nth_set_slice by exact Hslice. rewrite Hvals.
        destruct (r * n + k <? rec * n)%nat eqn:E1.
        -- apply Nat.ltb_lt in E1.
           rewrite <- Hrownth.
           apply (Hsamples sig signal r k Hsig); [| exact Hk].
           rewrite Hself.
           destruct (Nat.lt_ge_cases r rec) as [Hlt | Hge]; [exact Hlt |].
           exfalso. nia.
        -- apply Nat.ltb_ge in E1.
           assert (r = rec) by nia. subst r.
           replace (rec * n + k <? rec * n + n)%nat with true
             by (symmetry; apply Nat.ltb_lt; lia).
           replace (rec * n + k - rec * n)%nat with k by lia.
           unfold vals. rewrite unpack_pairs_nth by (rewrite Hbuf; lia).
           rewrite !nth_firstn.
           replace (2 * k <? 2 * n)%nat with true
             by (symmetry; apply Nat.ltb_lt; lia).
           replace (S (2 * k) <? 2 * n)%nat with true
             by (symmetry; apply Nat.ltb_lt; lia).
           rewrite Hstream, !nth_skipn. unfold sample_at. fold off.
           f_equal; f_equal; lia.
      * apply Nat.eqb_neq in E.
        rewrite (blocks_read_other _ _ _ E) in Hr.
        exact (Hsamples channel signal0 r k Hchannel Hr Hk).
    + intros channel signal0 idx Hchannel Hidx.
      rewrite nth_set_nth by exact Hsigdata.
      destruct (channel =? sig)%nat eqn:E.
      * apply Nat.eqb_eq in E. subst channel.
        assert (signal0 = signal) by congruence. subst signal0.
        rewrite Hself' in Hidx. fold n in Hidx.
        rewrite nth_set_slice by exact Hslice. rewrite Hvals.
        replace (idx <? rec * n)%nat with false
          by (symmetry; apply Nat.ltb_ge; lia).
        replace (idx <? rec * n + n)%nat with false
          by (symmetry; apply Nat.ltb_ge; lia).
        rewrite <- Hrownth. apply (Hpadding sig signal idx Hsig).
        rewrite Hself. fold n. lia.
      * apply Nat.eqb_neq in E.
        rewrite (blocks_read_other _ _ _ E) in Hidx.
        exact (Hpadding channel signal0 idx Hchannel Hidx).
  - assert (Hzero : block_size signal = 0%nat).
    { unfold block_size. rewrite Z.gtb_ltb in Hpos.
      apply Z.ltb_ge in Hpos. lia. }
    exists st. split; [reflexivity |].
    rewrite Hzero, Nat.add_0_r in Hnext.
    constructor.
    + exact Hfits.
    + now rewrite Hnext.
    + exact Hwarn.
    + exact Hrows.
    + exact Hwidth.
    + intros channel signal0 r k Hchannel Hr Hk.
      destruct (Nat.eq_dec channel sig) as [-> | E].
      * assert (signal0 = signal) by congruence. subst signal0. lia.
      * rewrite (blocks_read_other _ _ _ E) in Hr.
        exact (Hsamples channel signal0 r k Hchannel Hr Hk).
    + intros channel signal0 idx Hchannel Hidx.
      destruct (Nat.eq_dec channel sig) as [-> | E].
      * assert (signal0 = signal) by congruence. subst signal0.
        apply (Hpadding sig signal idx Hsig). rewrite Hzero. lia.
      * rewrite (blocks_read_other _ _ _ E) in Hidx.
        exact (Hpadding channel signal0 idx Hchannel Hidx).
Qed.

Lemma decoded_record_end (header : Header) (body : list Byte.byte) (rec : nat)
  (st : ReadState) :
  decoded_up_to header body rec (List.length (signals header)) st ->
  decoded_up_to header body (S rec) 0 st.
Proof.
  intros [Hfit Hstream Hwarn Hrows Hwidth Hsamples Hpadding].
  assert (Hread : forall channel signal,
             nth_error (signals header) channel = Some signal ->
             blocks_read rec (List.length (signals header)) channel
             = blocks_read (S rec) 0 channel).
  { intros channel signal Hchannel. unfold blocks_read.
    replace (channel <? List.length (signals header))%nat with true; [reflexivity |].
    symmetry. apply Nat.ltb_lt. apply nth_error_Some. congruence. }
  rewrite block_offset_record in Hfit, Hstream.
  constructor; try assumption.
  - intros channel signal r k Hchannel Hr Hk.
    rewrite <- (Hread _ _ Hchannel) in Hr. now apply Hsamples.
  - intros channel signal idx Hchannel Hidx.
    rewrite <- (Hread _ _ Hchannel) in Hidx. now apply (Hpadding _ signal).
Qed.

Lemma read_block_decodes_or_raises (header : Header) (body : list Byte.byte)
  (rec sig : nat) (st : ReadState) (signal : SignalInfo) :
  nth_error (signals header) sig = Some signal ->
  (0 <= samples_per_record signal)%Z ->
  (Z.of_nat rec < records header)%Z ->
  decoded_up_to header body rec sig st ->
  (exists st',
      read_block header
        (list_max (map (fun signal => (records header * samples_per_record signal)%Z)
                       (signals header)))
        rec sig st = inr st'
      /\ decoded_up_to header body rec (S sig) st')
  \/ read_block header
       (list_max (map (fun signal => (records header * samples_per_record signal)%Z)
                      (signals header)))
       rec sig st = inl StructError.
Proof.
  intros Hsig Hspr Hrec Hinv.
  destruct (le_lt_dec (2 * block_offset header rec (S sig)) (List.length body))
    as [Hfits | Hshort].
  - left. now apply (read_block_decodes header body rec sig st signal).
  - right. rewrite (block_offset_next _ _ _ _ Hsig) in Hshort.
    pose proof (decoded_fits _ _ _ _ _ Hinv) as Hfit.
    unfold block_size in Hshort.
    apply (read_block_short_stream header _ rec sig st signal Hsig); [lia |].
    rewrite (decoded_stream _ _ _ _ _ Hinv), length_skipn. lia.
Qed.

Section DataLoop.

Variable header : Header.
Variable body : list Byte.byte.
Hypothesis Hwell : well_formed header.

Lemma signal_of_channel (sig : nat) :
  (sig < Z.to_nat (nsignals header))%nat ->
  exists signal,
    nth_error (signals header) sig = Some signal
    /\ (0 <= samples_per_record signal)%Z.
Proof.
  destruct Hwell as (Hn & _ & Hspr). intros Hsig.
  rewrite Hn, Nat2Z.id in Hsig.
  destruct (nth_error (signals header) sig) as [signal |] eqn:E.
  - exists signal. split; [reflexivity |].
    rewrite Forall_forall in Hspr. apply Hspr. exact (nth_error_In _ _ E).
  - apply nth_error_None in E. lia.
Qed.

Lemma read_record_decodes (rec : nat) (st : ReadState) :
  (Z.of_nat rec < records header)%Z ->
  decoded_up_to header body rec 0 st ->
  (2 * (S rec * record_samples header) <= List.length body)%nat ->
  exists st',
    for_each (read_block header (max_samples header) rec) (range (nsignals header)) st
    = inr st'
    /\ decoded_up_to header body (S rec) 0 st'.
Proof.
  intros Hrec Hinv Hfits. unfold range.
  destruct (for_each_seq (read_block header (max_samples header) rec)
              (decoded_up_to header body rec)
              (Z.to_nat (nsignals header)) 0 st Hinv)
    as (st' & Hrun & Hend).
  - intros sig st0 [_ Hsig] Hinv0. cbn in Hsig.
    destruct (signal_of_channel sig Hsig) as (signal & Hsignal & Hspr).
    apply (read_block_decodes header body rec sig st0 signal); try assumption.
    pose proof (block_offset_le header rec (S sig)). lia.
  - exists st'. split; [exact Hrun |].
    apply decoded_record_end.
    destruct Hwell as (Hn & _). rewrite Hn, Nat2Z.id in Hend. exact Hend.
Qed.

Lemma read_record_decodes_or_raises (rec : nat) (st : ReadState) :
  (Z.of_nat rec < records header)%Z ->
  decoded_up_to header body rec 0 st ->
  (exists st',
      for_each (read_block header (max_samples header) rec) (range (nsignals header)) st
      = inr st'
      /\ decoded_up_to header body (S rec) 0 st')
  \/ for_each (read_block header (max_samples header) rec) (range (nsignals header)) st
     = inl StructError.
Proof.
  intros Hrec Hinv. unfold range.
  destruct (for_each_seq_or (read_block header (max_samples header) rec)
              (decoded_up_to header body rec) StructError
              (Z.to_nat (nsignals header)) 0 st Hinv)
    as [(st' & Hrun & Hend) | Hraise].
  - intros sig st0 [_ Hsig] Hinv0. cbn in Hsig.
    destruct (signal_of_channel sig Hsig) as (signal & Hsignal & Hspr).
    now apply (read_block_decodes_or_raises header body rec sig st0 signal).
  - left. exists st'. split; [exact Hrun |].
    apply decoded_record_end.
    destruct Hwell as (Hn & _). rewrite Hn, Nat2Z.id in Hend. exact Hend.
  - now right.
Qed.

Lemma zeros_grid_decoded :
  decoded_up_to header body 0 0
    {| stream := body;
       data := repeat (repeat 0%Z (Z.to_nat (max_samples header)))
                      (Z.to_nat (nsignals header));
       warnings := [] |}.
Proof.
  destruct Hwell as (Hn & _).
  constructor; cbn [stream data warnings].
  - cbn. lia.
  - reflexivity.
  - reflexivity.
  - now rewrite repeat_length, Hn, Nat2Z.id.
  - apply Forall_forall. intros row Hrow.
    apply repeat_spec in Hrow. subst row. now rewrite repeat_length.
  - intros channel signal r k _ Hr. cbn in Hr. lia.
  - intros channel signal idx _ _.
    destruct (nth_in_or_default channel
                (repeat (repeat 0%Z (Z.to_nat (max_samples header)))
                        (Z.to_nat (nsignals header))) [])
      as [Hin | ->].
    + apply repeat_spec in Hin. rewrite Hin. apply nth_repeat.
    + now destruct idx.
Qed.

Lemma read_data_records_unfold :
  read_data_records header body
  = do st <- for_each
               (fun rec st =>
                  for_each (read_block header (max_samples header) rec)
                           (range (nsignals header)) st)
               (range (records header))
               {| stream := body;
                  data := repeat (repeat 0%Z (Z.to_nat (max_samples header)))
                                 (Z.to_nat (nsignals header));
                  warnings := [] |};
    ret (header, data st, warnings st).
Proof.
  destruct Hwell as (Hn & Hrec & Hspr).
  unfold read_data_records.
  rewrite (total_samples_well_formed header Hn). cbn [bind].
  fold (max_samples header).
  replace (match map (fun signal => (records header * samples_per_record signal)%Z)
                     (signals header) with
           | [] => 0%Z
           | _ :: _ => max_samples header
           end) with (max_samples header)
    by (unfold max_samples; now destruct (signals header)).
  replace (nsignals header <? 0)%Z with false
    by (symmetry; apply Z.ltb_ge; lia).
  replace (max_samples header <? 0)%Z with false; [reflexivity |].
  symmetry. apply Z.ltb_ge. apply list_max_nonneg.
  apply Forall_forall. intros z Hz. apply in_map_iff in Hz as (signal & <- & Hin).
  rewrite Forall_forall in Hspr. specialize (Hspr signal Hin). nia.
Qed.

Lemma data_loop_decodes :
  (2 * (Z.to_nat (records header) * record_samples header)
   <= List.length body)%nat ->
  exists st,
    read_data_records header body = inr (header, data st, warnings st)
    /\ decoded_up_to header body (Z.to_nat (records header)) 0 st.
Proof.
  intros Hfits. rewrite read_data_records_unfold.
  change (range (records header)) with (seq 0 (Z.to_nat (records header))).
  destruct (for_each_seq
              (fun rec st =>
                 for_each (read_block header (max_samples header) rec)
                          (range (nsignals header)) st)
              (fun rec st => decoded_up_to header body rec 0 st)
              (Z.to_nat (records header)) 0 _ zeros_grid_decoded)
    as (st & Hrun & Hend).
  - intros rec st0 [_ Hrec] Hinv0. cbn in Hrec.
    apply read_record_decodes; [lia | exact Hinv0 | nia].
  - rewrite Hrun. exists st. split; [reflexivity | exact Hend].
Qed.

Lemma data_loop_decodes_or_raises :
  (exists st,
      read_data_records header body = inr (header, data st, warnings st)
      /\ decoded_up_to header body (Z.to_nat (records header)) 0 st)
  \/ read_data_records header body = inl StructError.
Proof.
  rewrite read_data_records_unfold.
  change (range (records header)) with (seq 0 (Z.to_nat (records header))).
  destruct (for_each_seq_or
              (fun rec st =>
                 for_each (read_block header (max_samples header) rec)
                          (range (nsignals header)) st)
              (fun rec st => decoded_up_to header body rec 0 st)
              StructError
              (Z.to_nat (records header)) 0 _ zeros_grid_decoded)
    as [(st & Hrun & Hend) | Hraise].
  - intros rec st0 [_ Hrec] Hinv0. cbn in Hrec.
    apply read_record_decodes_or_raises; [lia | exact Hinv0].
  - left. rewrite Hrun. exists st. split; [reflexivity | exact Hend].
  - right. now rewrite Hraise.
Qed.

End DataLoop.

(** X15.  From a header that counts its signal headers and holds no
    negative count, and a data part that holds every block the header
    announces, the decoder returns the header, no warning, and a grid with
    one row per channel, all of the width of the longest channel: sample
    [k] of a channel's block in record [r] is the little-endian 16-bit
    integer found at that block's place in the file, and a shorter channel
    is followed by zeros. *)
Theorem read_data_records_decodes (header : Header) (body : list Byte.byte) :
  well_formed header ->
  (2 * (Z.to_nat (records header) * record_samples header)
   <= List.length body)%nat ->
  exists grid,
    read_data_records header body = inr (header, grid, [])
    /\ List.length grid = List.length (signals header)
    /\ Forall (fun row => List.length row = grid_width header) grid
    /\ forall channel signal,
         nth_error (signals header) channel = Some signal ->
         (forall r k,
             (r < Z.to_nat (records header))%nat ->
             (k < block_size signal)%nat ->
             nth (r * block_size signal + k) (nth channel grid []) 0%Z
             = sample_at header body r channel k)
         /\ (forall idx,
                (Z.to_nat (records header) * block_size signal <= idx)%nat ->
                nth idx (nth channel grid []) 0%Z = 0%Z).
Proof.
  intros Hwell Hfits.
  destruct (data_loop_decodes header body Hwell Hfits)
    as (st & Hrun & [_ _ Hwarn Hrows Hwidth Hsamples Hpadding]).
  exists (data st). rewrite Hwarn in Hrun.
  repeat split; try assumption.
  - intros r k Hr Hk. now apply Hsamples.
  - intros idx Hidx. now apply (Hpadding channel signal).
Qed.

Lemma read_data_records_decodes_witness :
  read_data_records two_rate_header two_rate_body
  = inr (two_rate_header, [[1; 2; 4; -1]; [3; 6; 0; 0]]%Z, []).
Proof.
  assert (Hwell : well_formed two_rate_header).
  { repeat split; try (cbn; lia). repeat constructor; cbn; lia. }
  assert (Hfits : (2 * (Z.to_nat (records two_rate_header)
                        * record_samples two_rate_header)
                   <= List.length two_rate_body)%nat) by (cbn; lia).
  destruct (read_data_records_decodes two_rate_header two_rate_body Hwell Hfits)
    as (grid & Hrun & _).
  rewrite Hrun. vm_compute in Hrun. injection Hrun as <-. reflexivity.
Defined.

(** X16.  From such a header and a data part that is shorter than the
    blocks the header announces, the decoder raises the error of
    [struct.unpack]: it returns no grid, be it a partial one, and no
    warning. *)
Theorem read_data_records_short_body (header : Header) (body : list Byte.byte) :
  well_formed header ->
  (List.length body
   < 2 * (Z.to_nat (records header) * record_samples header))%nat ->
  read_data_records header body = inl StructError.
Proof.
  intros Hwell Hshort.
  destruct (data_loop_decodes_or_raises header body Hwell)
    as [(st & _ & Hend) | Hraise]; [| exact Hraise].
  pose proof (decoded_fits _ _ _ _ _ Hend) as Hfit.
  unfold block_offset in Hfit. cbn [firstn map list_sum fold_right] in Hfit. lia.
Qed.

Lemma read_data_records_short_body_witness :
  read_data_records two_rate_header (firstn 11 two_rate_body) = inl StructError.
Proof.
  apply read_data_records_short_body.
  - repeat split; try (cbn; lia). repeat constructor; cbn; lia.
  - cbn. lia.
Defined.

(** ** What the decoder never does *)

Lemma read_block_returns (header : Header) (max : Z) (rec sig : nat)
  (st st' : ReadState) (rows : nat) :
  read_block header max rec sig st = inr st' ->
  (forall signal,
      nth_error (signals header) sig = Some signal ->
      (0 < samples_per_record signal)%Z ->
      (Z.of_nat (S rec) * samples_per_record signal <= max)%Z) ->
  warnings st = []
  /\ List.length (data st) = rows
  /\ Forall (fun row => List.length row = Z.to_nat max) (data st) ->
  warnings st' = []
  /\ List.length (data st') = rows
  /\ Forall (fun row => List.length row = Z.to_nat max) (data st').
Proof.
  intros Hrun Hbound (Hwarn & Hrows & Hwidth).
  unfold read_block, lookup in Hrun.
  destruct (nth_error (signals header) sig) as [signal |] eqn:Hsig;
    [| discriminate].
  cbn [bind ret] in Hrun.
  destruct (samples_per_record signal >? 0)%Z eqn:Hpos.
  2:{ injection Hrun as <-. now repeat split. }
  apply Z.gtb_lt in Hpos. specialize (Hbound signal eq_refl Hpos).
  destruct (struct_unpack_h _ _) as [e | vals] eqn:Hunpack; [discriminate |].
  destruct (struct_unpack_h_returns _ _ _ Hunpack) as (_ & _ & Hvals).
  cbn [bind] in Hrun. rewrite Hvals, Nat.eqb_refl in Hrun.
  replace (Z.of_nat ((rec + 1) * Z.to_nat (samples_per_record signal)) <=? max)%Z
    with true in Hrun.
  2:{ symmetry. apply Z.leb_le.
      rewrite Nat2Z.inj_mul, Z2Nat.id by lia.
      replace (rec + 1)%nat with (S rec) by lia. exact Hbound. }
  destruct (nth_error (data st) sig) as [row |] eqn:Hrow; [| discriminate].
  cbn [bind ret] in Hrun. injection Hrun as <-. cbn [warnings data].
  repeat split; [exact Hwarn | now rewrite length_set_nth |].
  apply Forall_set_nth; [| exact Hwidth].
  assert (Hrowlen : List.length row = Z.to_nat max).
  { rewrite Forall_forall in Hwidth. apply Hwidth.
    exact (nth_error_In _ _ Hrow). }
  rewrite length_set_slice; [exact Hrowlen |].
  rewrite Hvals, Hrowlen. nia.
Qed.

Lemma read_data_records_returns (header : Header) (body : list Byte.byte)
  (h : Header) (grid : list (list Z)) (ws : list Warning) :
  read_data_records header body = inr (h, grid, ws) ->
  ws = [] /\ h = header
  /\ List.length grid = Z.to_nat (nsignals header)
  /\ exists width, Forall (fun row => List.length row = width) grid.
Proof.
  unfold read_data_records. intros Hrun.
  destruct (total_samples_per_signal header) as [e | totals] eqn:Htotals;
    [discriminate |].
  cbn [bind] in Hrun.
  unfold total_samples_per_signal, range in Htotals.
  apply total_samples_from in Htotals as [_ Htotals].
  cbn [skipn app] in Htotals.
  replace (match totals with [] => 0%Z | _ :: _ => list_max totals end)
    with (list_max totals) in Hrun by now destruct totals.
  destruct ((nsignals header <? 0)%Z || (list_max totals <? 0)%Z);
    [discriminate |].
  destruct (for_each _ _ _) as [e | st] eqn:Hloop; [discriminate |].
  cbn [bind ret] in Hrun. injection Hrun as <- <- <-.
  assert (Hend : warnings st = []
                 /\ List.length (data st) = Z.to_nat (nsignals header)
                 /\ Forall (fun row => List.length row = Z.to_nat (list_max totals))
                           (data st)).
  { unfold range in Hloop.
    apply (for_each_seq_returns _
             (fun _ st =>
                warnings st = []
                /\ List.length (data st) = Z.to_nat (nsignals header)
                /\ Forall (fun row => List.length row = Z.to_nat (list_max totals))
                          (data st))
             _ _ _ _) in Hloop; [exact Hloop | |].
    - cbn [warnings data]. repeat split; [now rewrite repeat_length |].
      apply Forall_forall. intros row Hrow.
      apply repeat_spec in Hrow. subst row. now rewrite repeat_length.
    - intros rec st0 st1 [_ Hrec] Hinv0 Hrecord. cbn in Hrec.
      apply (for_each_seq_returns _
               (fun _ st =>
                  warnings st = []
                  /\ List.length (data st) = Z.to_nat (nsignals header)
                  /\ Forall (fun row =>
                               List.length row = Z.to_nat (list_max totals))
                            (data st))
               _ _ _ _ Hinv0) in Hrecord; [exact Hrecord |].
      intros sig st2 st3 [_ Hsig] Hinv2 Hblock. cbn in Hsig.
      apply (read_block_returns _ _ _ _ _ _ _ Hblock); [| exact Hinv2].
      intros signal Hsignal Hpos.
      assert (Hin : In (records header * samples_per_record signal)%Z totals).
      { rewrite Htotals.
        apply (in_map (fun signal =>
                         (records header * samples_per_record signal)%Z)).
        apply (nth_error_In _ sig).
        rewrite nth_error_firstn.
        now replace (sig <? Z.to_nat (nsignals header))%nat with true
          by (symmetry; apply Nat.ltb_lt; lia). }
      apply list_max_ge in Hin. nia. }
  destruct Hend as (Hwarn & Hrows & Hwidth).
  repeat split; try assumption. now exists (Z.to_nat (list_max totals)).
Qed.

Section NeverWarns.

Variable py_float : string -> option float.

(** X17.  Whatever the file holds, a decoder that returns has logged
    neither of its two warnings: a block of fewer samples than declared
    makes [struct.unpack] raise, and no block ends beyond the grid.  What
    it returns is the header it parsed and a grid with one row per
    declared channel, all rows of one length. *)
Theorem read_edf_file_direct_never_warns (file_bytes : list Byte.byte)
  (header : Header) (grid : list (list Z)) (logged : list Warning) :
  read_edf_file_direct py_float file_bytes = inr (header, grid, logged) ->
  logged = []
  /\ header = fst (parse_edf_header py_float file_bytes)
  /\ List.length grid = Z.to_nat (nsignals header)
  /\ exists width, Forall (fun row => List.length row = width) grid.
Proof.
  unfold read_edf_file_direct.
  destruct (parse_edf_header py_float file_bytes) as [parsed body].
  intros Hrun. apply read_data_records_returns in Hrun
    as (Hlogged & Hheader & Hrows & Hwidth).
  cbn [fst]. rewrite Hheader. now repeat split.
Qed.

End NeverWarns.

Lemma read_edf_file_direct_never_warns_witness :
  exists header grid logged,
    read_edf_file_direct decimal_float complete_file
    = inr (header, grid, logged)
    /\ logged = [].
Proof.
  destruct (read_edf_file_direct decimal_float complete_file)
    as [e | [[header grid] logged]] eqn:Hrun.
  - vm_compute in Hrun. discriminate.
  - exists header, grid, logged. split; [reflexivity |].
    exact (proj1 (read_edf_file_direct_never_warns decimal_float complete_file
                    header grid logged Hrun)).
Defined.

End DecoderProperties.

(** ** The two readers of a time of day *)

Section ClockTime.

Lemma contains_char_app (sep : ascii) (a b : string) :
  contains_char sep (a ++ b) = contains_char sep a || contains_char sep b.
Proof.
  induction a as [| c a IH]; [reflexivity |].
  cbn [append contains_char]. rewrite IH. now rewrite orb_assoc.
Qed.

Lemma digit_is_no_colon (c : ascii) : is_digit c = true -> Ascii.eqb c ":" = false.
Proof.
  destruct c as [[] [] [] [] [] [] [] []]; intros H; try reflexivity;
    vm_compute in H; discriminate.
Qed.

Lemma all_digits_no_colon (s : string) :
  all_digits s = true -> contains_char ":" s = false.
Proof.
  unfold all_digits. induction s as [| c s IH]; [reflexivity |].
  cbn [list_ascii_of_string forallb contains_char]. intros H.
  apply andb_true_iff in H as [Hc Hs].
  now rewrite (digit_is_no_colon c Hc), (IH Hs).
Qed.

Lemma clock_tail_no_colon (tail : string) :
  clock_tail tail = true -> contains_char ":" tail = false.
Proof.
  destruct tail as [| c fraction]; [reflexivity |]. cbn [clock_tail].
  destruct (Ascii.eqb_spec c "."%char) as [-> | Hne].
  - intros H. cbn [contains_char]. now rewrite (all_digits_no_colon _ H).
  - intros H. exfalso.
    destruct c as [[] [] [] [] [] [] [] []]; try discriminate.
    now apply Hne.
Qed.

Lemma clock_tail_group (tail : string) :
  clock_tail tail = true ->
  (let (point, after_point) :=
     match tail with
     | String "." t => ("."%string, t)
     | _ => (EmptyString, tail)
     end in
   (point ++ fst (span_digits after_point))%string) = tail.
Proof.
  destruct tail as [| c fraction]; [reflexivity |]. cbn [clock_tail].
  destruct (Ascii.eqb_spec c "."%char) as [-> | Hne].
  - intros H.
    pose proof (span_digits_run fraction EmptyString H eq_refl) as Hspan.
    rewrite string_app_nil_r in Hspan. now rewrite Hspan.
  - intros H. exfalso.
    destruct c as [[] [] [] [] [] [] [] []]; try discriminate.
    now apply Hne.
Qed.

Lemma match_clock_time_canonical (h m whole : nat) (tail : string) :
  (h < 100)%nat -> (m < 100)%nat -> (whole < 100)%nat ->
  clock_tail tail = true ->
  match_clock_time (clock_text h m (two_digits whole ++ tail))
  = Some (two_digits h, two_digits m, two_digits whole ++ tail).
Proof.
  intros Hh Hm Hw Htail. unfold match_clock_time, clock_text.
  change 2%nat with (String.length (two_digits h)) at 1.
  rewrite (take_digits_run _ _ (all_digits_two_digits h Hh)).
  change 2%nat with (String.length (two_digits m)) at 1.
  rewrite (take_digits_run _ _ (all_digits_two_digits m Hm)).
  change 2%nat with (String.length (two_digits whole)) at 1.
  rewrite (take_digits_run _ _ (all_digits_two_digits whole Hw)).
  pose proof (clock_tail_group tail Htail) as Hgroup.
  destruct (match tail with
            | String "." t => ("."%string, t)
            | _ => (EmptyString, tail)
            end) as [point after_point].
  now rewrite Hgroup.
Qed.

Lemma clock_arithmetic (h m : nat) :
  (h < 100)%nat -> (m < 100)%nat ->
  float_of_Z (Z.of_nat h * 3600 + Z.of_nat m * 60)
  = inr (Z_to_float (Z.of_nat h) * 3600 + Z_to_float (Z.of_nat m) * 60)%float.
Proof.
  intros Hh Hm.
  pose (check := fun h m =>
          match float_of_Z (Z.of_nat h * 3600 + Z.of_nat m * 60) with
          | inr x =>
              Leibniz.eqb x
                (Z_to_float (Z.of_nat h) * 3600 + Z_to_float (Z.of_nat m) * 60)%float
          | inl _ => false
          end).
  assert (Hall : forallb (fun h => forallb (check h) (seq 0 100)) (seq 0 100) = true)
    by (vm_compute; reflexivity).
  apply (below_100 _ Hall) in Hh. apply (below_100 _ Hh) in Hm.
  unfold check in Hm. revert Hm.
  generalize (float_of_Z (Z.of_nat h * 3600 + Z.of_nat m * 60)).
  intros [e | x] Hm; [discriminate |].
  apply Leibniz.eqb_spec in Hm. now rewrite Hm.
Qed.

Lemma two_digits_no_colon (n : nat) :
  (n < 100)%nat -> contains_char ":" (two_digits n) = false.
Proof.
  intros Hn. apply all_digits_no_colon. now apply all_digits_two_digits.
Qed.

Variable py_float : string -> option float.

(** X18.  On a cell that reads HH:MM:SS once trimmed, the seconds with or
    without decimals, [time_to_seconds] of [relative.py] and
    [parse_time_to_seconds] of the converter give the same number of
    seconds: the whole seconds of the hours and minutes plus what
    [float] makes of the seconds field. *)
Theorem clock_time_readers_agree (cell : string) (h m whole : nat)
  (tail : string) (seconds : float) :
  (h < 100)%nat -> (m < 100)%nat -> (whole < 100)%nat ->
  clock_tail tail = true ->
  strip cell = clock_text h m (two_digits whole ++ tail) ->
  (forall n, (n < 100)%nat ->
             py_float (two_digits n) = Some (Z_to_float (Z.of_nat n))) ->
  py_float (two_digits whole ++ tail) = Some seconds ->
  time_to_seconds py_float (Some cell)
  = inr (parse_time_to_seconds py_float (strip cell))
  /\ parse_time_to_seconds py_float (strip cell)
     = (Z_to_float (Z.of_nat h) * 3600 + Z_to_float (Z.of_nat m) * 60
        + seconds)%float.
Proof.
  intros Hh Hm Hw Htail Hcell Hfloat Hseconds.
  assert (Hparse : parse_time_to_seconds py_float (strip cell)
                   = (Z_to_float (Z.of_nat h) * 3600
                      + Z_to_float (Z.of_nat m) * 60 + seconds)%float).
  { unfold parse_time_to_seconds. rewrite Hcell. unfold clock_text.
    rewrite split_three_fields.
    - now rewrite (Hfloat h Hh), (Hfloat m Hm), Hseconds.
    - now apply two_digits_no_colon.
    - now apply two_digits_no_colon.
    - rewrite contains_char_app, (two_digits_no_colon whole Hw).
      now apply clock_tail_no_colon. }
  split; [| exact Hparse].
  rewrite Hparse. unfold time_to_seconds.
  destruct (String.eqb_spec cell "") as [-> | _].
  { cbn in Hcell. unfold clock_text in Hcell. discriminate. }
  rewrite Hcell, (match_clock_time_canonical h m whole tail Hh Hm Hw Htail).
  rewrite (py_int_two_digits h Hh), (py_int_two_digits m Hm), Hseconds.
  cbn [or_raise bind ret].
  now rewrite (clock_arithmetic h m Hh Hm).
Qed.

End ClockTime.

Lemma decimal_float_two_digits (n : nat) :
  (n < 100)%nat -> decimal_float (two_digits n) = Some (Z_to_float (Z.of_nat n)).
Proof.
  intros Hn.
  apply (below_100
           (fun k => match decimal_float (two_digits k) with
                     | Some x => Leibniz.eqb x (Z_to_float (Z.of_nat k))
                     | None => false
                     end)) in Hn; [| vm_compute; reflexivity].
  destruct (decimal_float (two_digits n)) as [x |]; [| discriminate].
  apply Leibniz.eqb_spec in Hn. now rewrite Hn.
Qed.

Lemma clock_time_readers_agree_witness :
  time_to_seconds decimal_float (Some " 09:30:15.5 ")
  = inr (parse_time_to_seconds decimal_float (strip " 09:30:15.5 "))
  /\ parse_time_to_seconds decimal_float (strip " 09:30:15.5 ")
     = 34215.5%float.
Proof.
  apply (clock_time_readers_agree decimal_float " 09:30:15.5 " 9 30 15 ".5"
           15.5%float); try lia; try reflexivity.
  exact decimal_float_two_digits.
Defined.

(** ** Physical scaling, channel by channel *)

Section ScalingProperties.

Local Open Scope list_scope.

Lemma float_of_Z_returns (z : Z) (x : float) :
  float_of_Z z = inr x -> x = Z_to_float z.
Proof.
  unfold float_of_Z, Z_to_float.
  destruct (binary_normalize prec emax z 0 false); intros H;
    try discriminate; now injection H as <-.
Qed.

Lemma py_truediv_returns (a b q : float) :
  py_truediv a b = inr q -> q = (a / b)%float.
Proof.
  unfold py_truediv. destruct (b =? 0)%float; intros H;
    [discriminate | now injection H as <-].
Qed.

Lemma nth_error_set_nth_same {A : Type} (l : list A) :
  forall i a, (i < List.length l)%nat -> nth_error (set_nth i a l) i = Some a.
Proof.
  induction l as [| b l IH]; intros [| i] a Hi; cbn in *; try lia;
    [reflexivity |].
  apply IH. lia.
Qed.

(** The loop gives each row the calibration of the channel of the same
    index, once, and leaves the other rows as they are. *)
Lemma apply_physical_scaling_rows (sigs : list SignalInfo) :
  forall (i : nat) (data_float scaled : list (list float)),
    apply_physical_scaling i sigs data_float = inr scaled ->
    List.length scaled = List.length data_float
    /\ forall j,
         ((j < i)%nat -> nth_error scaled j = nth_error data_float j)
         /\ ((i + List.length sigs <= j)%nat ->
             nth_error scaled j = nth_error data_float j)
         /\ forall signal,
              (i <= j)%nat ->
              nth_error sigs (j - i) = Some signal ->
              nth_error scaled j
              = option_map (scaled_row signal) (nth_error data_float j).
Proof.
  induction sigs as [| s sigs IH]; intros i data_float scaled Hrun.
  - cbn in Hrun. injection Hrun as <-. split; [reflexivity |].
    intros j. repeat split; try reflexivity.
    intros signal _ Hsig. now destruct (j - i)%nat.
  - cbn [apply_physical_scaling] in Hrun.
    destruct (float_ne (physical_max s) (physical_min s)) eqn:Hne.
    + apply bind_inr in Hrun as (digital_range & Hrange & Hrun).
      apply bind_inr in Hrun as (scale & Hscale & Hrun).
      apply bind_inr in Hrun as (dmin & Hdmin & Hrun).
      apply bind_inr in Hrun as (row & Hrow & Hrun).
      apply float_of_Z_returns in Hrange. apply float_of_Z_returns in Hdmin.
      apply py_truediv_returns in Hscale. subst digital_range dmin.
      fold (scale_of s) in Hscale. subst scale. fold (offset_of s) in Hrun.
      unfold lookup in Hrow.
      destruct (nth_error data_float i) as [row' |] eqn:Hi; [| discriminate].
      injection Hrow as ->.
      assert (Hlen : (i < List.length data_float)%nat)
        by (apply nth_error_Some; congruence).
      destruct (IH _ _ _ Hrun) as [Hlength Hrows].
      rewrite length_set_nth in Hlength. split; [exact Hlength |].
      intros j. destruct (Hrows j) as (Hbefore & Hafter & Hat).
      repeat split.
      * intros Hj. rewrite Hbefore by lia.
        apply nth_error_set_nth_other. lia.
      * intros Hj. cbn [List.length] in Hj. rewrite Hafter by lia.
        apply nth_error_set_nth_other. lia.
      * intros signal Hij Hsig.
        destruct (Nat.eq_dec j i) as [-> | Hneq].
        -- rewrite Nat.sub_diag in Hsig. injection Hsig as <-.
           rewrite Hbefore by lia.
           rewrite (nth_error_set_nth_same _ _ _ Hlen), Hi.
           unfold scaled_row. now rewrite Hne.
        -- replace (j - i)%nat with (S (j - S i)) in Hsig by lia.
           cbn [nth_error] in Hsig.
           rewrite (Hat signal ltac:(lia) Hsig).
           f_equal. apply nth_error_set_nth_other. lia.
    + destruct (IH _ _ _ Hrun) as [Hlength Hrows].
      split; [exact Hlength |].
      intros j. destruct (Hrows j) as (Hbefore & Hafter & Hat).
      repeat split.
      * intros Hj. apply Hbefore. lia.
      * intros Hj. cbn [List.length] in Hj. apply Hafter. lia.
      * intros signal Hij Hsig.
        destruct (Nat.eq_dec j i) as [-> | Hneq].
        -- rewrite Nat.sub_diag in Hsig. injection Hsig as <-.
           rewrite Hbefore by lia. unfold scaled_row. rewrite Hne.
           now destruct (nth_error data_float i).
        -- replace (j - i)%nat with (S (j - S i)) in Hsig by lia.
           cbn [nth_error] in Hsig.
           exact (Hat signal ltac:(lia) Hsig).
Qed.

(** X19.  In the matrix of the [Raw] that
    [create_mne_raw_from_edf_data] returns, the row of every channel is
    the row of stored integers of the same index, converted to floats
    and, for a calibrated channel, taken through that channel's own scale
    and offset, once; and the matrix has as many rows as the grid. *)
Theorem scaling_is_channel_by_channel
  (edf_header : Header) (edf_data : list (list Z)) (raw : Raw) :
  create_mne_raw_from_edf_data edf_header edf_data = inr raw ->
  (forall i signal,
      nth_error (signals edf_header) i = Some signal ->
      nth_error (raw_data raw) i
      = option_map (fun row => scaled_row signal (map Z_to_float row))
                   (nth_error edf_data i))
  /\ List.length (raw_data raw) = List.length edf_data.
Proof.
  intros Hrun. unfold create_mne_raw_from_edf_data in Hrun.
  apply bind_inr in Hrun as (first & _ & Hrun).
  apply bind_inr in Hrun as (spr & _ & Hrun).
  apply bind_inr in Hrun as (rate & _ & Hrun).
  apply bind_inr in Hrun as (scaled & Hscaled & Hrun).
  injection Hrun as <-. cbn [raw_data RawArray].
  destruct (apply_physical_scaling_rows _ _ _ _ Hscaled) as [Hlength Hrows].
  split.
  - intros i signal Hsig.
    destruct (Hrows i) as (_ & _ & Hat).
    rewrite (Hat signal ltac:(lia)) by (now rewrite Nat.sub_0_r).
    rewrite nth_error_map. now destruct (nth_error edf_data i).
  - now rewrite Hlength, length_map.
Qed.

End ScalingProperties.

Lemma scaling_is_channel_by_channel_witness :
  exists raw,
    create_mne_raw_from_edf_data calibrated_header [[1; 2]; [3; -4]]%Z = inr raw
    /\ raw_data raw = [[1; 2]; [6; -8]]%float.
Proof.
  destruct (create_mne_raw_from_edf_data calibrated_header [[1; 2]; [3; -4]]%Z)
    as [e | raw] eqn:Hrun.
  - vm_compute in Hrun. discriminate.
  - exists raw. split; [reflexivity |].
    destruct (scaling_is_channel_by_channel _ _ _ Hrun)
      as (Hrows & Hlength).
    pose proof (Hrows 0%nat _ eq_refl) as Hraw.
    pose proof (Hrows 1%nat _ eq_refl) as Hcalibrated.
    destruct (raw_data raw) as [| r0 [| r1 [| r2 rest]]]; try discriminate.
    cbn in Hraw, Hcalibrated.
    injection Hraw as ->. injection Hcalibrated as ->.
    vm_compute. reflexivity.
Defined.

(** ** The ways a run can end when the outside can refuse *)

Section OutsideProperties.

Variable world : Outside.
Variable py_float : string -> option float.

Lemma export_on_outcomes (done : list Effect) (destination : string)
  (raw : Raw) (final_duration : float) :
  times_last raw = inr final_duration ->
  (export_succeeds world destination raw = true
   /\ export_on world done destination raw
      = (true, (done ++ [ExportRaw destination raw])%list))
  \/ (export_succeeds world destination raw = false
      /\ export_on world done destination raw = (false, done)).
Proof.
  intros Hlast. unfold export_on. rewrite Hlast.
  destruct (export_succeeds world destination raw); [left | right]; now split.
Qed.

Lemma updates_on_are_writes (updates : list (string * list StatusUpdate)) :
  Forall is_write
    (flat_map (fun entry =>
                 update_excel_event_status_on world (fst entry) (snd entry))
              updates).
Proof.
  apply Forall_forall. intros effect Hin.
  apply in_flat_map in Hin as ([excel_file infos] & _ & Hin).
  unfold update_excel_event_status_on in Hin. cbn [fst snd] in Hin.
  destruct (workbook_saves world excel_file); [| contradiction].
  unfold update_excel_event_status in Hin.
  apply in_map_iff in Hin as (info & <- & _).
  unfold is_write. eauto.
Qed.

(** Steps 5 to 7: nothing at all when the loop raises; else the status
    writes, then the renaming if no output path was given, then the
    export, up to the first of the two that is refused. *)
Lemma process_events_on_outcomes (inp : ConvertInput) (rec : Reconciled)
  (actual_duration : float) (all_events : list Event)
  (mapping : list (nat * string)) :
  times_last (repaired rec) = inr actual_duration ->
  let run := process_events_on world inp rec actual_duration all_events mapping in
  run = (false, [])
  \/ exists written raw,
       Forall is_write written
       /\ match output_file inp with
          | None =>
              let source := path_join (edf_parent inp) (edf_name inp) in
              let backup_file :=
                pathlib_join (edf_parent inp) (backup_name_of inp) in
              let final :=
                pathlib_join (edf_parent inp) (correct_filename_of inp) in
              (move_succeeds world source backup_file = false
               /\ run = (false, written))
              \/ (move_succeeds world source backup_file = true
                  /\ export_succeeds world final raw = false
                  /\ run = (false, (written ++ [MoveFile source backup_file])%list))
              \/ (move_succeeds world source backup_file = true
                  /\ export_succeeds world final raw = true
                  /\ run = (true,
                            (written ++ [MoveFile source backup_file]
                             ++ [ExportRaw final raw])%list))
          | Some destination =>
              (export_succeeds world destination raw = false
               /\ run = (false, written))
              \/ (export_succeeds world destination raw = true
                  /\ run = (true, (written ++ [ExportRaw destination raw])%list))
          end.
Proof.
  intros Hlast. cbv zeta. unfold process_events_on.
  destruct (classify_events _ _ _ _) as [e | st]; [now left |].
  right. cbv zeta.
  set (raw := set_annotations (repaired rec)
                (make_annotations (onsets st) (durations st) (descriptions st))).
  set (written := flat_map _ _).
  exists written, raw. split; [apply updates_on_are_writes |].
  destruct (output_file inp) as [destination |].
  - match goal with
    | |- context [export_on world ?done ?dest ?raw] =>
        destruct (export_on_outcomes done dest raw actual_duration Hlast)
          as [[Hok Hrun] | [Hrefused Hrun]]
    end; rewrite Hrun; [right | left]; split; try assumption; reflexivity.
  - destruct (move_succeeds world _ _) eqn:Hmove; [| left; now split].
    right.
    match goal with
    | |- context [export_on world ?done ?dest ?raw] =>
        destruct (export_on_outcomes done dest raw actual_duration Hlast)
          as [[Hok Hrun] | [Hrefused Hrun]]
    end; rewrite Hrun; [right | left].
    + rewrite <- app_assoc. now repeat split.
    + now repeat split.
Qed.

Lemma convert_on_outcomes (inp : ConvertInput) :
  let run := convert_edf_to_edfplus_on world py_float inp in
  run = (false, [])
  \/ run = (true, [])
  \/ (exists destination raw,
         output_file inp = Some destination
         /\ export_succeeds world destination raw = true
         /\ run = (true, [ExportRaw destination raw]))
  \/ exists rec actual_duration all_events mapping,
       times_last (repaired rec) = inr actual_duration
       /\ run = process_events_on world inp rec actual_duration all_events mapping.
Proof.
  cbv zeta. unfold convert_edf_to_edfplus_on.
  destruct (excel_files inp) as [| file files]; [now left |].
  destruct (reader_loads world); [| now left].
  destruct (load_recording py_float inp) as [e | [rec d]] eqn:Hload;
    [now left |].
  assert (Hlast : times_last (repaired rec) = inr d).
  { unfold load_recording in Hload.
    apply bind_inr in Hload as (hd & _ & Hload).
    apply bind_inr in Hload as (rec' & _ & Hload).
    apply bind_inr in Hload as (d' & Hlast & Hload).
    injection Hload as <- <-. exact Hlast. }
  destruct (load_all_events py_float _ _ [] []) as [all_events mapping].
  destruct all_events as [| event events].
  - destruct (output_file inp) as [destination |] eqn:Hout; [| now right; left].
    destruct (String.eqb destination ""); [now right; left |].
    destruct (export_succeeds world destination (repaired rec)) eqn:Hexport;
      [| now left].
    right. right. left. now exists destination, (repaired rec).
  - right. right. right. exists rec, d, (event :: events), mapping.
    now split.
Qed.

Lemma writes_hold_no_export (written : list Effect) (destination : string)
  (raw : Raw) :
  Forall is_write written -> ~ In (ExportRaw destination raw) written.
Proof.
  intros Hwritten Hin. rewrite Forall_forall in Hwritten.
  destruct (Hwritten _ Hin) as (? & ? & ? & ? & Heq). discriminate.
Qed.

(** X9.  A run that reports failure has exported nothing.  What it has
    done is nothing at all, or, when the renaming or the export was
    refused after the loop, the status writes, followed by the renaming
    when it is the export that was refused.  On an outside that refuses no
    renaming and no export a failed run has done nothing. *)
Theorem failed_conversion_effects (inp : ConvertInput) :
  let run := convert_edf_to_edfplus_on world py_float inp in
  fst run = false ->
  (forall destination raw, ~ In (ExportRaw destination raw) (snd run))
  /\ (exists written,
         Forall is_write written
         /\ (snd run = written
             \/ exists source backup_file,
                  output_file inp = None
                  /\ move_succeeds world source backup_file = true
                  /\ snd run = (written ++ [MoveFile source backup_file])%list))
  /\ ((forall source destination,
          move_succeeds world source destination = true) ->
      (forall destination raw, export_succeeds world destination raw = true) ->
      snd run = []).
Proof.
  cbv zeta. intros Hfail.
  destruct (convert_on_outcomes inp)
    as [H | [H | [(destination & raw & _ & _ & H)
                 | (rec & d & all & mapping & Hlast & H)]]];
    cbv zeta in H.
  - rewrite H. cbn [snd]. repeat split.
    + intros destination raw [].
    + exists []. split; [constructor | now left].
  - rewrite H in Hfail. discriminate.
  - rewrite H in Hfail. discriminate.
  - destruct (process_events_on_outcomes inp rec d all mapping Hlast)
      as [Hnone | (written & raw & Hwritten & Hcases)]; cbv zeta in *.
    + rewrite H, Hnone. cbn [snd]. repeat split.
      * intros destination raw [].
      * exists []. split; [constructor | now left].
    + rewrite H in Hfail |- *.
      destruct (output_file inp) as [destination |] eqn:Hout.
      * destruct Hcases as [[Hrefused Hrun] | [_ Hrun]];
          rewrite Hrun in Hfail |- *; [| discriminate]. cbn [snd].
        repeat split.
        -- intros d' raw'. now apply writes_hold_no_export.
        -- exists written. split; [exact Hwritten | now left].
        -- intros _ Hexports. rewrite Hexports in Hrefused. discriminate.
      * destruct Hcases as [[Hrefused Hrun] | [(Hmoved & Hrefused & Hrun)
                                              | (_ & _ & Hrun)]];
          rewrite Hrun in Hfail |- *; try discriminate; cbn [snd].
        -- repeat split.
           ++ intros d' raw'. now apply writes_hold_no_export.
           ++ exists written. split; [exact Hwritten | now left].
           ++ intros Hmoves _. rewrite Hmoves in Hrefused. discriminate.
        -- repeat split.
           ++ intros d' raw' Hin. apply in_app_or in Hin as [Hin | [Hin | []]];
                [now apply (writes_hold_no_export written d' raw') | discriminate].
           ++ exists written. split; [exact Hwritten |]. right. eauto.
           ++ intros _ Hexports. rewrite Hexports in Hrefused. discriminate.
Qed.

End OutsideProperties.

(** ** The run in which nothing is refused *)

Lemma reconcile_duration_repaired (header_duration : float) (raw : Raw)
  (r : Reconciled) :
  reconcile_duration header_duration raw = inr r ->
  (action r = NoAction -> repaired r = raw)
  /\ (action r <> NoAction -> annotations (repaired r) = []).
Proof.
  unfold reconcile_duration. intros Hrun.
  apply bind_inr in Hrun as (measured & _ & Hrun).
  destruct (float_gt _ _).
  - apply bind_inr in Hrun as (target & _ & Hrun).
    destruct (target >? _)%Z; [| destruct (target <? _)%Z];
      injection Hrun as <-; cbn; split; intros H;
      solve [reflexivity | discriminate | now contradiction H].
  - injection Hrun as <-. cbn. split; intros H;
      [reflexivity | now contradiction H].
Qed.

Lemma pathlib_join_relative (parent name : string) :
  prefix "/" name = false -> pathlib_join parent name = path_join parent name.
Proof. intros H. unfold pathlib_join. now rewrite H. Qed.

Lemma no_slash_is_relative (name : string) :
  contains_char "/" name = false -> prefix "/" name = false.
Proof.
  destruct name as [| c rest]; [reflexivity |].
  cbn [contains_char prefix]. intros H.
  apply orb_false_iff in H as [Hc _].
  destruct (Ascii.ascii_dec "/" c) as [<- | Hne]; [discriminate | reflexivity].
Qed.

Section Obliging.

Variable py_float : string -> option float.

(** [convert_edf_to_edfplus] is the run on an outside that refuses
    nothing, for names that are not absolute paths. *)
Lemma convert_on_obliging (inp : ConvertInput) :
  prefix "/" (backup_name_of inp) = false ->
  prefix "/" (correct_filename_of inp) = false ->
  convert_edf_to_edfplus_on obliging py_float inp
  = convert_edf_to_edfplus py_float inp.
Proof.
  intros Hbackup Hfinal.
  unfold convert_edf_to_edfplus_on, convert_edf_to_edfplus, convert_body,
    load_recording.
  destruct (excel_files inp) as [| file files]; [reflexivity |].
  cbn [reader_loads obliging].
  destruct (read_header_duration py_float (edf_bytes inp)) as [e | hd];
    [reflexivity |]. cbn [bind].
  destruct (reconcile_duration hd (mne_raw inp)) as [e | rec]; [reflexivity |].
  cbn [bind].
  destruct (times_last (repaired rec)) as [e | d]; [reflexivity |].
  cbn [bind ret].
  destruct (load_all_events py_float _ _ [] []) as [all_events mapping].
  destruct all_events as [| event events].
  - destruct (output_file inp) as [destination |]; [| reflexivity].
    now destruct (String.eqb destination "").
  - unfold process_events_on, process_events.
    destruct (classify_events _ _ _ _) as [e | st]; [reflexivity |].
    cbn [bind]. cbv zeta.
    rewrite (pathlib_join_relative _ _ Hbackup),
      (pathlib_join_relative _ _ Hfinal).
    fold (correct_filename_of inp).
    unfold export_on, backup_name_of. cbn [move_succeeds export_succeeds obliging].
    rewrite times_last_set_annotations.
    change (fun entry : string * list StatusUpdate =>
              update_excel_event_status_on obliging (fst entry) (snd entry))
      with (fun entry : string * list StatusUpdate =>
              update_excel_event_status (fst entry) (snd entry)).
    destruct (output_file inp) as [destination |];
      destruct (times_last (repaired rec)); cbn [ret app];
      rewrite <- ?app_assoc, ?app_nil_r; reflexivity.
Qed.

End Obliging.

Section OutsideClaims.

Variable world : Outside.
Variable py_float : string -> option float.

(** C7, as the code has it.  When spreadsheet files were found but no
    event is retained from any of them, and the reader loads the
    recording, the header's record count and record duration parse and
    the recording has a last sample, the conversion writes no status and
    renames nothing.  Without an output path it reports success and
    exports nothing.  With one it exports the recording as loaded and
    repaired by the reconciliation, to which it adds no annotation: a
    recording that needed no repair is the reader's, with whatever
    annotations it found, and a padded or truncated one has none; the
    run reports success when that export goes through and failure when
    it is refused.  When the reader or one of those steps fails the
    conversion reports failure and does nothing, as it does when no
    spreadsheet file was found. *)
Theorem no_events_outcome (inp : ConvertInput) (mapping : list (nat * string)) :
  excel_files inp <> [] ->
  load_all_events py_float (reference_time_of py_float inp) (excel_files inp) [] []
  = ([], mapping) ->
  let run := convert_edf_to_edfplus_on world py_float inp in
  (forall rec actual_duration,
      reader_loads world = true ->
      load_recording py_float inp = inr (rec, actual_duration) ->
      run = match output_file inp with
            | Some destination =>
                if String.eqb destination "" then (true, [])
                else if export_succeeds world destination (repaired rec)
                     then (true, [ExportRaw destination (repaired rec)])
                     else (false, [])
            | None => (true, [])
            end
      /\ (action rec = NoAction -> repaired rec = mne_raw inp)
      /\ (action rec <> NoAction -> annotations (repaired rec) = []))
  /\ (reader_loads world = false
      \/ (exists e, load_recording py_float inp = inl e) ->
      run = (false, []))
  /\ forall inp' : ConvertInput,
       excel_files inp' = [] ->
       convert_edf_to_edfplus_on world py_float inp' = (false, []).
Proof.
  intros Hfiles Hload. cbv zeta. unfold reference_time_of in Hload.
  split; [| split].
  - intros rec actual_duration Hreader Hrecording. split.
    + unfold convert_edf_to_edfplus_on.
      destruct (excel_files inp) as [| file files] eqn:Efiles; [contradiction |].
      now rewrite Hreader, Hrecording, Hload.
    + unfold load_recording in Hrecording.
      apply bind_inr in Hrecording as (hd & _ & Hrecording).
      apply bind_inr in Hrecording as (rec' & Hrepair & Hrecording).
      apply bind_inr in Hrecording as (d & _ & Hrecording).
      injection Hrecording as <- _.
      exact (reconcile_duration_repaired _ _ _ Hrepair).
  - intros Hfails. unfold convert_edf_to_edfplus_on.
    destruct (excel_files inp) as [| file files]; [reflexivity |].
    destruct Hfails as [-> | (e & ->)]; [reflexivity |].
    now destruct (reader_loads world).
  - intros inp' Hnone. unfold convert_edf_to_edfplus_on. now rewrite Hnone.
Qed.

Lemma contains_char_remove_all_from (c : ascii) (pat : string) (s : string) :
  forall skip,
    contains_char c s = false ->
    contains_char c (remove_all_from pat skip s) = false.
Proof.
  induction s as [| d s IH]; intros skip Hs; [reflexivity |].
  cbn [contains_char] in Hs. apply orb_false_iff in Hs as [Hd Hs].
  cbn [remove_all_from].
  destruct skip as [| k]; [| now apply IH].
  destruct (prefix pat (String d s)); [now apply IH |].
  cbn [contains_char]. now rewrite Hd, IH.
Qed.

(** X12.  Without an output path a run does nothing, or writes its
    statuses, renames the original to a backup and exports, in this
    order, up to the first of the two that the outside refuses: it
    reports success exactly when both went through.  When the original
    name is [stem.edf] with a stem free of "_backup" and neither it nor
    the final name holds a "/", the backup is a file of the same
    directory whose name holds "_backup", so that the batch driver skips
    it, and from which the rollback recovers the original name. *)
Theorem backup_is_skipped_and_restorable (inp : ConvertInput) (s : string) :
  output_file inp = None ->
  edf_name inp = s ++ ".edf" ->
  s <> "" ->
  occurs "_backup" s = false ->
  contains_char "/" s = false ->
  contains_char "/" (correct_filename_of inp) = false ->
  let run := convert_edf_to_edfplus_on world py_float inp in
  let source := path_join (edf_parent inp) (edf_name inp) in
  let backup_file := path_join (edf_parent inp) (backup_name_of inp) in
  let final := path_join (edf_parent inp) (correct_filename_of inp) in
  (contains_char "/" (backup_name_of inp) = false
   /\ is_candidate (backup_name_of inp) = false
   /\ fst (rollback_names (backup_name_of inp)) = edf_name inp)
  /\ (snd run = []
      \/ exists written raw,
           Forall is_write written
           /\ ((move_succeeds world source backup_file = false
                /\ run = (false, written))
               \/ (move_succeeds world source backup_file = true
                   /\ export_succeeds world final raw = false
                   /\ run = (false, (written ++ [MoveFile source backup_file])%list))
               \/ (move_succeeds world source backup_file = true
                   /\ export_succeeds world final raw = true
                   /\ run = (true,
                             (written ++ [MoveFile source backup_file]
                              ++ [ExportRaw final raw])%list)))).
Proof.
  intros Hout Hname Hne Hclean Hstem Hfinal. cbv zeta.
  assert (Hbackup : backup_name_of inp
                    = s ++ "_backup_"
                      ++ remove_all ".edf" (correct_filename_of inp) ++ ".edf").
  { unfold backup_name_of. now rewrite Hname, stem_edf by exact Hne. }
  assert (Hslash : contains_char "/" (backup_name_of inp) = false).
  { rewrite Hbackup, !contains_char_app, Hstem.
    unfold remove_all.
    now rewrite (contains_char_remove_all_from _ _ _ 0 Hfinal). }
  split.
  - split; [exact Hslash |]. rewrite Hbackup, Hname. split.
    + unfold is_candidate.
      change (s ++ "_backup_" ++ remove_all ".edf" (correct_filename_of inp)
              ++ ".edf")
        with (s ++ "_backup"
              ++ ("_" ++ remove_all ".edf" (correct_filename_of inp) ++ ".edf")).
      now rewrite occurs_app_middle.
    + now apply rollback_names_original.
  - destruct (convert_on_outcomes world py_float inp)
      as [H | [H | [(destination & raw & Hout' & _ & H)
                   | (rec & d & all & mapping & Hlast & H)]]];
      cbv zeta in H.
    + left. now rewrite H.
    + left. now rewrite H.
    + congruence.
    + destruct (process_events_on_outcomes world inp rec d all mapping Hlast)
        as [Hnone | (written & raw & Hwritten & Hcases)]; cbv zeta in *.
      * left. now rewrite H, Hnone.
      * right. exists written, raw. split; [exact Hwritten |].
        rewrite Hout in Hcases.
        rewrite (pathlib_join_relative _ _ (no_slash_is_relative _ Hslash)),
          (pathlib_join_relative _ _ (no_slash_is_relative _ Hfinal)) in Hcases.
        rewrite H. exact Hcases.
Qed.

End OutsideClaims.

Lemma no_events_outcome_witness :
  convert_edf_to_edfplus_on obliging decimal_float
    (notes_only_input (Some "out.edf"))
  = (true, [ExportRaw "out.edf" flat_raw])
  /\ convert_edf_to_edfplus_on no_export decimal_float
       (notes_only_input (Some "out.edf"))
     = (false, [])
  /\ convert_edf_to_edfplus_on obliging decimal_float blank_count_input
     = (false, []).
Proof.
  split; [| split].
  - destruct (no_events_outcome obliging decimal_float
                (notes_only_input (Some "out.edf")) [])
      as (Hruns & _); [discriminate | vm_compute; reflexivity |].
    apply (Hruns {| repaired := flat_raw; zero_padding_start := None;
                    action := NoAction |} 10%float);
      [reflexivity | vm_compute; reflexivity].
  - destruct (no_events_outcome no_export decimal_float
                (notes_only_input (Some "out.edf")) [])
      as (Hruns & _); [discriminate | vm_compute; reflexivity |].
    apply (Hruns {| repaired := flat_raw; zero_padding_start := None;
                    action := NoAction |} 10%float);
      [reflexivity | vm_compute; reflexivity].
  - destruct (no_events_outcome obliging decimal_float blank_count_input [])
      as (_ & Hfails & _); [discriminate | vm_compute; reflexivity |].
    apply Hfails. right. exists ValueError. vm_compute. reflexivity.
Defined.

Lemma failed_conversion_effects_witness :
  snd (convert_edf_to_edfplus_on no_move decimal_float canonical_input)
  = [WriteCell "data/5774131_20130701_1000.xlsx" 1 6 INCLUDED]
  /\ forall destination raw,
       ~ In (ExportRaw destination raw)
            (snd (convert_edf_to_edfplus_on no_move decimal_float
                    canonical_input)).
Proof.
  split; [vm_compute; reflexivity |].
  apply (failed_conversion_effects no_move decimal_float canonical_input).
  vm_compute. reflexivity.
Defined.

Lemma backup_is_skipped_and_restorable_witness :
  (contains_char "/" (backup_name_of canonical_input) = false
   /\ is_candidate (backup_name_of canonical_input) = false
   /\ fst (rollback_names (backup_name_of canonical_input))
      = "5774131_20130701_1000.edf")
  /\ convert_edf_to_edfplus_on no_export decimal_float canonical_input
     = (false,
        [WriteCell "data/5774131_20130701_1000.xlsx" 1 6 INCLUDED;
         MoveFile "data/5774131_20130701_1000.edf"
           "data/5774131_20130701_1000_backup_5774131_20130701_1000.edf"]).
Proof.
  destruct (backup_is_skipped_and_restorable no_export decimal_float
              canonical_input "5774131_20130701_1000")
    as (Hnames & _); try solve [discriminate | reflexivity].
  split; [exact Hnames | vm_compute; reflexivity].
Defined.
